(** * A shallow embedding of printf.c (tiny printf for 32 bit ARM)

    The formatter of printf.c is translated function by function.  The target
    is the one named in the header of the source: a 32 bit ARM, so [int],
    [long], [size_t] and pointers are 32 bits wide, [long long] is 64 bits
    wide and plain [char] is unsigned.

    - Fixed-width integers are [Z] with the wrap-around written out.
    - A [const char*] is the list of the characters from the pointer to the
      end of the array it points into; reading an empty list is a read past
      the end of the array and is reported as a fault.
    - [data->out(c, data->ptr)] is a call of the sink [out] on the sink state
      stored in the [ptr] field.
    - A [va_list] is the list of the remaining arguments, each tagged with the
      size class it was passed in. *)

From Stdlib Require Import ZArith List Ascii String Bool Lia.
Import ListNotations.
Local Open Scope char_scope.
Local Open Scope Z_scope.

(** ** Machine integers and characters *)

Definition INT_BITS : Z := 32.
Definition LONG_BITS : Z := 32.
Definition LONG_LONG_BITS : Z := 64.
Definition SIZEOF_LONG : Z := 4.
Definition SIZEOF_LONG_LONG : Z := 8.
Definition SIZEOF_VOID_P : Z := 4.
Definition SIZEOF_PTRDIFF_T : Z := 4.
Definition SIZEOF_INTMAX_T : Z := 8.
Definition SIZEOF_SIZE_T : Z := 4.
Definition SIZE_MAX : Z := 2 ^ 32 - 1.

(** Conversion to an unsigned type of [bits] bits. *)
Definition wrap_u (bits z : Z) : Z := z mod 2 ^ bits.

(** Conversion to a signed two's complement type of [bits] bits. *)
Definition wrap_s (bits z : Z) : Z :=
  (z + 2 ^ (bits - 1)) mod 2 ^ bits - 2 ^ (bits - 1).

Definition u8 (z : Z) : Z := wrap_u 8 z.

(** [#define ABS(a) ((a) < 0 ? -(a) : (a))] at a signed type of [bits] bits. *)
Definition ABS (bits a : Z) : Z := if a <? 0 then wrap_s bits (- a) else a.

Definition code (c : ascii) : Z := Z.of_N (N_of_ascii c).
Definition chr (z : Z) : ascii := ascii_of_N (Z.to_N (z mod 256)).
Definition NUL : ascii := Ascii.zero.

(** Conversion of an [int] to plain [char] (unsigned on the target), read
    back as an [int]. *)
Definition to_char (z : Z) : Z := wrap_u 8 z.

Definition chars (s : string) : list ascii := list_ascii_of_string s.

(** The array holding the C string literal [s]: its characters and the
    terminating null. *)
Definition cstr (s : string) : list ascii := chars s ++ [NUL].

(** ** Faults: what the C standard leaves undefined *)

Inductive fault : Type :=
| ReadPastEnd   (* a read outside the array a char pointer points into *)
| BadVaArg      (* va_arg with no argument left or one of another type *)
| BadIndex      (* a read outside one of the constant tables *)
| NullStore     (* a store through a null pointer *)
| OutOfFuel.    (* the bound on the iterations of the main loop was hit *)

Inductive result (A : Type) : Type :=
| Ok (a : A)
| Fault (f : fault).
Arguments Ok {A} a.
Arguments Fault {A} f.

Definition bind {A B} (m : result A) (k : A -> result B) : result B :=
  match m with
  | Ok a => k a
  | Fault f => Fault f
  end.

Notation "'let*' p := m 'in' k" := (bind m (fun p => k))
  (at level 10, p pattern, m at level 100, k at level 200,
   format "'[v' 'let*'  p  :=  m  'in' '/' k ']'").

(** [*p] and [p++] on a char pointer. *)
Definition deref (p : list ascii) : result ascii :=
  match p with
  | [] => Fault ReadPastEnd
  | c :: _ => Ok c
  end.

Definition next (p : list ascii) : list ascii := tl p.

(** ** Variadic arguments *)

Inductive va_value : Type :=
| VInt (v : Z)              (* int, unsigned int and the promoted narrow types *)
| VLong (v : Z)             (* long, unsigned long *)
| VLongLong (v : Z)         (* long long, unsigned long long *)
| VPtr (v : Z)              (* void* *)
| VStr (s : list ascii).    (* char*: the array from the pointer on *)

Definition va_list : Type := list va_value.

Definition va_arg_int (va : va_list) : result (Z * va_list) :=
  match va with
  | VInt v :: va' => Ok (wrap_s INT_BITS v, va')
  | _ => Fault BadVaArg
  end.

Definition va_arg_unsigned_int (va : va_list) : result (Z * va_list) :=
  match va with
  | VInt v :: va' => Ok (wrap_u INT_BITS v, va')
  | _ => Fault BadVaArg
  end.

Definition va_arg_long (va : va_list) : result (Z * va_list) :=
  match va with
  | VLong v :: va' => Ok (wrap_s LONG_BITS v, va')
  | _ => Fault BadVaArg
  end.

Definition va_arg_unsigned_long (va : va_list) : result (Z * va_list) :=
  match va with
  | VLong v :: va' => Ok (wrap_u LONG_BITS v, va')
  | _ => Fault BadVaArg
  end.

Definition va_arg_long_long (va : va_list) : result (Z * va_list) :=
  match va with
  | VLongLong v :: va' => Ok (wrap_s LONG_LONG_BITS v, va')
  | _ => Fault BadVaArg
  end.

Definition va_arg_unsigned_long_long (va : va_list) : result (Z * va_list) :=
  match va with
  | VLongLong v :: va' => Ok (wrap_u LONG_LONG_BITS v, va')
  | _ => Fault BadVaArg
  end.

Definition va_arg_void_p (va : va_list) : result (Z * va_list) :=
  match va with
  | VPtr v :: va' => Ok (wrap_u (8 * SIZEOF_VOID_P) v, va')
  | _ => Fault BadVaArg
  end.

Definition va_arg_char_p (va : va_list) : result (list ascii * va_list) :=
  match va with
  | VStr s :: va' => Ok (s, va')
  | _ => Fault BadVaArg
  end.

(** ** Flags, bases and the tables *)

Definition FLAGS_ZEROPAD : Z := Z.shiftl 1 0.
Definition FLAGS_LEFT : Z := Z.shiftl 1 1.
Definition FLAGS_PLUS : Z := Z.shiftl 1 2.
Definition FLAGS_SPACE : Z := Z.shiftl 1 3.
Definition FLAGS_HASH : Z := Z.shiftl 1 4.
Definition FLAGS_UPPERCASE : Z := Z.shiftl 1 5.
Definition FLAGS_CHAR : Z := Z.shiftl 1 6.
Definition FLAGS_SHORT : Z := Z.shiftl 1 7.
Definition FLAGS_LONG : Z := Z.shiftl 1 8.
Definition FLAGS_LONG_LONG : Z := Z.shiftl 1 9.
Definition FLAGS_PRECISION : Z := Z.shiftl 1 10.
Definition FLAGS_ADAPT_EXP : Z := Z.shiftl 1 11.
Definition FLAGS_NEGATIVE : Z := Z.shiftl 1 12.

(** [flags & mask] as a condition. *)
Definition test (flags mask : Z) : bool := negb (Z.land flags mask =? 0).

(** [flags | mask] and [flags & ~mask]. *)
Definition set_bits (flags mask : Z) : Z := Z.lor flags mask.
Definition clear_bits (flags mask : Z) : Z := Z.land flags (Z.lnot mask).

Inductive base_t : Type := BASE_BINARY | BASE_OCTAL | BASE_DECIMAL | BASE_HEX.

Definition base_index (b : base_t) : nat :=
  match b with
  | BASE_BINARY => 0
  | BASE_OCTAL => 1
  | BASE_DECIMAL => 2
  | BASE_HEX => 3
  end%nat.

Definition base_eqb (a b : base_t) : bool :=
  Nat.eqb (base_index a) (base_index b).

Definition pow10_long : list Z :=
  [1; 10; 100; 1000; 10000; 100000; 1000000; 10000000; 100000000;
   1000000000].

Definition pow10_long_long : list Z :=
  [1; 10; 100; 1000; 10000; 100000; 1000000; 10000000; 100000000;
   1000000000; 10000000000; 100000000000; 1000000000000; 10000000000000;
   100000000000000; 1000000000000000; 10000000000000000;
   100000000000000000; 1000000000000000000; 10000000000000000000].

Definition base_bits (b : base_t) : Z := nth (base_index b) [1; 3; 0; 4] 0.
Definition base_mask (b : base_t) : Z := nth (base_index b) [1; 7; 0; 15] 0.

(** [table[i]]; an index outside the table is a fault. *)
Definition table_at (table : list Z) (i : Z) : result Z :=
  if i <? 0 then Fault BadIndex
  else match nth_error table (Z.to_nat i) with
       | Some x => Ok x
       | None => Fault BadIndex
       end.

(** ** The per-call state [data_t]

    The field [out] is assigned once, at the start of [format_out], and is a
    parameter of the functions below; [ptr] holds the state of the sink. *)

Record data_t (T : Type) : Type := mk_data {
  ptr : T;
  flags : Z;          (* uint16_t *)
  idx : Z;            (* uint8_t *)
  width : Z;          (* uint8_t *)
  precision : Z;      (* uint8_t *)
  base : base_t;
  digit_count : Z     (* uint8_t *)
}.
Arguments mk_data {T}.
Arguments ptr {T}.
Arguments flags {T}.
Arguments idx {T}.
Arguments width {T}.
Arguments precision {T}.
Arguments base {T}.
Arguments digit_count {T}.

Definition set_ptr {T U} (p : U) (d : data_t T) : data_t U :=
  mk_data p (flags d) (idx d) (width d) (precision d) (base d) (digit_count d).
Definition set_flags {T} (f : Z) (d : data_t T) : data_t T :=
  mk_data (ptr d) f (idx d) (width d) (precision d) (base d) (digit_count d).
Definition set_idx {T} (i : Z) (d : data_t T) : data_t T :=
  mk_data (ptr d) (flags d) i (width d) (precision d) (base d) (digit_count d).
Definition set_width {T} (w : Z) (d : data_t T) : data_t T :=
  mk_data (ptr d) (flags d) (idx d) w (precision d) (base d) (digit_count d).
Definition set_precision {T} (p : Z) (d : data_t T) : data_t T :=
  mk_data (ptr d) (flags d) (idx d) (width d) p (base d) (digit_count d).
Definition set_base {T} (b : base_t) (d : data_t T) : data_t T :=
  mk_data (ptr d) (flags d) (idx d) (width d) (precision d) b (digit_count d).
Definition set_digit_count {T} (n : Z) (d : data_t T) : data_t T :=
  mk_data (ptr d) (flags d) (idx d) (width d) (precision d) (base d) n.

(** [data->flags & mask] as a condition. *)
Definition has {T} (d : data_t T) (mask : Z) : bool := test (flags d) mask.

(** ** The formatter *)

Section Formatter.

Context {T : Type}.
Variable out : ascii -> T -> T.

Local Abbreviation data := (data_t T).

(** [data->out(c, data->ptr)] *)
Definition emit (c : ascii) (d : data) : data := set_ptr (out c (ptr d)) d.

(** [data->idx++] on a [uint8_t]. *)
Definition idx_incr (d : data) : data := set_idx (u8 (idx d + 1)) d.

Definition do_out (d : data) (c : ascii) : data := idx_incr (emit c d).

(** A [while (cond) body] loop over the state [data] that runs at most
    [fuel] times. *)
Fixpoint while (fuel : nat) (cond : data -> bool) (body : data -> data)
    (d : data) : data :=
  match fuel with
  | O => d
  | S fuel' => if cond d then while fuel' cond body (body d) else d
  end.

(** [while (data->width > 0) { out(c); idx++; width--; }] *)
Definition pad_width (c : ascii) (d : data) : data :=
  while (Z.to_nat (width d)) (fun d => 0 <? width d)
    (fun d => set_width (width d - 1) (do_out d c)) d.

(** [while (data->precision > 0) { out('0'); idx++; precision--; }] *)
Definition pad_precision (d : data) : data :=
  while (Z.to_nat (precision d)) (fun d => 0 <? precision d)
    (fun d => set_precision (precision d - 1) (do_out d "0")) d.

(** [while ((data->flags & FLAGS_ZEROPAD) && data->width > 0)
      { out('0'); idx++; width--; }] *)
Definition pad_zeros (d : data) : data :=
  while (Z.to_nat (width d))
    (fun d => has d FLAGS_ZEROPAD && (0 <? width d))
    (fun d => set_width (width d - 1) (do_out d "0")) d.

(** The loop that ends [ntoa_long]: the pad character is sent to the sink
    and the width is decremented. *)
Definition pad_trailing (d : data) : data :=
  while (Z.to_nat (width d)) (fun d => 0 <? width d)
    (fun d => set_width (width d - 1) (emit " " d)) d.

Definition ntoa_format (d : data) : data :=
  let d := set_width (Z.max (width d - digit_count d) 0) d in
  let d := set_precision (Z.max (precision d - digit_count d) 0) d in
  let d :=
    if (0 <? width d)
       && has d (Z.lor FLAGS_NEGATIVE (Z.lor FLAGS_PLUS FLAGS_SPACE))
    then set_width (width d - 1) d else d in
  let d :=
    if has d FLAGS_PRECISION
    then set_width (Z.max (width d - precision d) 0) d else d in
  let d :=
    if has d FLAGS_HASH then
      if base_eqb (base d) BASE_HEX || base_eqb (base d) BASE_BINARY
      then set_width (Z.max (width d - 2) 0) d
      else if 0 <? width d then set_width (width d - 1) d else d
    else d in
  (* pad spaces up to given width *)
  let d :=
    if negb (has d FLAGS_LEFT) && negb (has d FLAGS_ZEROPAD)
    then pad_width " " d else d in
  let d :=
    if has d FLAGS_NEGATIVE then do_out d "-"
    else if has d FLAGS_PLUS then do_out d "+"
    else if has d FLAGS_SPACE then do_out d " "
    else d in
  (* handle hash *)
  let d :=
    if has d FLAGS_HASH then
      let d := do_out d "0" in
      if base_eqb (base d) BASE_HEX && negb (has d FLAGS_UPPERCASE)
      then do_out d "x"
      else if base_eqb (base d) BASE_HEX && has d FLAGS_UPPERCASE
      then do_out d "X"
      else if base_eqb (base d) BASE_BINARY then do_out d "b"
      else d
    else d in
  (* pad leading zeros *)
  if negb (has d FLAGS_LEFT) then pad_zeros (pad_precision d) else d.

(** [while (digits < ARRAY_SIZE(table) && value >= table[digits]) digits++;]
    where [table] holds the entries from index [digits] on. *)
Fixpoint count_pow10 (table : list Z) (value digits : Z) : Z :=
  match table with
  | [] => digits
  | p :: table' =>
      if p <=? value then count_pow10 table' value (u8 (digits + 1))
      else digits
  end.

(** [while (value > 0) { digits++; value >>= bits; }]; a value of at most 64
    bits is used up after 64 shifts by one bit or more. *)
Fixpoint count_shift (fuel : nat) (bits value digits : Z) : Z :=
  match fuel with
  | O => digits
  | S fuel' =>
      if 0 <? value
      then count_shift fuel' bits (Z.shiftr value bits) (u8 (digits + 1))
      else digits
  end.

Definition get_digits_long (value : Z) (b : base_t) : Z :=
  if base_eqb b BASE_DECIMAL then count_pow10 pow10_long value 0
  else count_shift 64 (base_bits b) value 0.

Definition get_digits_long_long (value : Z) (b : base_t) : Z :=
  if base_eqb b BASE_DECIMAL then count_pow10 pow10_long_long value 0
  else count_shift 64 (base_bits b) value 0.

(** The decimal loop of [ntoa_long] and [ntoa_long_long]:
    [while (digit_count > 0) { digit_count--; l = table[digit_count];
       digit = value / l; value %= l; out(digit + '0'); idx++; }] *)
Fixpoint ntoa_decimal (table : list Z) (fuel : nat) (d : data) (value : Z)
    : result data :=
  match fuel with
  | O => Ok d
  | S fuel' =>
      if 0 <? digit_count d then
        let d := set_digit_count (digit_count d - 1) d in
        let* l := table_at table (digit_count d) in
        let digit := u8 (value / l) in
        let value := value mod l in
        ntoa_decimal table fuel' (do_out d (chr (digit + code "0"))) value
      else Ok d
  end.

(** The digit character of the power-of-two bases. *)
Definition digit_char (d : data) (digit : Z) : ascii :=
  if digit <? 10 then chr (code "0" + digit)
  else chr ((if has d FLAGS_UPPERCASE then code "A" else code "a")
            + digit - 10).

(** [for (; digit_count > 0; digit_count--) { digit = (value >>
       (digit_count-1) * bits[base]) & mask[base]; out(...); idx++; }] *)
Definition ntoa_pow2 (d : data) (value : Z) : data :=
  while (Z.to_nat (digit_count d)) (fun d => 0 <? digit_count d)
    (fun d =>
       let digit :=
         u8 (Z.land (Z.shiftr value ((digit_count d - 1) * base_bits (base d)))
                    (base_mask (base d))) in
       set_digit_count (digit_count d - 1) (do_out d (digit_char d digit)))
    d.

(** [ntoa_long] and [ntoa_long_long] have the same body up to the table of
    powers of ten. *)
Definition ntoa (table : list Z) (d : data) (value : Z) : result data :=
  let* d :=
    (* write if precision != 0 and value is != 0 *)
    if negb (has d FLAGS_PRECISION) || negb (value =? 0) then
      if value =? 0 then Ok (do_out d "0")
      else if base_eqb (base d) BASE_DECIMAL
      then ntoa_decimal table (Z.to_nat (digit_count d)) d value
      else Ok (ntoa_pow2 d value)
    else Ok d in
  (* append pad spaces up to given width *)
  Ok (if has d FLAGS_LEFT then pad_trailing d else d).

Definition ntoa_long : data -> Z -> result data := ntoa pow10_long.
Definition ntoa_long_long : data -> Z -> result data := ntoa pow10_long_long.

Definition pre_format_long (d : data) (value : Z) (negative : bool) : data :=
  let d := set_digit_count (get_digits_long value (base d)) d in
  (* no hash for 0 values *)
  let d :=
    if value =? 0 then set_flags (clear_bits (flags d) FLAGS_HASH) d else d in
  if negative then set_flags (set_bits (flags d) FLAGS_NEGATIVE) d else d.

Definition pre_format_long_long (d : data) (value : Z) (negative : bool)
    : data :=
  let d := set_digit_count (get_digits_long_long value (base d)) d in
  let d :=
    if value =? 0 then set_flags (clear_bits (flags d) FLAGS_HASH) d else d in
  if negative then set_flags (set_bits (flags d) FLAGS_NEGATIVE) d else d.

(** [strnlen_s]: [while (s[0] != 0 && maxsize > 0) { ++s; --maxsize; }], with
    the distance [s - str] in [len]. *)
Fixpoint strnlen_s (s : list ascii) (maxsize len : Z) : result Z :=
  match s with
  | [] => Fault ReadPastEnd
  | c :: s' =>
      if negb (Ascii.eqb c NUL) && (0 <? maxsize)
      then strnlen_s s' (maxsize - 1) (len + 1)
      else Ok (wrap_u INT_BITS len)
  end.

(** [while (l++ < data->width) { out(' '); idx++; }]; the value of [l] after
    the loop is returned with the state. *)
Fixpoint pad_from (fuel : nat) (l : Z) (d : data) : Z * data :=
  match fuel with
  | O => (l, d)
  | S fuel' =>
      if l <? width d
      then pad_from fuel' (wrap_u INT_BITS (l + 1)) (do_out d " ")
      else (wrap_u INT_BITS (l + 1), d)
  end.

Definition pad_field (l : Z) (d : data) : Z * data :=
  pad_from (S (Z.to_nat (width d - l))) l d.

(** [while (p[0] != 0 && (!(flags & FLAGS_PRECISION) || data->precision--))
      { out(p[0]); p++; idx++; }] *)
Fixpoint string_output (p : list ascii) (d : data) : result data :=
  match p with
  | [] => Fault ReadPastEnd
  | c :: p' =>
      if Ascii.eqb c NUL then Ok d
      else if negb (has d FLAGS_PRECISION) then string_output p' (do_out d c)
      else
        let more := negb (precision d =? 0) in
        let d := set_precision (u8 (precision d - 1)) d in
        if more then string_output p' (do_out d c) else Ok d
  end.

Definition print_string (d : data) (p : list ascii) : result data :=
  let* l :=
    strnlen_s p (if precision d =? 0 then SIZE_MAX else precision d) 0 in
  (* pre padding *)
  let l :=
    if has d FLAGS_PRECISION
    then (if l <? precision d then l else precision d) else l in
  let '(l, d) := if negb (has d FLAGS_LEFT) then pad_field l d else (l, d) in
  (* string output *)
  let* d := string_output p d in
  (* post padding *)
  Ok (if has d FLAGS_LEFT then snd (pad_field l d) else d).

(** [is_digit] and [atoi]; [atoi] returns the advanced pointer with the
    value. *)
Definition is_digit (ch : ascii) : bool :=
  (code "0" <=? code ch) && (code ch <=? code "9").

Fixpoint atoi_from (i : Z) (str : list ascii) : result (Z * list ascii) :=
  match str with
  | [] => Fault ReadPastEnd
  | c :: str' =>
      if is_digit c
      then atoi_from (wrap_u INT_BITS (i * 10 + wrap_u INT_BITS (code c - code "0")))
             str'
      else Ok (i, str)
  end.

Definition atoi (str : list ascii) : result (Z * list ascii) :=
  atoi_from 0 str.

(** *** The stages of one directive of [format_out] *)

(** evaluate flags: the [do ... while (n)] loop. *)
Fixpoint eval_flags (d : data) (format : list ascii)
    : result (data * list ascii) :=
  match format with
  | [] => Fault ReadPastEnd
  | c :: format' =>
      if Ascii.eqb c "0"
      then eval_flags (set_flags (set_bits (flags d) FLAGS_ZEROPAD) d) format'
      else if Ascii.eqb c "-"
      then eval_flags (set_flags (set_bits (flags d) FLAGS_LEFT) d) format'
      else if Ascii.eqb c "+"
      then eval_flags (set_flags (set_bits (flags d) FLAGS_PLUS) d) format'
      else if Ascii.eqb c " "
      then eval_flags (set_flags (set_bits (flags d) FLAGS_SPACE) d) format'
      else if Ascii.eqb c "#"
      then eval_flags (set_flags (set_bits (flags d) FLAGS_HASH) d) format'
      else Ok (d, format)
  end.

(** evaluate width field *)
Definition eval_width (d : data) (format : list ascii) (va : va_list)
    : result (data * list ascii * va_list) :=
  let d := set_width 0 d in
  let* c := deref format in
  if is_digit c then
    let* (n, format) := atoi format in
    Ok (set_width (u8 n) d, format, va)
  else if Ascii.eqb c "*" then
    let* (w, va) := va_arg_int va in
    let d :=
      if w <? 0 then
        (* reverse padding *)
        let d := set_flags (set_bits (flags d) FLAGS_LEFT) d in
        set_width (u8 (wrap_u INT_BITS (wrap_s INT_BITS (- w)))) d
      else set_width (u8 (wrap_u INT_BITS w)) d in
    Ok (d, next format, va)
  else Ok (d, format, va).

(** evaluate precision field *)
Definition eval_precision (d : data) (format : list ascii) (va : va_list)
    : result (data * list ascii * va_list) :=
  let d := set_precision 0 d in
  let* c := deref format in
  if Ascii.eqb c "." then
    let d := set_flags (set_bits (flags d) FLAGS_PRECISION) d in
    let format := next format in
    let* c := deref format in
    if is_digit c then
      let* (n, format) := atoi format in
      Ok (set_precision (u8 n) d, format, va)
    else if Ascii.eqb c "*" then
      let* (prec, va) := va_arg_int va in
      let d :=
        set_precision (u8 (if 0 <? prec then wrap_u INT_BITS prec else 0)) d in
      Ok (d, next format, va)
    else Ok (d, format, va)
  else Ok (d, format, va).

(** [sizeof(t) == sizeof(long) ? FLAGS_LONG : FLAGS_LONG_LONG] *)
Definition length_flag (size : Z) : Z :=
  if size =? SIZEOF_LONG then FLAGS_LONG else FLAGS_LONG_LONG.

(** evaluate length field *)
Definition eval_length (d : data) (format : list ascii)
    : result (data * list ascii) :=
  let* c := deref format in
  if Ascii.eqb c "l" then
    let d := set_flags (set_bits (flags d) FLAGS_LONG) d in
    let format := next format in
    let* c := deref format in
    if Ascii.eqb c "l"
    then Ok (set_flags (set_bits (flags d) FLAGS_LONG_LONG) d, next format)
    else Ok (d, format)
  else if Ascii.eqb c "h" then
    let d := set_flags (set_bits (flags d) FLAGS_SHORT) d in
    let format := next format in
    let* c := deref format in
    if Ascii.eqb c "h"
    then Ok (set_flags (set_bits (flags d) FLAGS_CHAR) d, next format)
    else Ok (d, format)
  else if Ascii.eqb c "t" then
    Ok (set_flags (set_bits (flags d) (length_flag SIZEOF_PTRDIFF_T)) d,
        next format)
  else if Ascii.eqb c "j" then
    Ok (set_flags (set_bits (flags d) (length_flag SIZEOF_INTMAX_T)) d,
        next format)
  else if Ascii.eqb c "z" then
    Ok (set_flags (set_bits (flags d) (length_flag SIZEOF_SIZE_T)) d,
        next format)
  else Ok (d, format).

(** The integer conversions [d i u x X o b]; [c] is the conversion
    character. *)
Definition convert_integer (d : data) (c : ascii) (va : va_list)
    : result (data * va_list) :=
  (* set the base *)
  let d :=
    if Ascii.eqb c "x" || Ascii.eqb c "X" then set_base BASE_HEX d
    else if Ascii.eqb c "o" then set_base BASE_OCTAL d
    else if Ascii.eqb c "b" then set_base BASE_BINARY d
    else
      (* no hash for dec format *)
      set_flags (clear_bits (flags d) FLAGS_HASH) (set_base BASE_DECIMAL d) in
  (* uppercase *)
  let d :=
    if Ascii.eqb c "X"
    then set_flags (set_bits (flags d) FLAGS_UPPERCASE) d else d in
  (* no plus or space flag for u, x, X, o, b *)
  let d :=
    if negb (Ascii.eqb c "i") && negb (Ascii.eqb c "d")
    then set_flags (clear_bits (flags d) (Z.lor FLAGS_PLUS FLAGS_SPACE)) d
    else d in
  (* ignore '0' flag when precision is given *)
  let d :=
    if has d FLAGS_PRECISION
    then set_flags (clear_bits (flags d) FLAGS_ZEROPAD) d else d in
  (* convert the integer *)
  if Ascii.eqb c "i" || Ascii.eqb c "d" then
    (* signed *)
    if has d FLAGS_LONG_LONG then
      let* (value, va) := va_arg_long_long va in
      let magnitude := wrap_u LONG_LONG_BITS (ABS LONG_LONG_BITS value) in
      let d := pre_format_long_long d magnitude (value <? 0) in
      let d := ntoa_format d in
      let* d := ntoa_long_long d magnitude in
      Ok (d, va)
    else if has d FLAGS_LONG then
      let* (value, va) := va_arg_long va in
      let magnitude := wrap_u LONG_BITS (ABS LONG_BITS value) in
      let d := pre_format_long d magnitude (value <? 0) in
      let d := ntoa_format d in
      let* d := ntoa_long d magnitude in
      Ok (d, va)
    else
      let* (v, va) := va_arg_int va in
      let value :=
        if has d FLAGS_CHAR then to_char v
        else if has d FLAGS_SHORT then wrap_s 16 v
        else v in
      let magnitude := wrap_u LONG_BITS (ABS INT_BITS value) in
      let d := pre_format_long d magnitude (value <? 0) in
      let d := ntoa_format d in
      let* d := ntoa_long d magnitude in
      Ok (d, va)
  else
    (* unsigned *)
    if has d FLAGS_LONG_LONG then
      let* (value, va) := va_arg_unsigned_long_long va in
      let d := pre_format_long_long d value false in
      let d := ntoa_format d in
      let* d := ntoa_long_long d value in
      Ok (d, va)
    else if has d FLAGS_LONG then
      let* (value, va) := va_arg_unsigned_long va in
      let d := pre_format_long d value false in
      let d := ntoa_format d in
      let* d := ntoa_long d value in
      Ok (d, va)
    else
      let* (v, va) := va_arg_unsigned_int va in
      let value :=
        if has d FLAGS_CHAR then wrap_u 8 v
        else if has d FLAGS_SHORT then wrap_u 16 v
        else v in
      let d := pre_format_long d value false in
      let d := ntoa_format d in
      let* d := ntoa_long d value in
      Ok (d, va).

(** The conversion [c]. *)
Definition convert_char (d : data) (va : va_list) : result (data * va_list) :=
  let l := 1 in
  (* pre padding *)
  let '(l, d) := if negb (has d FLAGS_LEFT) then pad_field l d else (l, d) in
  (* char output *)
  let* (v, va) := va_arg_int va in
  let d := do_out d (chr v) in
  (* post padding *)
  Ok (if has d FLAGS_LEFT then snd (pad_field l d) else d, va).

(** The conversion [p]. *)
Definition convert_pointer (d : data) (va : va_list)
    : result (data * va_list) :=
  let d := set_width (u8 (SIZEOF_VOID_P * 2)) d in
  let d :=
    set_flags (set_bits (flags d) (Z.lor FLAGS_ZEROPAD FLAGS_UPPERCASE)) d in
  let d := set_base BASE_HEX d in
  let is_ll := SIZEOF_VOID_P =? SIZEOF_LONG_LONG in
  let* (value, va) := va_arg_void_p va in
  if is_ll then
    let d := pre_format_long_long d value false in
    let d := ntoa_format d in
    let* d := ntoa_long_long d value in
    Ok (d, va)
  else
    let value := wrap_u LONG_BITS value in
    let d := pre_format_long d value false in
    let d := ntoa_format d in
    let* d := ntoa_long d value in
    Ok (d, va).

(** The conversion characters that have a case of their own in the switch
    of [format_out]. *)
Definition is_integer_conversion (c : ascii) : bool :=
  Ascii.eqb c "d" || Ascii.eqb c "i" || Ascii.eqb c "u" || Ascii.eqb c "x"
  || Ascii.eqb c "X" || Ascii.eqb c "o" || Ascii.eqb c "b".

(** evaluate specifier *)
Definition eval_specifier (d : data) (format : list ascii) (va : va_list)
    : result (data * list ascii * va_list) :=
  let* c := deref format in
  if is_integer_conversion c then
    let* (d, va) := convert_integer d c va in
    Ok (d, next format, va)
  else if Ascii.eqb c "c" then
    let* (d, va) := convert_char d va in
    Ok (d, next format, va)
  else if Ascii.eqb c "s" then
    let* (p, va) := va_arg_char_p va in
    let* d := print_string d p in
    Ok (d, next format, va)
  else if Ascii.eqb c "p" then
    let* (d, va) := convert_pointer d va in
    Ok (d, next format, va)
  else if Ascii.eqb c "%" then Ok (do_out d "%", next format, va)
  else Ok (do_out d c, next format, va).

(** One directive, from the character after the percent sign on. *)
Definition directive (d : data) (format : list ascii) (va : va_list)
    : result (data * list ascii * va_list) :=
  let d := set_flags 0 d in
  let* (d, format) := eval_flags d format in
  let* (d, format, va) := eval_width d format va in
  let* (d, format, va) := eval_precision d format va in
  let* (d, format) := eval_length d format in
  eval_specifier d format va.

(** The loop [while ( *format ) ...] of [format_out]; every iteration moves
    [format] forward, so at most [fuel] iterations are run. *)
Fixpoint format_loop (fuel : nat) (d : data) (format : list ascii)
    (va : va_list) : result data :=
  match fuel with
  | O => Fault OutOfFuel
  | S fuel' =>
      let* c := deref format in
      if Ascii.eqb c NUL then Ok d
      else if negb (Ascii.eqb c "%") then
        format_loop fuel' (do_out d c) (next format) va
      else
        (* yes, evaluate it *)
        let* (d, format, va) := directive d (next format) va in
        format_loop fuel' d format va
  end.

(** The fields of [data] that [format_out] leaves unassigned are zero here;
    each is assigned before it is read. *)
Definition initial_data (p : T) : data :=
  mk_data p 0 0 0 0 BASE_BINARY 0.

(** [format_out]: the state of the sink after the call and the returned
    [data.idx]. *)
Definition format_out (p : T) (format : list ascii) (va : va_list)
    : result (T * Z) :=
  let* d := format_loop (S (List.length format)) (initial_data p) format va in
  Ok (ptr d, idx d).

End Formatter.

(** ** The sinks and the public entry points *)

(** The state behind the [void*] of [out_sprintf]: the [sprintf_data_t]
    together with the array [buffer] points into.  [buffer] is [None] for a
    null pointer and an offset into [mem] otherwise; [overflow] records that
    a store fell outside the array. *)
Record sprintf_data_t : Type := mk_sprintf {
  mem : list ascii;
  buffer : option Z;
  maxlen : Z;            (* size_t *)
  overflow : bool
}.

(** [buffer[off] = c] *)
Fixpoint poke (m : list ascii) (off : nat) (c : ascii) : option (list ascii) :=
  match m, off with
  | [], _ => None
  | _ :: m', O => Some (c :: m')
  | x :: m', S off' => option_map (cons x) (poke m' off' c)
  end.

Definition store (s : sprintf_data_t) (off : Z) (c : ascii)
    : sprintf_data_t :=
  match (if off <? 0 then None else poke (mem s) (Z.to_nat off) c) with
  | Some m => mk_sprintf m (buffer s) (maxlen s) (overflow s)
  | None => mk_sprintf (mem s) (buffer s) (maxlen s) true
  end.

Definition out_sprintf (character : ascii) (s : sprintf_data_t)
    : sprintf_data_t :=
  match buffer s with
  | Some b =>
      if 0 <? maxlen s then
        let s := store s b character in
        mk_sprintf (mem s) (Some (b + 1)) (maxlen s - 1) (overflow s)
      else s
  | None => s
  end.

Section Device.

(** The device behind [_putchar], which is declared in printf.h and
    supplied by the host: a state [D] that each call transforms. *)
Context {D : Type}.
Variable _putchar : ascii -> D -> D.

(** internal _putchar wrapper *)
Definition out_char (character : ascii) (dev : D) : D :=
  if negb (Ascii.eqb character NUL) then _putchar character dev else dev.

Definition vprintf_ (dev : D) (format : list ascii) (va : va_list)
    : result (D * Z) :=
  format_out out_char dev format va.

Definition printf_ (dev : D) (format : list ascii) (va : va_list)
    : result (D * Z) :=
  format_out out_char dev format va.

End Device.

(** [sprintf_]: the capacity is [(size_t)-1]; the terminator is stored at
    the final position. *)
Definition sprintf_ (m : list ascii) (buf : option Z) (format : list ascii)
    (va : va_list) : result (sprintf_data_t * Z) :=
  let data := mk_sprintf m buf SIZE_MAX false in
  let* (data, ret) := format_out out_sprintf data format va in
  match buffer data with
  | Some b => Ok (store data b NUL, ret)
  | None => Fault NullStore
  end.

(** [vsnprintf_]; [m] is the array [buf] points into. *)
Definition vsnprintf_ (m : list ascii) (buf : option Z) (count : Z)
    (format : list ascii) (va : va_list) : result (sprintf_data_t * Z) :=
  let data := mk_sprintf m buf count false in
  let* (data, ret) := format_out out_sprintf data format va in
  match buf with
  | Some _ =>
      if 0 <? count then
        match buffer data with
        | Some b =>
            Ok (store data (b + (if maxlen data =? 0 then -1 else 0)) NUL,
                ret)
        | None => Fault NullStore
        end
      else Ok (data, ret)
  | None => Ok (data, ret)
  end.

(** [snprintf_] has the body of [vsnprintf_] between [va_start] and
    [va_end]. *)
Definition snprintf_ (m : list ascii) (buf : option Z) (count : Z)
    (format : list ascii) (va : va_list) : result (sprintf_data_t * Z) :=
  vsnprintf_ m buf count format va.

(** ** A terminal: the device that logs what [_putchar] receives *)

Definition tty_putchar (c : ascii) (log : list ascii) : list ascii :=
  log ++ [c].

(** The sink that logs every character the formatter sends out. *)
Definition out_log (c : ascii) (log : list ascii) : list ascii := log ++ [c].

(** * The vocabulary of the statements *)

(** ** Sinks and results *)

Definition feed {T} (out : ascii -> T -> T) (cs : list ascii) (p : T) : T :=
  fold_left (fun s c => out c s) cs p.

Definition rmap {A B} (f : A -> B) (r : result A) : result B :=
  match r with
  | Ok a => Ok (f a)
  | Fault e => Fault e
  end.

Definition lift {T U} (h : T -> U) (d : data_t T) : data_t U :=
  set_ptr (h (ptr d)) d.

(** ** The layout engine, step by step *)

Section Layout.

Context {T : Type}.
Variable out : ascii -> T -> T.

Local Abbreviation data := (data_t T).

(** [do_out] on each character of [cs] in turn. *)
Definition emitted (cs : list ascii) (d : data) : data :=
  fold_left (do_out out) cs d.

(** [n] increments of a [uint8_t]. *)
Definition bump (n : nat) (i : Z) : Z := Nat.iter n (fun i => u8 (i + 1)) i.

Definition layout_width (d : data) : data :=
  let d := set_width (Z.max (width d - digit_count d) 0) d in
  let d := set_precision (Z.max (precision d - digit_count d) 0) d in
  let d :=
    if (0 <? width d)
       && has d (Z.lor FLAGS_NEGATIVE (Z.lor FLAGS_PLUS FLAGS_SPACE))
    then set_width (width d - 1) d else d in
  let d :=
    if has d FLAGS_PRECISION
    then set_width (Z.max (width d - precision d) 0) d else d in
  if has d FLAGS_HASH then
    if base_eqb (base d) BASE_HEX || base_eqb (base d) BASE_BINARY
    then set_width (Z.max (width d - 2) 0) d
    else if 0 <? width d then set_width (width d - 1) d else d
  else d.

Definition layout_pad (d : data) : data :=
  if negb (has d FLAGS_LEFT) && negb (has d FLAGS_ZEROPAD)
  then pad_width out " " d else d.

Definition layout_sign (d : data) : data :=
  if has d FLAGS_NEGATIVE then do_out out d "-"
  else if has d FLAGS_PLUS then do_out out d "+"
  else if has d FLAGS_SPACE then do_out out d " "
  else d.

Definition layout_hash (d : data) : data :=
  if has d FLAGS_HASH then
    let d := do_out out d "0" in
    if base_eqb (base d) BASE_HEX && negb (has d FLAGS_UPPERCASE)
    then do_out out d "x"
    else if base_eqb (base d) BASE_HEX && has d FLAGS_UPPERCASE
    then do_out out d "X"
    else if base_eqb (base d) BASE_BINARY then do_out out d "b"
    else d
  else d.

Definition layout_zeros (d : data) : data :=
  if negb (has d FLAGS_LEFT) then pad_zeros out (pad_precision out d) else d.

(** The four groups, from the state [r] left by the width reduction. *)
Definition pad_chars (r : data) : list ascii :=
  if negb (has r FLAGS_LEFT) && negb (has r FLAGS_ZEROPAD)
  then repeat " "%char (Z.to_nat (width r)) else [].

Definition sign_chars (r : data) : list ascii :=
  if has r FLAGS_NEGATIVE then ["-"%char]
  else if has r FLAGS_PLUS then ["+"%char]
  else if has r FLAGS_SPACE then [" "%char]
  else [].

Definition prefix_chars (r : data) : list ascii :=
  if has r FLAGS_HASH then
    "0"%char ::
    (if base_eqb (base r) BASE_HEX
     then [if has r FLAGS_UPPERCASE then "X"%char else "x"%char]
     else if base_eqb (base r) BASE_BINARY then ["b"%char] else [])
  else [].

Definition zero_chars (r : data) : list ascii :=
  if negb (has r FLAGS_LEFT) then
    repeat "0"%char (Z.to_nat (precision r))
    ++ (if has r FLAGS_ZEROPAD then repeat "0"%char (Z.to_nat (width r))
        else [])
  else [].

Definition layout_chars (d : data) : list ascii :=
  let r := layout_width d in
  pad_chars r ++ sign_chars r ++ prefix_chars r ++ zero_chars r.

(** Width and precision when [ntoa_format] returns. *)
Definition layout_final (r : data) : data :=
  if negb (has r FLAGS_LEFT) then set_width 0 (set_precision 0 r) else r.

End Layout.

(** ** Characters, numerals and buffers *)

(** The whole field of a zero with a precision: pad, sign, zeros of the
    layout, and the trailing pad. *)
Definition zero_field {T} (d1 : data_t T) : list ascii :=
  let r := layout_width d1 in
  pad_chars r ++ sign_chars r ++ zero_chars r
  ++ repeat " "%char (if has r FLAGS_LEFT then Z.to_nat (width r) else O).

(** The whole field of a zero, with a precision or without: pad, sign, zeros
    of the layout, the digit of the converter when there is no precision,
    and the trailing pad. *)
Definition zero_value_field {T} (d1 : data_t T) : list ascii :=
  let r := layout_width d1 in
  pad_chars r ++ sign_chars r ++ zero_chars r
  ++ (if has r FLAGS_PRECISION then [] else ["0"%char])
  ++ repeat " "%char (if has r FLAGS_LEFT then Z.to_nat (width r) else O).

Definition non_null (c : ascii) : bool := negb (Ascii.eqb c NUL).



(** The array after [vsnprintf_] with capacity [count], when the formatter
    produces [cs]. *)
Definition bounded_copy (m : list ascii) (count : Z) (cs : list ascii)
    : list ascii :=
  if count =? 0 then m
  else if Z.of_nat (List.length cs) <? count
  then cs ++ NUL :: skipn (S (List.length cs)) m
  else firstn (Z.to_nat count - 1) cs ++ NUL :: skipn (Z.to_nat count) m.

(** The stages of a directive that follow the width. *)
Definition directive_tail {T} (out : ascii -> T -> T) (d : data_t T)
    (format : list ascii) (va : va_list)
    : result (data_t T * list ascii * va_list) :=
  let* (d, format, va) := eval_precision d format va in
  let* (d, format) := eval_length d format in
  eval_specifier out d format va.


(** The scan of the terminated text [rest ++ [NUL]], which [tail] follows in
    the array, has come to [f] without leaving the text. *)
Definition inside (tail rest f : list ascii) : Prop :=
  exists mid rest', rest = mid ++ rest' /\ f = rest' ++ NUL :: tail.

(** A decimal numeral without a leading zero, and the number it denotes. *)
Definition is_numeral (ds : list ascii) : bool :=
  match ds with
  | [] => false
  | c :: _ => negb (Ascii.eqb c "0") && forallb is_digit ds
  end.

Definition numeral_value (ds : list ascii) : Z :=
  fold_left (fun acc c => acc * 10 + (code c - code "0")) ds 0.

(** The first [N] powers of ten, as in the tables of the source. *)
Definition powers (N : nat) : list Z :=
  map (fun i => 10 ^ Z.of_nat i) (seq 0 N).

(** The digits of [v] in a field of [n] decimal places, first the most
    significant. *)
Fixpoint dec_digits (n : nat) (v : Z) : list ascii :=
  match n with
  | O => []
  | S n' =>
      chr (v / 10 ^ Z.of_nat n' + code "0")
      :: dec_digits n' (v mod 10 ^ Z.of_nat n')
  end.

(** Reading a decimal numeral back, with an optional minus sign. *)
Fixpoint parse_digits (acc : Z) (s : list ascii) : option Z :=
  match s with
  | [] => Some acc
  | c :: s' =>
      if is_digit c then parse_digits (acc * 10 + (code c - code "0")) s'
      else None
  end.

Definition parse_unsigned (s : list ascii) : option Z :=
  match s with
  | [] => None
  | _ => parse_digits 0 s
  end.

Definition parse_decimal (s : list ascii) : option Z :=
  match s with
  | c :: s' =>
      if Ascii.eqb c "-" then option_map Z.opp (parse_unsigned s')
      else parse_unsigned s
  | [] => None
  end.

(** The numeral the code prints for [m]: a single zero, or as many places
    as the scan of the table counts. *)
Definition decimal_repr (table : list Z) (m : Z) : list ascii :=
  if m =? 0 then ["0"%char]
  else dec_digits (Z.to_nat (count_pow10 table m 0)) m.

Definition signed_repr (table : list Z) (v : Z) : list ascii :=
  (if v <? 0 then ["-"%char] else []) ++ decimal_repr table (Z.abs v).

Definition plain_flags : list Z :=
  [0; FLAGS_LONG; Z.lor FLAGS_LONG FLAGS_LONG_LONG].

(** A format made of one integer directive runs the conversion on the state
    the earlier stages leave. *)
Definition one_conversion {T} (out : ascii -> T -> T) p f c va
    : result (T * Z) :=
  rmap (fun x => (ptr (fst x), idx (fst x)))
    (convert_integer out (mk_data p f 0 0 0 BASE_BINARY 0) c va).

(** What [printf_] on the terminal prints for one argument, read back as a
    decimal number. *)
Definition prints_back (format : string) (arg : va_value) (v : Z) : Prop :=
  exists s n,
    printf_ tty_putchar [] (cstr format) [arg] = Ok (s, n)
    /\ parse_decimal s = Some v.

(** No stage of a directive reports [OutOfFuel]. *)
Definition in_time {A} (r : result A) : Prop :=
  match r with
  | Fault OutOfFuel => False
  | _ => True
  end.

(** ** The vocabulary of the further properties *)

(** ** Texts *)

(** The format that prints the text [s] as it is: every percent sign is
    doubled. *)
Fixpoint escape (s : list ascii) : list ascii :=
  match s with
  | [] => []
  | c :: s' =>
      if Ascii.eqb c "%" then "%"%char :: "%"%char :: escape s'
      else c :: escape s'
  end.

(** The characters of a string field for the string [s]: the part of [s]
    that the precision lets through, and the pad up to the width, after it
    when the field is left-justified and before it otherwise. *)
Definition string_part {T} (d : data_t T) (s : list ascii) : list ascii :=
  if has d FLAGS_PRECISION then firstn (Z.to_nat (precision d)) s else s.

Definition string_field {T} (d : data_t T) (s : list ascii) : list ascii :=
  let part := string_part d s in
  let pad := repeat " "%char (Z.to_nat (width d) - List.length part) in
  if has d FLAGS_LEFT then part ++ pad else pad ++ part.

(** The characters of the field of the conversion [c]. *)
Definition char_field {T} (d : data_t T) (c : ascii) : list ascii :=
  let pad := repeat " "%char (Z.to_nat (width d) - 1) in
  if has d FLAGS_LEFT then c :: pad else pad ++ [c].

(** ** Numbers *)

(** The digits of [v] in [n] places of the base of [d], a power of two,
    first the most significant. *)
Fixpoint pow2_digits {T} (d : data_t T) (n : nat) (v : Z) : list ascii :=
  match n with
  | O => []
  | S n' =>
      digit_char d
        (u8 (Z.land (Z.shiftr v (Z.of_nat n' * base_bits (base d)))
               (base_mask (base d))))
      :: pow2_digits d n' v
  end.

(** The digits that the converter prints for a nonzero value [v] in the
    state [d] that [pre_format_long] or [pre_format_long_long] leaves. *)
Definition number_digits {T} (d : data_t T) (v : Z) : list ascii :=
  if base_eqb (base d) BASE_DECIMAL
  then dec_digits (Z.to_nat (digit_count d)) v
  else pow2_digits d (Z.to_nat (digit_count d)) v.

(** The pad that follows a left-justified number. *)
Definition number_trail {T} (d : data_t T) : list ascii :=
  if has d FLAGS_LEFT
  then repeat " "%char (Z.to_nat (width (layout_width d))) else [].

(** The value of a digit character, and reading a numeral back in the
    radix [radix]. *)
Definition digit_value (c : ascii) : option Z :=
  if is_digit c then Some (code c - code "0")
  else if (code "a" <=? code c) && (code c <=? code "f")
  then Some (code c - code "a" + 10)
  else if (code "A" <=? code c) && (code c <=? code "F")
  then Some (code c - code "A" + 10)
  else None.

Fixpoint parse_radix (radix acc : Z) (s : list ascii) : option Z :=
  match s with
  | [] => Some acc
  | c :: s' =>
      match digit_value c with
      | Some x =>
          if x <? radix then parse_radix radix (acc * radix + x) s' else None
      | None => None
      end
  end.


(** The radix of a base that is a power of two. *)
Definition radix_of (b : base_t) : Z := 2 ^ base_bits b.

(** What [printf_] on the terminal prints for one argument, counted in
    full and read back in the radix [radix]. *)
Definition prints_in_radix (format : string) (arg : va_value) (radix v : Z)
    : Prop :=
  exists s,
    printf_ tty_putchar [] (cstr format) [arg]
    = Ok (s, Z.of_nat (List.length s))
    /\ s <> [] /\ parse_radix radix 0 s = Some v.

(** No read outside a constant table and no store through a null
    pointer. *)
Definition in_bounds {A} (r : result A) : Prop :=
  match r with
  | Fault BadIndex | Fault NullStore => False
  | _ => True
  end.

(** The bit of a flag character, 0 for a character that is no flag; and
    the flags after the flag characters [fs]. *)
Definition flag_bit (c : ascii) : Z :=
  if Ascii.eqb c "0" then FLAGS_ZEROPAD
  else if Ascii.eqb c "-" then FLAGS_LEFT
  else if Ascii.eqb c "+" then FLAGS_PLUS
  else if Ascii.eqb c " " then FLAGS_SPACE
  else if Ascii.eqb c "#" then FLAGS_HASH
  else 0.

Definition is_flag (c : ascii) : bool := negb (flag_bit c =? 0).

Definition flag_bits (fs : list ascii) (f : Z) : Z :=
  fold_left (fun f c => set_bits f (flag_bit c)) fs f.

(** A character of a format that cannot ask for a left-justified field. *)
Definition plain_char (c : ascii) : bool :=
  negb (Ascii.eqb c "-") && negb (Ascii.eqb c "*").

(** The count is the number of the characters logged, in eight bits. *)
Definition tallied (d : data_t (list ascii)) : Prop :=
  idx d = u8 (Z.of_nat (List.length (ptr d))).

(** The state of a directive that counts what it prints: the count is right
    and the field is not left-justified. *)
Definition ready (d : data_t (list ascii)) : Prop :=
  tallied d /\ has d FLAGS_LEFT = false.

(** A property of the value of a result. *)
Definition holds {A} (Q : A -> Prop) (r : result A) : Prop :=
  match r with
  | Ok a => Q a
  | Fault _ => True
  end.

(** The state with its count [k] further on. *)
Definition shift {T} (k : Z) (d : data_t T) : data_t T :=
  set_idx (u8 (idx d + k)) d.

(** A character that [format_out] copies to the sink. *)
Definition literal_char (c : ascii) : bool :=
  negb (Ascii.eqb c NUL) && negb (Ascii.eqb c "%").

(** What a directive may find in [data] from the directive before it: the
    base and the digit count, and the width and the precision. *)
Definition rebase {T} (b : base_t) (n : Z) (d : data_t T) : data_t T :=
  set_digit_count n (set_base b d).

Definition stale {T} (w pr : Z) (b : base_t) (n : Z) (d : data_t T)
    : data_t T :=
  rebase b n (set_precision pr (set_width w d)).

(** What the caller of a directive goes on with: the sink, the count, the
    format and the arguments. *)
Definition outcome {T} (x : data_t T * list ascii * va_list)
    : T * Z * list ascii * va_list :=
  (ptr (fst (fst x)), idx (fst (fst x)), snd (fst x), snd x).

(** * Properties of the embedding *)

(** ** The formatter treats the sink as a black box

    [feed out cs p] is the state of the sink after the characters [cs] have
    been sent to it one by one.  Two sinks related by a map [h] that commutes
    with [out] stay related through every function of the formatter. *)

Lemma feed_app {T} (out : ascii -> T -> T) cs1 cs2 p :
  feed out (cs1 ++ cs2) p = feed out cs2 (feed out cs1 p).
Proof. unfold feed. apply fold_left_app. Qed.

Lemma feed_log cs log : feed out_log cs log = log ++ cs.
Proof.
  unfold feed. revert log. induction cs as [|c cs IH]; intros log; cbn.
  - now rewrite app_nil_r.
  - rewrite IH. unfold out_log. now rewrite <- app_assoc.
Qed.

Section Simulation.

Context {T U : Type}.
Variable outT : ascii -> T -> T.
Variable outU : ascii -> U -> U.
Variable h : T -> U.
Hypothesis h_out : forall c t, h (outT c t) = outU c (h t).

Local Abbreviation L := (lift h).
Local Abbreviation L2 :=
  (fun x : data_t T * va_list => (lift h (fst x), snd x)).
Local Abbreviation L2f :=
  (fun x : data_t T * list ascii => (lift h (fst x), snd x)).
Local Abbreviation L3 :=
  (fun x : data_t T * list ascii * va_list =>
     (lift h (fst (fst x)), snd (fst x), snd x)).

Lemma lift_emit c d : emit outU c (L d) = L (emit outT c d).
Proof. unfold emit, lift, set_ptr; cbn. now rewrite h_out. Qed.

Lemma lift_do_out d c : do_out outU (L d) c = L (do_out outT d c).
Proof. unfold do_out. now rewrite lift_emit. Qed.

Lemma lift_while n (cond : data_t T -> bool) cond' body body' :
  (forall d, cond' (L d) = cond d) ->
  (forall d, body' (L d) = L (body d)) ->
  forall d, while n cond' body' (L d) = L (while n cond body d).
Proof.
  intros Hc Hb. induction n as [|n IH]; intros d; cbn; [reflexivity|].
  rewrite Hc. destruct (cond d); [|reflexivity]. now rewrite Hb, IH.
Qed.

Lemma lift_pad_width c d : pad_width outU c (L d) = L (pad_width outT c d).
Proof.
  unfold pad_width. apply lift_while; intros d'; [reflexivity|].
  now rewrite lift_do_out.
Qed.

Lemma lift_pad_precision d : pad_precision outU (L d) = L (pad_precision outT d).
Proof.
  unfold pad_precision. apply lift_while; intros d'; [reflexivity|].
  now rewrite lift_do_out.
Qed.

Lemma lift_pad_zeros d : pad_zeros outU (L d) = L (pad_zeros outT d).
Proof.
  unfold pad_zeros. apply lift_while; intros d'; [reflexivity|].
  now rewrite lift_do_out.
Qed.

Lemma lift_pad_trailing d : pad_trailing outU (L d) = L (pad_trailing outT d).
Proof.
  unfold pad_trailing. apply lift_while; intros d'; [reflexivity|].
  now rewrite lift_emit.
Qed.

(** The proofs below walk through a function one [let] at a time: the value
    bound on the side of [outU] is the lift of the value bound on the side
    of [outT]. *)
Ltac sim_flat :=
  unfold has, lift, set_ptr, set_width, set_flags, set_precision, set_base,
    set_digit_count, set_idx;
  cbn [ptr flags idx width precision base digit_count];
  repeat match goal with
         | |- context [if ?c then _ else _] => destruct c
         end;
  reflexivity.

Ltac sim_let tac :=
  lazymatch goal with
  | |- (let x := ?a in @?f x) = ?k (let y := ?b in @?g y) =>
      let H := fresh "H" in
      assert (H : a = lift h b) by (tac; sim_flat);
      change (f a = k (g b)); rewrite H; clear H;
      generalize b; intros ?; cbv beta
  end.

Ltac sim_last tac := tac; sim_flat.

Lemma lift_ntoa_format d : ntoa_format outU (L d) = L (ntoa_format outT d).
Proof.
  cbv beta delta [ntoa_format].
  do 5 sim_let idtac.
  sim_let ltac:(rewrite ?lift_pad_width).
  sim_let ltac:(rewrite ?lift_do_out).
  sim_let ltac:(cbv zeta; rewrite ?lift_do_out).
  sim_last ltac:(rewrite ?lift_pad_precision, ?lift_pad_zeros).
Qed.

Lemma lift_ntoa_decimal table n : forall d value,
  ntoa_decimal outU table n (L d) value
  = rmap L (ntoa_decimal outT table n d value).
Proof.
  induction n as [|n IH]; intros d value; cbn [ntoa_decimal]; [reflexivity|].
  change (digit_count (L d)) with (digit_count d).
  destruct (0 <? digit_count d); [|reflexivity].
  cbv zeta.
  change (digit_count (set_digit_count (digit_count d - 1) (L d)))
    with (digit_count (set_digit_count (digit_count d - 1) d)).
  destruct (table_at table _) as [l|e]; cbn [bind]; [|reflexivity].
  change (set_digit_count (digit_count d - 1) (L d))
    with (L (set_digit_count (digit_count d - 1) d)).
  now rewrite lift_do_out, IH.
Qed.

Lemma lift_ntoa_pow2 d value :
  ntoa_pow2 outU (L d) value = L (ntoa_pow2 outT d value).
Proof.
  unfold ntoa_pow2. apply lift_while; intros d'; [reflexivity|].
  cbv zeta.
  change (set_digit_count ?n (do_out outU (L d') ?c))
    with (set_digit_count n (do_out outU (L d') c)).
  rewrite lift_do_out. reflexivity.
Qed.

Lemma lift_ntoa table d value :
  ntoa outU table (L d) value = rmap L (ntoa outT table d value).
Proof.
  unfold ntoa.
  change (has (L d) FLAGS_PRECISION) with (has d FLAGS_PRECISION).
  change (base (L d)) with (base d).
  change (digit_count (L d)) with (digit_count d).
  rewrite lift_do_out, lift_ntoa_decimal, lift_ntoa_pow2.
  destruct (negb (has d FLAGS_PRECISION) || negb (value =? 0)).
  - destruct (value =? 0).
    + cbn [bind rmap]. rewrite lift_pad_trailing. sim_flat.
    + destruct (base_eqb (base d) BASE_DECIMAL).
      * destruct (ntoa_decimal outT table _ d value) as [d'|e];
          cbn [bind rmap]; [|reflexivity].
        rewrite lift_pad_trailing. sim_flat.
      * cbn [bind rmap]. rewrite lift_pad_trailing. sim_flat.
  - cbn [bind rmap]. rewrite lift_pad_trailing. sim_flat.
Qed.

Lemma lift_pre_format_long d value negative :
  pre_format_long (L d) value negative = L (pre_format_long d value negative).
Proof. unfold pre_format_long. sim_flat. Qed.

Lemma lift_pre_format_long_long d value negative :
  pre_format_long_long (L d) value negative
  = L (pre_format_long_long d value negative).
Proof. unfold pre_format_long_long. sim_flat. Qed.

Lemma lift_pad_from n : forall l d,
  pad_from outU n l (L d)
  = (fst (pad_from outT n l d), L (snd (pad_from outT n l d))).
Proof.
  induction n as [|n IH]; intros l d; cbn [pad_from]; [reflexivity|].
  change (width (L d)) with (width d).
  destruct (l <? width d); [|reflexivity].
  now rewrite lift_do_out, IH.
Qed.

Lemma lift_pad_field l d :
  pad_field outU l (L d)
  = (fst (pad_field outT l d), L (snd (pad_field outT l d))).
Proof. unfold pad_field. apply lift_pad_from. Qed.

Lemma lift_string_output p : forall d,
  string_output outU p (L d) = rmap L (string_output outT p d).
Proof.
  induction p as [|c p IH]; intros d; cbn [string_output]; [reflexivity|].
  destruct (Ascii.eqb c NUL); [reflexivity|].
  change (has (L d) FLAGS_PRECISION) with (has d FLAGS_PRECISION).
  destruct (negb (has d FLAGS_PRECISION)).
  - now rewrite lift_do_out, IH.
  - cbv zeta. change (precision (L d)) with (precision d).
    destruct (negb (precision d =? 0)); [|reflexivity].
    change (set_precision ?n (L d)) with (L (set_precision n d)).
    now rewrite lift_do_out, IH.
Qed.

Lemma lift_print_string d p :
  print_string outU (L d) p = rmap L (print_string outT d p).
Proof.
  unfold print_string.
  change (precision (L d)) with (precision d).
  change (has (L d) FLAGS_PRECISION) with (has d FLAGS_PRECISION).
  change (has (L d) FLAGS_LEFT) with (has d FLAGS_LEFT).
  destruct (strnlen_s p _ 0) as [l|e]; cbn [bind rmap]; [|reflexivity].
  cbv zeta.
  set (l' := if has d FLAGS_PRECISION then _ else l). clearbody l'.
  rewrite lift_pad_field.
  destruct (negb (has d FLAGS_LEFT)).
  - destruct (pad_field outT l' d) as [l2 d2]; cbn [fst snd].
    rewrite lift_string_output.
    destruct (string_output outT p d2) as [d3|e]; cbn [bind rmap];
      [|reflexivity].
    rewrite lift_pad_field. sim_flat.
  - rewrite lift_string_output.
    destruct (string_output outT p d) as [d3|e]; cbn [bind rmap];
      [|reflexivity].
    rewrite lift_pad_field. sim_flat.
Qed.

Lemma lift_eval_flags format : forall d,
  eval_flags (L d) format = rmap L2f (eval_flags d format).
Proof.
  induction format as [|c format IH]; intros d; cbn [eval_flags];
    [reflexivity|].
  repeat match goal with
         | |- context [if Ascii.eqb c ?x then _ else _] =>
             destruct (Ascii.eqb c x);
             [change (set_flags ?f (L d)) with (L (set_flags f d)); apply IH|]
         end.
  reflexivity.
Qed.

Lemma lift_eval_width d format va :
  eval_width (L d) format va = rmap L3 (eval_width d format va).
Proof.
  unfold eval_width. cbv zeta.
  destruct (deref format) as [c|e]; cbn [bind rmap]; [|reflexivity].
  destruct (is_digit c).
  - destruct (atoi format) as [[n format']|e]; reflexivity.
  - destruct (Ascii.eqb c "*"); [|reflexivity].
    destruct (va_arg_int va) as [[w va']|e]; cbn [bind rmap]; [|reflexivity].
    destruct (w <? 0); reflexivity.
Qed.

Lemma lift_eval_precision d format va :
  eval_precision (L d) format va = rmap L3 (eval_precision d format va).
Proof.
  unfold eval_precision. cbv zeta.
  destruct (deref format) as [c|e]; cbn [bind rmap]; [|reflexivity].
  destruct (Ascii.eqb c "."); [|reflexivity].
  destruct (deref (next format)) as [c'|e]; cbn [bind rmap]; [|reflexivity].
  destruct (is_digit c').
  - destruct (atoi (next format)) as [[n format']|e]; reflexivity.
  - destruct (Ascii.eqb c' "*"); [|reflexivity].
    destruct (va_arg_int va) as [[w va']|e]; reflexivity.
Qed.

Lemma lift_eval_length d format :
  eval_length (L d) format = rmap L2f (eval_length d format).
Proof.
  unfold eval_length. cbv zeta.
  destruct (deref format) as [c|e]; cbn [bind rmap]; [|reflexivity].
  destruct (Ascii.eqb c "l").
  { destruct (deref (next format)) as [c'|e]; cbn [bind rmap]; [|reflexivity].
    destruct (Ascii.eqb c' "l"); reflexivity. }
  destruct (Ascii.eqb c "h").
  { destruct (deref (next format)) as [c'|e]; cbn [bind rmap]; [|reflexivity].
    destruct (Ascii.eqb c' "h"); reflexivity. }
  destruct (Ascii.eqb c "t"); [reflexivity|].
  destruct (Ascii.eqb c "j"); [reflexivity|].
  destruct (Ascii.eqb c "z"); reflexivity.
Qed.

Ltac sim_conv :=
  cbv zeta;
  rewrite ?lift_pre_format_long_long, ?lift_pre_format_long,
    ?lift_ntoa_format;
  unfold ntoa_long_long, ntoa_long; rewrite lift_ntoa;
  match goal with
  | |- context [ntoa ?o ?t ?d ?v] => destruct (ntoa o t d v)
  end; reflexivity.

Ltac sim_arg :=
  match goal with
  | |- context [bind ?m _] =>
      destruct m as [[? ?]|?]; cbn [bind rmap]; [|reflexivity]
  end.

Lemma lift_convert_integer d c va :
  convert_integer outU (L d) c va = rmap L2 (convert_integer outT d c va).
Proof.
  cbv beta delta [convert_integer].
  do 4 sim_let idtac.
  change (has (L ?x) ?m) with (has x m).
  destruct (Ascii.eqb c "i" || Ascii.eqb c "d").
  - destruct (has _ FLAGS_LONG_LONG); [sim_arg; sim_conv|].
    destruct (has _ FLAGS_LONG); [sim_arg; sim_conv|].
    sim_arg; sim_conv.
  - destruct (has _ FLAGS_LONG_LONG); [sim_arg; sim_conv|].
    destruct (has _ FLAGS_LONG); [sim_arg; sim_conv|].
    sim_arg; sim_conv.
Qed.

Lemma lift_convert_char d va :
  convert_char outU (L d) va = rmap L2 (convert_char outT d va).
Proof.
  unfold convert_char. cbv zeta.
  change (has (L ?x) ?m) with (has x m).
  rewrite lift_pad_field.
  destruct (negb (has d FLAGS_LEFT)).
  - destruct (pad_field outT 1 d) as [l d1]; cbn [fst snd].
    sim_arg. rewrite lift_do_out, lift_pad_field. sim_flat.
  - sim_arg. rewrite lift_do_out, lift_pad_field. sim_flat.
Qed.

Lemma lift_convert_pointer d va :
  convert_pointer outU (L d) va = rmap L2 (convert_pointer outT d va).
Proof.
  cbv beta delta [convert_pointer].
  do 3 sim_let idtac. cbv zeta.
  sim_arg.
  destruct (SIZEOF_VOID_P =? SIZEOF_LONG_LONG); sim_conv.
Qed.

Lemma lift_eval_specifier d format va :
  eval_specifier outU (L d) format va
  = rmap L3 (eval_specifier outT d format va).
Proof.
  unfold eval_specifier.
  destruct (deref format) as [c|e]; cbn [bind rmap]; [|reflexivity].
  rewrite lift_convert_integer, lift_convert_char, lift_convert_pointer,
    !lift_do_out.
  destruct (is_integer_conversion c).
  { destruct (convert_integer outT d c va) as [[d' va']|e]; reflexivity. }
  destruct (Ascii.eqb c "c").
  { destruct (convert_char outT d va) as [[d' va']|e]; reflexivity. }
  destruct (Ascii.eqb c "s").
  { destruct (va_arg_char_p va) as [[p va']|e]; cbn [bind rmap];
      [|reflexivity].
    rewrite lift_print_string.
    destruct (print_string outT d p) as [d'|e]; reflexivity. }
  destruct (Ascii.eqb c "p").
  { destruct (convert_pointer outT d va) as [[d' va']|e]; reflexivity. }
  destruct (Ascii.eqb c "%"); reflexivity.
Qed.

Lemma lift_directive d format va :
  directive outU (L d) format va = rmap L3 (directive outT d format va).
Proof.
  unfold directive. cbv zeta.
  change (set_flags 0 (L d)) with (L (set_flags 0 d)).
  rewrite lift_eval_flags.
  destruct (eval_flags (set_flags 0 d) format) as [[d1 f1]|e];
    cbn [bind rmap fst snd]; [|reflexivity].
  rewrite lift_eval_width.
  destruct (eval_width d1 f1 va) as [[[d2 f2] va2]|e];
    cbn [bind rmap fst snd]; [|reflexivity].
  rewrite lift_eval_precision.
  destruct (eval_precision d2 f2 va2) as [[[d3 f3] va3]|e];
    cbn [bind rmap fst snd]; [|reflexivity].
  rewrite lift_eval_length.
  destruct (eval_length d3 f3) as [[d4 f4]|e];
    cbn [bind rmap fst snd]; [|reflexivity].
  apply lift_eval_specifier.
Qed.

Lemma lift_format_loop fuel : forall d format va,
  format_loop outU fuel (L d) format va
  = rmap L (format_loop outT fuel d format va).
Proof.
  induction fuel as [|fuel IH]; intros d format va; cbn [format_loop];
    [reflexivity|].
  destruct (deref format) as [c|e]; cbn [bind rmap]; [|reflexivity].
  destruct (Ascii.eqb c NUL); [reflexivity|].
  destruct (negb (Ascii.eqb c "%")).
  - now rewrite lift_do_out, IH.
  - rewrite lift_directive.
    destruct (directive outT d (next format) va) as [[[d' f'] va']|e];
      cbn [bind rmap fst snd]; [|reflexivity].
    apply IH.
Qed.

Lemma lift_format_out p format va :
  format_out outU (h p) format va
  = rmap (fun r => (h (fst r), snd r)) (format_out outT p format va).
Proof.
  unfold format_out.
  change (initial_data (h p)) with (L (initial_data p)).
  rewrite lift_format_loop.
  destruct (format_loop outT _ (initial_data p) format va) as [d|e];
    reflexivity.
Qed.

End Simulation.

(** Whatever the sink, [format_out] sends it the characters that the logging
    sink records, and returns the same count. *)
Lemma format_out_feed {T} (out : ascii -> T -> T) p format va :
  format_out out p format va
  = rmap (fun r => (feed out (fst r) p, snd r))
      (format_out out_log [] format va).
Proof.
  assert (H : forall c t, feed out (out_log c t) p = out c (feed out t p)).
  { intros c t. unfold out_log. now rewrite feed_app. }
  exact (lift_format_out out_log out (fun cs => feed out cs p) H [] format va).
Qed.

(** ** Counting loops in closed form *)

Section Emission.

Context {T : Type}.
Variable out : ascii -> T -> T.

Local Abbreviation data := (data_t T).

Lemma emitted_app cs1 cs2 d :
  emitted out (cs1 ++ cs2) d = emitted out cs2 (emitted out cs1 d).
Proof. apply fold_left_app. Qed.

Lemma emitted_fields cs : forall d,
  ptr (emitted out cs d) = feed out cs (ptr d)
  /\ flags (emitted out cs d) = flags d
  /\ width (emitted out cs d) = width d
  /\ precision (emitted out cs d) = precision d
  /\ base (emitted out cs d) = base d
  /\ digit_count (emitted out cs d) = digit_count d.
Proof.
  induction cs as [|c cs IH]; intros d; [now cbn|].
  change (emitted out (c :: cs) d) with (emitted out cs (do_out out d c)).
  destruct (IH (do_out out d c)) as (H1 & H2 & H3 & H4 & H5 & H6).
  now rewrite H1, H2, H3, H4, H5, H6.
Qed.

Lemma ptr_emitted cs d : ptr (emitted out cs d) = feed out cs (ptr d).
Proof. apply emitted_fields. Qed.
Lemma flags_emitted cs d : flags (emitted out cs d) = flags d.
Proof. apply emitted_fields. Qed.
Lemma width_emitted cs d : width (emitted out cs d) = width d.
Proof. apply emitted_fields. Qed.
Lemma precision_emitted cs d : precision (emitted out cs d) = precision d.
Proof. apply emitted_fields. Qed.
Lemma base_emitted cs d : base (emitted out cs d) = base d.
Proof. apply emitted_fields. Qed.
Lemma digit_count_emitted cs d : digit_count (emitted out cs d) = digit_count d.
Proof. apply emitted_fields. Qed.

Lemma idx_emitted cs : forall d,
  idx (emitted out cs d) = bump (List.length cs) (idx d).
Proof.
  induction cs as [|c cs IH]; intros d; [reflexivity|].
  change (emitted out (c :: cs) d) with (emitted out cs (do_out out d c)).
  rewrite IH. cbn [List.length]. unfold bump.
  rewrite Nat.iter_succ_r. reflexivity.
Qed.

Lemma has_emitted cs d m : has (emitted out cs d) m = has d m.
Proof. unfold has. now rewrite flags_emitted. Qed.

Lemma emitted_set_width cs : forall w d,
  emitted out cs (set_width w d) = set_width w (emitted out cs d).
Proof.
  induction cs as [|c cs IH]; intros w d; [reflexivity|].
  change (emitted out (c :: cs) ?x) with (emitted out cs (do_out out x c)).
  change (do_out out (set_width w d) c) with (set_width w (do_out out d c)).
  apply IH.
Qed.

Lemma emitted_set_precision cs : forall w d,
  emitted out cs (set_precision w d) = set_precision w (emitted out cs d).
Proof.
  induction cs as [|c cs IH]; intros w d; [reflexivity|].
  change (emitted out (c :: cs) ?x) with (emitted out cs (do_out out x c)).
  change (do_out out (set_precision w d) c)
    with (set_precision w (do_out out d c)).
  apply IH.
Qed.

Lemma emitted_set_digit_count cs : forall w d,
  emitted out cs (set_digit_count w d) = set_digit_count w (emitted out cs d).
Proof.
  induction cs as [|c cs IH]; intros w d; [reflexivity|].
  change (emitted out (c :: cs) ?x) with (emitted out cs (do_out out x c)).
  change (do_out out (set_digit_count w d) c)
    with (set_digit_count w (do_out out d c)).
  apply IH.
Qed.

(** A record is determined by its fields. *)
Lemma data_eq (d d' : data) :
  ptr d = ptr d' -> flags d = flags d' -> idx d = idx d' ->
  width d = width d' -> precision d = precision d' -> base d = base d' ->
  digit_count d = digit_count d' -> d = d'.
Proof. destruct d, d'; cbn; intros; subst; reflexivity. Qed.

(** [while (data->width > 0) { do_out(c); width--; }] *)
Lemma while_width c n : forall d,
  width d = Z.of_nat n ->
  while n (fun d => 0 <? width d)
    (fun d => set_width (width d - 1) (do_out out d c)) d
  = set_width 0 (emitted out (repeat c n) d).
Proof.
  induction n as [|n IH]; intros d Hw.
  - cbn. apply data_eq; cbn; auto.
  - cbn [while]. replace (0 <? width d) with true by (symmetry; apply Z.ltb_lt; lia).
    rewrite IH by (cbn; lia).
    cbn [repeat].
    change (emitted out (c :: repeat c n) d) with (emitted out (repeat c n) (do_out out d c)).
    rewrite emitted_set_width. reflexivity.
Qed.

Lemma pad_width_closed c d :
  0 <= width d ->
  pad_width out c d = set_width 0 (emitted out (repeat c (Z.to_nat (width d))) d).
Proof. intros H. unfold pad_width. apply while_width. lia. Qed.

Lemma while_precision n : forall d,
  precision d = Z.of_nat n ->
  while n (fun d => 0 <? precision d)
    (fun d => set_precision (precision d - 1) (do_out out d "0")) d
  = set_precision 0 (emitted out (repeat "0"%char n) d).
Proof.
  induction n as [|n IH]; intros d Hw.
  - cbn. apply data_eq; cbn; auto.
  - cbn [while]. replace (0 <? precision d) with true by (symmetry; apply Z.ltb_lt; lia).
    rewrite IH by (cbn; lia).
    cbn [repeat].
    change (emitted out ("0"%char :: repeat "0"%char n) d)
      with (emitted out (repeat "0"%char n) (do_out out d "0")).
    rewrite emitted_set_precision. reflexivity.
Qed.

Lemma pad_precision_closed d :
  0 <= precision d ->
  pad_precision out d
  = set_precision 0 (emitted out (repeat "0"%char (Z.to_nat (precision d))) d).
Proof. intros H. unfold pad_precision. apply while_precision. lia. Qed.

Lemma while_zeros n : forall d,
  width d = Z.of_nat n -> has d FLAGS_ZEROPAD = true ->
  while n (fun d => has d FLAGS_ZEROPAD && (0 <? width d))
    (fun d => set_width (width d - 1) (do_out out d "0")) d
  = set_width 0 (emitted out (repeat "0"%char n) d).
Proof.
  induction n as [|n IH]; intros d Hw Hz.
  - cbn. apply data_eq; cbn; auto.
  - cbn [while]. rewrite Hz.
    replace (0 <? width d) with true by (symmetry; apply Z.ltb_lt; lia).
    cbn [andb]. rewrite IH by (cbn; auto; lia).
    cbn [repeat].
    change (emitted out ("0"%char :: repeat "0"%char n) d)
      with (emitted out (repeat "0"%char n) (do_out out d "0")).
    rewrite emitted_set_width. reflexivity.
Qed.

Lemma pad_zeros_closed d :
  0 <= width d ->
  pad_zeros out d
  = if has d FLAGS_ZEROPAD
    then set_width 0 (emitted out (repeat "0"%char (Z.to_nat (width d))) d)
    else d.
Proof.
  intros H. unfold pad_zeros. destruct (has d FLAGS_ZEROPAD) eqn:Hz.
  - apply while_zeros; [lia|assumption].
  - destruct (Z.to_nat (width d)); cbn [while]; [reflexivity|].
    now rewrite Hz.
Qed.

(** The loop that ends [ntoa]: the characters reach the sink, [idx] stays. *)
Lemma while_trailing n : forall d,
  width d = Z.of_nat n ->
  while n (fun d => 0 <? width d)
    (fun d => set_width (width d - 1) (emit out " " d)) d
  = set_width 0 (set_ptr (feed out (repeat " "%char n) (ptr d)) d).
Proof.
  induction n as [|n IH]; intros d Hw.
  - cbn. apply data_eq; cbn; auto.
  - cbn [while]. replace (0 <? width d) with true by (symmetry; apply Z.ltb_lt; lia).
    rewrite IH by (cbn; lia). reflexivity.
Qed.

Lemma pad_trailing_closed d :
  0 <= width d ->
  pad_trailing out d
  = set_width 0
      (set_ptr (feed out (repeat " "%char (Z.to_nat (width d))) (ptr d)) d).
Proof. intros H. unfold pad_trailing. apply while_trailing. lia. Qed.

(** *** The layout engine in closed form

    [ntoa_format] first reduces the width and the precision, then sends out
    four groups of characters. *)

(** Names the value bound by the first [let] of the left-hand side. *)
Ltac name_let x' :=
  lazymatch goal with
  | |- (let x := ?a in @?f x) = ?rhs =>
      set (x' := a); change (f x' = rhs); cbv beta
  end.

Lemma ntoa_format_steps d :
  ntoa_format out d
  = layout_zeros out
      (layout_hash out (layout_sign out (layout_pad out (layout_width d)))).
Proof.
  cbv beta delta [ntoa_format].
  name_let d0. name_let d1. name_let d2. name_let d3. name_let d4.
  assert (E4 : d4 = layout_width d) by reflexivity.
  clearbody d4. clear d0 d1 d2 d3. subst d4.
  generalize (layout_width d). intros r.
  name_let d5. change d5 with (layout_pad out r). clear d5.
  generalize (layout_pad out r). clear r. intros r.
  name_let d6. change d6 with (layout_sign out r). clear d6.
  generalize (layout_sign out r). clear r. intros r.
  name_let d7. change d7 with (layout_hash out r). clear d7.
  reflexivity.
Qed.

Lemma layout_width_fields (d : data) :
  ptr (layout_width d) = ptr d /\ flags (layout_width d) = flags d
  /\ idx (layout_width d) = idx d /\ base (layout_width d) = base d
  /\ digit_count (layout_width d) = digit_count d
  /\ 0 <= width (layout_width d) /\ 0 <= precision (layout_width d).
Proof.
  unfold layout_width, has.
  repeat (cbn [ptr flags idx width precision base digit_count set_width
               set_precision];
          match goal with
          | |- context [if ?c then _ else _] =>
              lazymatch c with
              | context [if _ then _ else _] => fail
              | _ => destruct c eqn:?
              end
          end);
  cbn [ptr flags idx width precision base digit_count set_width
       set_precision];
  repeat match goal with
         | H : (_ && _) = true |- _ =>
             apply andb_true_iff in H; destruct H
         | H : (_ <? _) = true |- _ => apply Z.ltb_lt in H
         end;
  repeat split; lia.
Qed.

Lemma layout_sign_closed d : layout_sign out d = emitted out (sign_chars d) d.
Proof.
  unfold layout_sign, sign_chars.
  repeat match goal with
         | |- context [if ?c then _ else _] => destruct c
         end; reflexivity.
Qed.

Lemma layout_hash_closed d :
  layout_hash out d = emitted out (prefix_chars d) d.
Proof.
  unfold layout_hash, prefix_chars. cbv zeta.
  change (base (do_out out d "0")) with (base d).
  change (has (do_out out d "0") FLAGS_UPPERCASE) with (has d FLAGS_UPPERCASE).
  destruct (has d FLAGS_HASH); [|reflexivity].
  destruct (base_eqb (base d) BASE_HEX);
    destruct (has d FLAGS_UPPERCASE); cbn [andb negb]; try reflexivity;
    destruct (base_eqb (base d) BASE_BINARY); reflexivity.
Qed.

Lemma has_flags (a b : data) m : flags a = flags b -> has a m = has b m.
Proof. unfold has. now intros ->. Qed.

Lemma sign_chars_cong (a b : data) :
  flags a = flags b -> sign_chars a = sign_chars b.
Proof.
  intros H. unfold sign_chars. now rewrite !(has_flags a b) by assumption.
Qed.

Lemma prefix_chars_cong (a b : data) :
  flags a = flags b -> base a = base b -> prefix_chars a = prefix_chars b.
Proof.
  intros H Hb. unfold prefix_chars.
  now rewrite !(has_flags a b), Hb by assumption.
Qed.

Lemma layout_pad_closed r :
  0 <= width r ->
  layout_pad out r
  = (if negb (has r FLAGS_LEFT) && negb (has r FLAGS_ZEROPAD)
     then set_width 0 (emitted out (pad_chars r) r) else r).
Proof.
  intros Hw. unfold layout_pad, pad_chars.
  destruct (negb (has r FLAGS_LEFT) && negb (has r FLAGS_ZEROPAD));
    [now apply pad_width_closed|reflexivity].
Qed.

Lemma layout_zeros_closed r :
  0 <= width r -> 0 <= precision r ->
  layout_zeros out r
  = (if negb (has r FLAGS_LEFT) then
       if has r FLAGS_ZEROPAD
       then set_width 0 (set_precision 0 (emitted out (zero_chars r) r))
       else set_precision 0 (emitted out (zero_chars r) r)
     else r).
Proof.
  intros Hw Hp. unfold layout_zeros, zero_chars.
  destruct (has r FLAGS_LEFT); cbn [negb]; [reflexivity|].
  rewrite pad_precision_closed by assumption.
  rewrite pad_zeros_closed
    by (cbn [width set_precision]; now rewrite width_emitted).
  change (has (set_precision 0 ?x) ?m) with (has x m).
  rewrite has_emitted.
  change (width (set_precision 0 ?x)) with (width x).
  rewrite width_emitted.
  destruct (has r FLAGS_ZEROPAD).
  - rewrite emitted_app, emitted_set_precision. reflexivity.
  - now rewrite app_nil_r.
Qed.

Lemma ntoa_format_closed d :
  ntoa_format out d
  = layout_final (emitted out (layout_chars d) (layout_width d)).
Proof.
  rewrite ntoa_format_steps. unfold layout_chars. cbv zeta.
  destruct (layout_width_fields d) as (_ & _ & _ & _ & _ & Hw & Hp).
  generalize dependent (layout_width d). intros r Hw Hp.
  rewrite layout_pad_closed by assumption.
  set (r1 := if negb (has r FLAGS_LEFT) && negb (has r FLAGS_ZEROPAD)
             then set_width 0 (emitted out (pad_chars r) r) else r).
  assert (F1 : flags r1 = flags r).
  { subst r1. destruct (_ && _); cbn [flags set_width];
      now rewrite ?flags_emitted. }
  assert (B1 : base r1 = base r).
  { subst r1. destruct (_ && _); cbn [base set_width];
      now rewrite ?base_emitted. }
  assert (P1 : precision r1 = precision r).
  { subst r1. destruct (_ && _); cbn [precision set_width];
      now rewrite ?precision_emitted. }
  rewrite layout_sign_closed, layout_hash_closed.
  rewrite (prefix_chars_cong (emitted out (sign_chars r1) r1) r)
    by (now rewrite ?flags_emitted, ?base_emitted).
  rewrite (sign_chars_cong r1 r) by assumption.
  rewrite <- emitted_app.
  set (mid := sign_chars r ++ prefix_chars r).
  assert (Z2 : zero_chars (emitted out mid r1)
               = if negb (has r FLAGS_LEFT) then
                   repeat "0"%char (Z.to_nat (precision r))
                   ++ (if has r FLAGS_ZEROPAD
                       then repeat "0"%char (Z.to_nat (width r1)) else [])
                 else []).
  { unfold zero_chars.
    rewrite !has_emitted, precision_emitted, width_emitted, P1.
    now rewrite !(has_flags r1 r) by assumption. }
  rewrite layout_zeros_closed
    by (rewrite ?width_emitted, ?precision_emitted, ?P1; try assumption;
        subst r1; destruct (_ && _); cbn [width set_width];
        rewrite ?width_emitted; lia).
  rewrite Z2, !has_emitted, !(has_flags r1 r) by assumption.
  subst r1 mid.
  unfold layout_final, zero_chars, pad_chars. rewrite has_emitted.
  destruct (has r FLAGS_LEFT), (has r FLAGS_ZEROPAD); cbn [negb andb].
  - now rewrite !app_nil_r.
  - now rewrite !app_nil_r.
  - cbn [app].
    now rewrite app_assoc, (emitted_app (sign_chars r ++ prefix_chars r)).
  - rewrite !app_nil_r, !emitted_set_width.
    rewrite (emitted_app (repeat " "%char _)), app_assoc.
    now rewrite (emitted_app (sign_chars r ++ prefix_chars r)).
Qed.

End Emission.

(** * The claims *)

(** ** C1: the count and the characters sent out *)

(** The count is the same for every sink: it is the count of the run that
    logs the characters. *)
Lemma count_sink_independent {T} (out : ascii -> T -> T) p format va :
  rmap snd (format_out out p format va)
  = rmap snd (format_out out_log [] format va).
Proof.
  rewrite format_out_feed.
  destruct (format_out out_log [] format va) as [[cs n]|e]; reflexivity.
Qed.

(** C1: the count returned is the same for every sink, so a bounded sink
    of capacity 0 returns what an unbounded one returns; but the count does
    not grow with every character sent out: the padding that follows a
    left-justified number is sent to the sink and not counted.  ["%-5d"]
    with 42 sends five characters and returns 2, while the left-justified
    string ["%-5s"] is counted in full. *)
Theorem C1_trailing_pad_not_counted :
  (forall T (out : ascii -> T -> T) p format va,
      rmap snd (format_out out p format va)
      = rmap snd (format_out out_log [] format va))
  /\ format_out out_log [] (cstr "%-5d") [VInt 42] = Ok (chars "42   ", 2)
  /\ printf_ tty_putchar [] (cstr "%-5d") [VInt 42] = Ok (chars "42   ", 2)
  /\ rmap snd (vsnprintf_ [] (Some 0) 0 (cstr "%-5d") [VInt 42]) = Ok 2
  /\ format_out out_log [] (cstr "%-5s") [VStr (cstr "42")]
     = Ok (chars "42   ", 5).
Proof.
  split; [intros; apply count_sink_independent|].
  repeat split; reflexivity.
Qed.

(** ** C9: the device sink drops the null character *)

Lemma feed_out_char {D} (_putchar : ascii -> D -> D) cs : forall dev,
  feed (out_char _putchar) cs dev = feed _putchar (filter non_null cs) dev.
Proof.
  induction cs as [|c cs IH]; intros dev; [reflexivity|].
  change (feed ?o (c :: cs) dev) with (feed o cs (o c dev)).
  rewrite IH. cbn [filter]. unfold out_char, non_null.
  destruct (negb (Ascii.eqb c NUL)); reflexivity.
Qed.

(** C9: [out_char] passes a character on to [_putchar] exactly when it is not
    the null character.  Of a sequence of characters the device receives the
    non-null ones, in order; so of the characters [printf_] produces, the null
    ones are counted and never reach the device. *)
Theorem C9_device_sink_drops_null :
  (forall D (_putchar : ascii -> D -> D) c dev,
      out_char _putchar c dev
      = if Ascii.eqb c NUL then dev else _putchar c dev)
  /\ (forall D (_putchar : ascii -> D -> D) cs dev,
         feed (out_char _putchar) cs dev
         = feed _putchar (filter non_null cs) dev)
  /\ (forall D (_putchar : ascii -> D -> D) dev format va,
         printf_ _putchar dev format va
         = rmap (fun r => (feed _putchar (filter non_null (fst r)) dev, snd r))
             (format_out out_log [] format va))
  /\ printf_ tty_putchar [] (cstr "a%cb") [VInt 0] = Ok (chars "ab", 3).
Proof.
  split; [|split; [|split]].
  - intros D _putchar c dev. unfold out_char.
    destruct (Ascii.eqb c NUL); reflexivity.
  - intros. apply feed_out_char.
  - intros D _putchar dev format va. unfold printf_.
    rewrite format_out_feed.
    destruct (format_out out_log [] format va) as [[cs n]|e];
      cbn [rmap fst snd]; [|reflexivity].
    now rewrite feed_out_char.
  - reflexivity.
Qed.

(** ** C5: the order of the characters of a numeric field *)

(** What the converter sends out after the layout comes after it in the
    sink. *)
Lemma ntoa_after {T} (out : ascii -> T -> T) table (d d' : data_t T) value :
  ntoa out table d value = Ok d' ->
  exists rest, ptr d' = feed out rest (ptr d).
Proof.
  intros H.
  pose (hh := fun cs => feed out cs (ptr d)).
  assert (Hh : forall c t, hh (out_log c t) = out c (hh t)).
  { intros c t. unfold hh, out_log. now rewrite feed_app. }
  assert (E : ntoa out table d value
              = ntoa out table (lift hh (set_ptr [] d)) value).
  { f_equal. destruct d; reflexivity. }
  rewrite E, (lift_ntoa out_log out hh Hh) in H.
  destruct (ntoa out_log table (set_ptr [] d) value) as [dl|e];
    cbn [rmap] in H; [|discriminate].
  injection H as <-. exists (ptr dl). reflexivity.
Qed.

Lemma layout_order {T} (out : ascii -> T -> T) (d : data_t T) :
  ptr (ntoa_format out d) = feed out (layout_chars d) (ptr d)
  /\ (forall table value d',
         ntoa out table (ntoa_format out d) value = Ok d' ->
         exists digits,
           ptr d' = feed out (layout_chars d ++ digits) (ptr d)).
Proof.
  assert (E : ptr (ntoa_format out d) = feed out (layout_chars d) (ptr d)).
  { rewrite ntoa_format_closed. unfold layout_final.
    destruct (negb (has _ FLAGS_LEFT)); cbn [ptr set_width set_precision];
      rewrite ptr_emitted; f_equal; apply layout_width_fields. }
  split; [exact E|].
  intros table value d' H.
  destruct (ntoa_after out table _ _ value H) as [rest Hr].
  exists rest. rewrite Hr, E. symmetry. apply feed_app.
Qed.

(** C5: [ntoa_format] sends to the sink, in this order, the pad spaces (when
    the field is neither left-justified nor zero-padded), the sign (minus,
    else plus, else space), the prefix of the alternate form, and, when the
    field is not left-justified, the zeros of the precision followed by the
    zeros of the zero padding; the digits that [ntoa_long] and
    [ntoa_long_long] send out come after these.  So ["%5d"], ["%-5d"] and
    ["%05d"] with 42 print ["   42"], ["42   "] and ["00042"], and ["%#x"]
    with 255 prints ["0xff"]. *)
Theorem C5_layout_order :
  (forall T (out : ascii -> T -> T) (d : data_t T),
      let r := layout_width d in
      ptr (ntoa_format out d)
      = feed out
          (pad_chars r ++ sign_chars r ++ prefix_chars r ++ zero_chars r)
          (ptr d)
      /\ (forall table value d',
             ntoa out table (ntoa_format out d) value = Ok d' ->
             exists digits,
               ptr d'
               = feed out
                   ((pad_chars r ++ sign_chars r ++ prefix_chars r
                     ++ zero_chars r) ++ digits)
                   (ptr d)))
  /\ rmap fst (printf_ tty_putchar [] (cstr "%5d") [VInt 42])
     = Ok (chars "   42")
  /\ rmap fst (printf_ tty_putchar [] (cstr "%-5d") [VInt 42])
     = Ok (chars "42   ")
  /\ rmap fst (printf_ tty_putchar [] (cstr "%05d") [VInt 42])
     = Ok (chars "00042")
  /\ rmap fst (printf_ tty_putchar [] (cstr "%#x") [VInt 255])
     = Ok (chars "0xff")
  /\ rmap fst (printf_ tty_putchar [] (cstr "%+08.3d|%#-6o|% d")
                 [VInt 42; VInt 8; VInt 7])
     = Ok (chars "    +042|010   | 7").
Proof.
  split; [|repeat split; reflexivity].
  intros T out d r. exact (layout_order out d).
Qed.

Lemma C5_layout_order_witness :
  ntoa out_log pow10_long
    (ntoa_format out_log (mk_data [] FLAGS_HASH 0 6 0 BASE_HEX 2)) 255
  = Ok (mk_data (chars "  0xff") FLAGS_HASH 6 0 0 BASE_HEX 0)
  /\ exists digits,
       chars "  0xff" = feed out_log ((chars "  " ++ chars "0x") ++ digits) [].
Proof.
  split; [reflexivity|].
  apply (proj2 (proj1 C5_layout_order _ out_log
                  (mk_data [] FLAGS_HASH 0 6 0 BASE_HEX 2))
           pow10_long 255
           (mk_data (chars "  0xff") FLAGS_HASH 6 0 0 BASE_HEX 0)).
  reflexivity.
Defined.

(** ** C3: the value zero *)

Lemma test_clear_bits f m : test (clear_bits f m) m = false.
Proof.
  unfold test, clear_bits.
  rewrite <- Z.land_assoc, (Z.land_comm (Z.lnot m)), Z.land_lnot_diag.
  now rewrite Z.land_0_r.
Qed.

Lemma test_set_other f m m' :
  Z.land m' m = 0 -> test (set_bits f m') m = test f m.
Proof.
  intros H. unfold test, set_bits.
  now rewrite Z.land_lor_distr_l, H, Z.lor_0_r.
Qed.

Lemma pre_format_long_zero {T} (d : data_t T) negative :
  has (pre_format_long d 0 negative) FLAGS_HASH = false.
Proof.
  unfold pre_format_long, has. cbn [Z.eqb flags set_flags set_digit_count].
  destruct negative; cbn [flags set_flags];
    rewrite ?test_set_other by reflexivity; apply test_clear_bits.
Qed.

Lemma pre_format_long_long_zero {T} (d : data_t T) negative :
  has (pre_format_long_long d 0 negative) FLAGS_HASH = false.
Proof.
  unfold pre_format_long_long, has.
  cbn [Z.eqb flags set_flags set_digit_count].
  destruct negative; cbn [flags set_flags];
    rewrite ?test_set_other by reflexivity; apply test_clear_bits.
Qed.

Lemma no_hash_no_prefix {T} (d : data_t T) :
  has d FLAGS_HASH = false -> prefix_chars (layout_width d) = [].
Proof.
  intros H. unfold prefix_chars.
  rewrite (has_flags (layout_width d) d) by apply layout_width_fields.
  now rewrite H.
Qed.

Lemma pad_trailing_fields {T} (out : ascii -> T -> T) (d : data_t T) :
  ptr (pad_trailing out d)
  = feed out (repeat " "%char (Z.to_nat (width d))) (ptr d)
  /\ idx (pad_trailing out d) = idx d.
Proof.
  destruct (Z.le_gt_cases 0 (width d)) as [H|H].
  - rewrite pad_trailing_closed by assumption. now cbn.
  - unfold pad_trailing. replace (Z.to_nat (width d)) with O by lia. now cbn.
Qed.

Lemma ntoa_zero_with_precision {T} (out : ascii -> T -> T) table
    (d : data_t T) :
  has d FLAGS_PRECISION = true ->
  exists d',
    ntoa out table d 0 = Ok d'
    /\ ptr d'
       = feed out
           (repeat " "%char
              (if has d FLAGS_LEFT then Z.to_nat (width d) else O))
           (ptr d)
    /\ idx d' = idx d.
Proof.
  intros H. unfold ntoa. rewrite H. cbn [negb Z.eqb orb bind].
  eexists. split; [reflexivity|].
  destruct (has d FLAGS_LEFT); [apply pad_trailing_fields|now cbn].
Qed.

Lemma test_clear_other f m m' :
  Z.land (Z.lnot m') m = m -> test (clear_bits f m') m = test f m.
Proof.
  intros H. unfold test, clear_bits. now rewrite <- Z.land_assoc, H.
Qed.

Lemma ntoa_format_fields {T} (out : ascii -> T -> T) (d : data_t T) :
  flags (ntoa_format out d) = flags d
  /\ (has d FLAGS_LEFT = true ->
      width (ntoa_format out d) = width (layout_width d)).
Proof.
  rewrite ntoa_format_closed. unfold layout_final.
  rewrite has_emitted, (has_flags (layout_width d) d)
    by apply layout_width_fields.
  destruct (has d FLAGS_LEFT); cbn [negb flags width set_width set_precision];
    rewrite ?flags_emitted, ?width_emitted;
    (split; [apply layout_width_fields|]); [reflexivity|discriminate].
Qed.

Lemma zero_field_long {T} (out : ascii -> T -> T) table (d1 : data_t T) :
  has d1 FLAGS_PRECISION = true -> has d1 FLAGS_HASH = false ->
  exists d',
    ntoa out table (ntoa_format out d1) 0 = Ok d'
    /\ ptr d' = feed out (zero_field d1) (ptr d1).
Proof.
  intros HP HH.
  destruct (ntoa_format_fields out d1) as [Hf Hw].
  destruct (ntoa_zero_with_precision out table (ntoa_format out d1))
    as (d' & E & Hptr & _).
  { now rewrite (has_flags _ d1). }
  exists d'. split; [exact E|].
  rewrite Hptr, (proj1 (layout_order out d1)), <- feed_app.
  f_equal. unfold zero_field, layout_chars. cbv zeta.
  rewrite (no_hash_no_prefix d1 HH). cbn [app].
  rewrite <- !app_assoc. do 3 f_equal.
  rewrite (has_flags (ntoa_format out d1) d1) by assumption.
  rewrite (has_flags (layout_width d1) d1) by apply layout_width_fields.
  destruct (has d1 FLAGS_LEFT); [now rewrite Hw|reflexivity].
Qed.

Lemma ntoa_zero_value {T} (out : ascii -> T -> T) table (d : data_t T) :
  exists d',
    ntoa out table d 0 = Ok d'
    /\ ptr d'
       = feed out
           ((if has d FLAGS_PRECISION then [] else ["0"%char])
            ++ repeat " "%char
                 (if has d FLAGS_LEFT then Z.to_nat (width d) else O))
           (ptr d).
Proof.
  unfold ntoa. destruct (has d FLAGS_PRECISION); cbn [negb Z.eqb orb bind].
  - eexists. split; [reflexivity|].
    destruct (has d FLAGS_LEFT); [apply pad_trailing_fields|now cbn].
  - eexists. split; [reflexivity|].
    change (has (do_out out d "0") FLAGS_LEFT) with (has d FLAGS_LEFT).
    destruct (has d FLAGS_LEFT); [|reflexivity].
    rewrite (proj1 (pad_trailing_fields out (do_out out d "0"))).
    rewrite feed_app. reflexivity.
Qed.

Lemma zero_value_field_long {T} (out : ascii -> T -> T) table
    (d1 : data_t T) :
  has d1 FLAGS_HASH = false ->
  exists d',
    ntoa out table (ntoa_format out d1) 0 = Ok d'
    /\ ptr d' = feed out (zero_value_field d1) (ptr d1).
Proof.
  intros HH.
  destruct (ntoa_format_fields out d1) as [Hf Hw].
  destruct (ntoa_zero_value out table (ntoa_format out d1)) as (d' & E & Hptr).
  exists d'. split; [exact E|].
  rewrite Hptr, (proj1 (layout_order out d1)), <- feed_app.
  f_equal. unfold zero_value_field, layout_chars. cbv zeta.
  rewrite (no_hash_no_prefix d1 HH). cbn [app].
  rewrite <- !app_assoc. do 3 f_equal.
  rewrite !(has_flags (ntoa_format out d1) d1) by assumption.
  rewrite !(has_flags (layout_width d1) d1) by apply layout_width_fields.
  destruct (has d1 FLAGS_LEFT); [now rewrite Hw|reflexivity].
Qed.

Lemma zero_value_field_precision {T} (d1 : data_t T) :
  has d1 FLAGS_PRECISION = true -> zero_value_field d1 = zero_field d1.
Proof.
  intros H. unfold zero_value_field, zero_field. cbv zeta.
  rewrite (has_flags (layout_width d1) d1 FLAGS_PRECISION)
    by apply layout_width_fields.
  now rewrite H.
Qed.

(** C3, as the code has it.  Whenever the value is zero, [pre_format_long]
    and [pre_format_long_long] clear the hash flag, so the layout sends no
    radix prefix: the field is the pad spaces, the sign, the zeros of the
    layout, the digit of the converter when there is no precision, and the
    trailing pad.  With the precision flag set the converter sends out no
    digit of its own; the zeros of the precision, which the layout sends
    when the field is not left-justified, remain.  ["%.0d"] with 0 prints
    the empty string. *)
Theorem C3_zero_value :
  forall T (out : ascii -> T -> T) (d : data_t T) negative,
    let d1 := pre_format_long d 0 negative in
    let d2 := pre_format_long_long d 0 negative in
    has d1 FLAGS_HASH = false
    /\ has d2 FLAGS_HASH = false
    /\ prefix_chars (layout_width d1) = []
    /\ prefix_chars (layout_width d2) = []
    /\ (exists d',
           ntoa_long out (ntoa_format out d1) 0 = Ok d'
           /\ ptr d' = feed out (zero_value_field d1) (ptr d))
    /\ (exists d',
           ntoa_long_long out (ntoa_format out d2) 0 = Ok d'
           /\ ptr d' = feed out (zero_value_field d2) (ptr d))
    /\ (has d FLAGS_PRECISION = true ->
        (exists d',
            ntoa_long out d 0 = Ok d'
            /\ ptr d'
               = feed out
                   (repeat " "%char
                      (if has d FLAGS_LEFT then Z.to_nat (width d) else O))
                   (ptr d)
            /\ idx d' = idx d)
        /\ (exists d',
               ntoa_long_long out d 0 = Ok d'
               /\ ptr d'
                  = feed out
                      (repeat " "%char
                         (if has d FLAGS_LEFT then Z.to_nat (width d) else O))
                      (ptr d)
               /\ idx d' = idx d)
        /\ (exists d',
               ntoa_long out (ntoa_format out d1) 0 = Ok d'
               /\ ptr d' = feed out (zero_field d1) (ptr d))
        /\ (exists d',
               ntoa_long_long out (ntoa_format out d2) 0 = Ok d'
               /\ ptr d' = feed out (zero_field d2) (ptr d)))
    /\ printf_ tty_putchar [] (cstr "%.0d") [VInt 0] = Ok ([], 0)
    /\ printf_ tty_putchar [] (cstr "%#.0x|%5.0u|%-3.0llo|%+.0i")
         [VInt 0; VInt 0; VLongLong 0; VInt 0]
       = Ok (chars "|     |   |+", 9)
    /\ printf_ tty_putchar [] (cstr "%#x|%#o|%#b|%#5X|%#llx")
         [VInt 0; VInt 0; VInt 0; VInt 0; VLongLong 0]
       = Ok (chars "0|0|0|     0|0", 14).
Proof.
  intros T out d negative d1 d2.
  pose proof (pre_format_long_zero d negative) as H1.
  pose proof (pre_format_long_long_zero d negative) as H2.
  fold d1 in H1. fold d2 in H2.
  assert (Q1 : ptr d1 = ptr d)
    by (subst d1; unfold pre_format_long; destruct negative; reflexivity).
  assert (Q2 : ptr d2 = ptr d)
    by (subst d2; unfold pre_format_long_long; destruct negative;
        reflexivity).
  split; [exact H1|]. split; [exact H2|].
  split; [now apply no_hash_no_prefix|].
  split; [now apply no_hash_no_prefix|].
  split; [rewrite <- Q1; now apply zero_value_field_long|].
  split; [rewrite <- Q2; now apply zero_value_field_long|].
  split; [|repeat split; reflexivity].
  intros HP.
  assert (P1 : has d1 FLAGS_PRECISION = true).
  { subst d1. unfold pre_format_long, has in *.
    cbn [Z.eqb flags set_flags set_digit_count].
    destruct negative; cbn [flags set_flags];
      rewrite ?test_set_other, test_clear_other by reflexivity; exact HP. }
  assert (P2 : has d2 FLAGS_PRECISION = true).
  { subst d2. unfold pre_format_long_long, has in *.
    cbn [Z.eqb flags set_flags set_digit_count].
    destruct negative; cbn [flags set_flags];
      rewrite ?test_set_other, test_clear_other by reflexivity; exact HP. }
  split; [now apply ntoa_zero_with_precision|].
  split; [now apply ntoa_zero_with_precision|].
  split; [rewrite <- Q1; now apply zero_field_long|].
  rewrite <- Q2; now apply zero_field_long.
Qed.

Lemma C3_zero_value_witness :
  has (mk_data (chars "ab") (Z.lor FLAGS_PRECISION FLAGS_HASH) 2 6 3
         BASE_HEX 0) FLAGS_PRECISION = true
  /\ exists d',
       ntoa_long out_log
         (ntoa_format out_log
            (pre_format_long
               (mk_data (chars "ab") (Z.lor FLAGS_PRECISION FLAGS_HASH) 2 6 3
                  BASE_HEX 0) 0 false)) 0
       = Ok d'
       /\ ptr d' = feed out_log (chars "   000") (chars "ab").
Proof.
  split; [reflexivity|].
  exact (proj1 (proj2 (proj2
           (proj1 (proj2 (proj2 (proj2 (proj2 (proj2 (proj2
              (C3_zero_value _ out_log
                 (mk_data (chars "ab") (Z.lor FLAGS_PRECISION FLAGS_HASH)
                    2 6 3 BASE_HEX 0)
                 false)))))))
              eq_refl)))).
Defined.

(** The claim as written fails at ["%.3d"] with 0: the precision flag is
    set, the value is zero, and three digit characters are printed. *)
Lemma C3_counterexample :
  rmap (fun s => has (fst (fst s)) FLAGS_PRECISION)
    (eval_precision (initial_data (@nil ascii)) (cstr ".3d") [VInt 0])
  = Ok true
  /\ printf_ tty_putchar [] (cstr "%.3d") [VInt 0] = Ok (chars "000", 3)
  /\ forallb is_digit (chars "000") = true.
Proof. repeat split; reflexivity. Qed.

(** ** C4: the bounded buffer *)

Lemma poke_app pre x post c :
  poke (pre ++ x :: post) (List.length pre) c = Some (pre ++ c :: post).
Proof.
  induction pre as [|y pre IH]; cbn; [reflexivity|]. now rewrite IH.
Qed.

(** The state of the bounded sink after the characters [cs]: [pre] is the
    part of the array before the write position, [post] the part from the
    write position on, [n] the remaining capacity. *)
Lemma feed_out_sprintf cs : forall pre post n,
  0 <= n <= Z.of_nat (List.length post) ->
  feed out_sprintf cs
    (mk_sprintf (pre ++ post) (Some (Z.of_nat (List.length pre))) n false)
  = mk_sprintf
      (pre ++ firstn (Nat.min (Z.to_nat n) (List.length cs)) cs
       ++ skipn (Nat.min (Z.to_nat n) (List.length cs)) post)
      (Some (Z.of_nat
               (List.length pre + Nat.min (Z.to_nat n) (List.length cs))))
      (n - Z.of_nat (Nat.min (Z.to_nat n) (List.length cs)))
      false.
Proof.
  induction cs as [|c cs IH]; intros pre post n Hn.
  - cbn [feed fold_left List.length]. rewrite Nat.min_0_r. cbn [firstn skipn app].
    now rewrite Nat.add_0_r, Z.sub_0_r.
  - change (feed out_sprintf (c :: cs) ?s)
      with (feed out_sprintf cs (out_sprintf c s)).
    unfold out_sprintf at 2. cbn [buffer maxlen].
    destruct (0 <? n) eqn:Hpos.
    + apply Z.ltb_lt in Hpos.
      destruct post as [|x post]; [cbn in Hn; lia|].
      unfold store. cbn [mem buffer maxlen overflow].
      replace (Z.of_nat (List.length pre) <? 0) with false
        by (symmetry; apply Z.ltb_ge; lia).
      rewrite Nat2Z.id, poke_app. cbn [mem buffer maxlen overflow].
      replace (pre ++ c :: post) with ((pre ++ [c]) ++ post)
        by (now rewrite <- app_assoc).
      replace (Z.of_nat (List.length pre) + 1)
        with (Z.of_nat (List.length (pre ++ [c])))
        by (rewrite length_app; cbn; lia).
      rewrite IH by (cbn [List.length] in Hn; lia).
      replace (Nat.min (Z.to_nat n) (List.length (c :: cs)))
        with (S (Nat.min (Z.to_nat (n - 1)) (List.length cs)))
        by (cbn [List.length]; lia).
      cbn [firstn skipn]. rewrite <- !app_assoc. cbn [app].
      f_equal; [f_equal; rewrite length_app; cbn; lia|lia].
    + apply Z.ltb_ge in Hpos. assert (n = 0) by lia. subst n.
      rewrite IH by assumption. cbn [Z.to_nat Nat.min]. reflexivity.
Qed.

Lemma feed_out_sprintf_null cs : forall m n o,
  feed out_sprintf cs (mk_sprintf m None n o) = mk_sprintf m None n o.
Proof. induction cs as [|c cs IH]; intros; [reflexivity|apply IH]. Qed.

Lemma skipn_cons_nth {A} (l : list A) k :
  (k < List.length l)%nat -> exists x, skipn k l = x :: skipn (S k) l.
Proof.
  revert k. induction l as [|y l IH]; intros k H; [cbn in H; lia|].
  destruct k as [|k]; [now exists y|].
  cbn [skipn]. apply IH. cbn in H. lia.
Qed.

Lemma firstn_snoc {A} (l : list A) k :
  (k < List.length l)%nat -> exists x, firstn (S k) l = firstn k l ++ [x].
Proof.
  revert k. induction l as [|y l IH]; intros k H; [cbn in H; lia|].
  destruct k as [|k]; [now exists y|].
  destruct (IH k) as [x Hx]; [cbn in H; lia|].
  exists x. cbn [firstn] in *. now rewrite Hx.
Qed.

Lemma vsnprintf_closed m count format va cs n :
  0 <= count <= Z.of_nat (List.length m) ->
  format_out out_log [] format va = Ok (cs, n) ->
  vsnprintf_ m (Some 0) count format va
  = Ok (mk_sprintf (bounded_copy m count cs)
          (Some (Z.min count (Z.of_nat (List.length cs))))
          (count - Z.min count (Z.of_nat (List.length cs)))
          false,
        n).
Proof.
  intros Hc H. unfold vsnprintf_. rewrite format_out_feed, H.
  cbn [rmap bind fst snd].
  change (mk_sprintf m (Some 0) count false)
    with (mk_sprintf ([] ++ m) (Some (Z.of_nat (List.length (@nil ascii))))
            count false).
  rewrite feed_out_sprintf by assumption.
  cbn [app List.length Nat.add buffer maxlen].
  set (k := Nat.min (Z.to_nat count) (List.length cs)).
  unfold bounded_copy.
  destruct (0 <? count) eqn:Hpos.
  - apply Z.ltb_lt in Hpos.
    replace (count =? 0) with false by (symmetry; apply Z.eqb_neq; lia).
    destruct (Z.of_nat (List.length cs) <? count) eqn:Hlen.
    + apply Z.ltb_lt in Hlen.
      assert (Hk : k = List.length cs) by (subst k; lia).
      replace (count - Z.of_nat k =? 0) with false
        by (symmetry; apply Z.eqb_neq; lia).
      rewrite Z.add_0_r. unfold store. cbn [mem buffer maxlen overflow].
      replace (Z.of_nat k <? 0) with false by (symmetry; apply Z.ltb_ge; lia).
      rewrite Nat2Z.id, Hk, firstn_all.
      destruct (skipn_cons_nth m (List.length cs)) as [x Hx]; [lia|].
      rewrite Hx, poke_app. do 2 f_equal. f_equal; [f_equal|]; lia.
    + apply Z.ltb_ge in Hlen.
      assert (Hk : k = Z.to_nat count) by (subst k; lia).
      replace (count - Z.of_nat k =? 0) with true
        by (symmetry; apply Z.eqb_eq; lia).
      unfold store. cbn [mem buffer maxlen overflow].
      replace (Z.of_nat k + -1 <? 0) with false
        by (symmetry; apply Z.ltb_ge; lia).
      replace (Z.to_nat (Z.of_nat k + -1)) with (Z.to_nat count - 1)%nat by lia.
      rewrite Hk.
      destruct (firstn_snoc cs (Z.to_nat count - 1)) as [y Hy]; [lia|].
      replace (S (Z.to_nat count - 1)) with (Z.to_nat count) in Hy by lia.
      rewrite Hy, <- app_assoc. cbn [app].
      replace (Z.to_nat count - 1)%nat
        with (List.length (firstn (Z.to_nat count - 1) cs)) at 2
        by (rewrite length_firstn; lia).
      rewrite poke_app. do 2 f_equal. f_equal; [f_equal|]; lia.
  - apply Z.ltb_ge in Hpos. assert (count = 0) by lia. subst count.
    subst k. cbn [Z.to_nat Nat.min firstn skipn app Z.of_nat Z.eqb].
    replace (Z.min 0 (Z.of_nat (List.length cs))) with 0 by lia.
    reflexivity.
Qed.

Lemma bounded_copy_length m count cs :
  0 <= count <= Z.of_nat (List.length m) ->
  List.length (bounded_copy m count cs) = List.length m.
Proof.
  intros Hc. unfold bounded_copy.
  destruct (count =? 0) eqn:Hz; [reflexivity|]. apply Z.eqb_neq in Hz.
  destruct (Z.of_nat (List.length cs) <? count) eqn:Hlen.
  - apply Z.ltb_lt in Hlen. rewrite length_app. cbn [List.length].
    rewrite length_skipn. lia.
  - apply Z.ltb_ge in Hlen. rewrite length_app. cbn [List.length].
    rewrite length_firstn, length_skipn. lia.
Qed.

Lemma bounded_copy_beyond m count cs :
  0 <= count <= Z.of_nat (List.length m) ->
  skipn (Z.to_nat count) (bounded_copy m count cs) = skipn (Z.to_nat count) m.
Proof.
  intros Hc. unfold bounded_copy.
  destruct (count =? 0) eqn:Hz; [reflexivity|]. apply Z.eqb_neq in Hz.
  destruct (Z.of_nat (List.length cs) <? count) eqn:Hlen.
  - apply Z.ltb_lt in Hlen.
    rewrite skipn_app, (skipn_all2 cs) by lia. cbn [app].
    replace (Z.to_nat count - List.length cs)%nat
      with (S (Z.to_nat count - S (List.length cs))) by lia.
    change (skipn (S ?a) (?x :: ?l)) with (skipn a l).
    rewrite skipn_skipn. f_equal. lia.
  - apply Z.ltb_ge in Hlen.
    assert (L : List.length (firstn (Z.to_nat count - 1) cs)
                = (Z.to_nat count - 1)%nat)
      by (rewrite length_firstn; lia).
    rewrite skipn_app, skipn_all2, L by lia. cbn [app].
    replace (Z.to_nat count - (Z.to_nat count - 1))%nat with 1%nat by lia.
    reflexivity.
Qed.

Lemma bounded_copy_within m count cs :
  0 <= count <= Z.of_nat (List.length m) ->
  firstn (Z.to_nat count) (bounded_copy m count cs)
  = if count =? 0 then []
    else if Z.of_nat (List.length cs) <? count
    then cs ++ NUL
         :: firstn (Z.to_nat count - S (List.length cs))
              (skipn (S (List.length cs)) m)
    else firstn (Z.to_nat count - 1) cs ++ [NUL].
Proof.
  intros Hc. unfold bounded_copy.
  destruct (count =? 0) eqn:Hz.
  { apply Z.eqb_eq in Hz. subst count. reflexivity. }
  apply Z.eqb_neq in Hz.
  destruct (Z.of_nat (List.length cs) <? count) eqn:Hlen.
  - apply Z.ltb_lt in Hlen.
    rewrite firstn_app, firstn_all2 by lia.
    replace (Z.to_nat count - List.length cs)%nat
      with (S (Z.to_nat count - S (List.length cs))) by lia.
    reflexivity.
  - apply Z.ltb_ge in Hlen.
    assert (L : List.length (firstn (Z.to_nat count - 1) cs)
                = (Z.to_nat count - 1)%nat)
      by (rewrite length_firstn; lia).
    rewrite firstn_app, firstn_all2, L by lia.
    replace (Z.to_nat count - (Z.to_nat count - 1))%nat with 1%nat by lia.
    reflexivity.
Qed.

(** C4: [vsnprintf_] and [snprintf_] with a buffer of capacity [count] (at
    most the size of the array [m]) store the characters [cs] of the
    formatter while capacity remains and drop the others: the array beyond
    the first [count] bytes is as before and no store falls outside it.
    With capacity left the terminator follows the characters; with the
    capacity used up it replaces the last character stored; with capacity 0
    the array is untouched.  A null buffer gets no store.  The count
    returned is that of the formatter. *)
Theorem C4_bounded_buffer :
  forall m count format va cs n,
    0 <= count <= Z.of_nat (List.length m) ->
    format_out out_log [] format va = Ok (cs, n) ->
    let after :=
      mk_sprintf (bounded_copy m count cs)
        (Some (Z.min count (Z.of_nat (List.length cs))))
        (count - Z.min count (Z.of_nat (List.length cs)))
        false in
    vsnprintf_ m (Some 0) count format va = Ok (after, n)
    /\ snprintf_ m (Some 0) count format va = Ok (after, n)
    /\ vsnprintf_ m None count format va = Ok (mk_sprintf m None count false, n)
    /\ List.length (mem after) = List.length m
    /\ skipn (Z.to_nat count) (mem after) = skipn (Z.to_nat count) m
    /\ firstn (Z.to_nat count) (mem after)
       = (if count =? 0 then []
          else if Z.of_nat (List.length cs) <? count
          then cs ++ NUL
               :: firstn (Z.to_nat count - S (List.length cs))
                    (skipn (S (List.length cs)) m)
          else firstn (Z.to_nat count - 1) cs ++ [NUL]).
Proof.
  intros m count format va cs n Hc H after.
  split; [now apply vsnprintf_closed|].
  split; [now apply vsnprintf_closed|].
  split.
  { unfold vsnprintf_. rewrite format_out_feed, H. cbn [rmap bind fst snd].
    now rewrite feed_out_sprintf_null. }
  split; [now apply bounded_copy_length|].
  split; [now apply bounded_copy_beyond|].
  now apply bounded_copy_within.
Qed.

Lemma C4_bounded_buffer_witness :
  vsnprintf_ (chars "XXXXXXXX") (Some 0) 4 (cstr "%d!") [VInt 123456]
  = Ok (mk_sprintf (chars "123" ++ NUL :: chars "XXXX") (Some 4) 0 false, 7)
  /\ vsnprintf_ (chars "XXXXXXXX") (Some 0) 4 (cstr "%d") [VInt 12]
     = Ok (mk_sprintf (chars "12" ++ NUL :: chars "XXXXX") (Some 2) 2 false, 2)
  /\ vsnprintf_ (chars "XXXXXXXX") (Some 0) 0 (cstr "%d") [VInt 12]
     = Ok (mk_sprintf (chars "XXXXXXXX") (Some 0) 0 false, 2).
Proof.
  assert (R : forall count,
             0 <= count <= 8 ->
             0 <= count <= Z.of_nat (List.length (chars "XXXXXXXX")))
    by (intros count H; exact H).
  split; [|split].
  - exact (proj1 (C4_bounded_buffer (chars "XXXXXXXX") 4 (cstr "%d!")
                    [VInt 123456] (chars "123456!") 7
                    (R 4 ltac:(lia)) eq_refl)).
  - exact (proj1 (C4_bounded_buffer (chars "XXXXXXXX") 4 (cstr "%d")
                    [VInt 12] (chars "12") 2 (R 4 ltac:(lia)) eq_refl)).
  - exact (proj1 (C4_bounded_buffer (chars "XXXXXXXX") 0 (cstr "%d")
                    [VInt 12] (chars "12") 2 (R 0 ltac:(lia)) eq_refl)).
Defined.

(** ** C8: a negative width argument *)

Lemma directive_stages {T} (out : ascii -> T -> T) (d : data_t T) format va :
  directive out d format va
  = let* (d, format, va) :=
      (let* (d1, f1) := eval_flags (set_flags 0 d) format in
       eval_width d1 f1 va) in
    directive_tail out d format va.
Proof.
  unfold directive, directive_tail.
  destruct (eval_flags (set_flags 0 d) format) as [[d1 f1]|e]; [|reflexivity].
  cbn [bind].
  destruct (eval_width d1 f1 va) as [[[d2 f2] va2]|e]; reflexivity.
Qed.

Lemma eval_specifier_next {T} (out : ascii -> T -> T) (d d' : data_t T)
    format format' va va' :
  eval_specifier out d format va = Ok (d', format', va') ->
  format' = next format.
Proof.
  unfold eval_specifier.
  destruct (deref format) as [c|e]; cbn [bind]; [|discriminate].
  repeat match goal with
         | |- context [if ?b then _ else _] => destruct b
         | |- context [bind ?m _] =>
             destruct m as [[? ?]|?]; cbn [bind]
         | |- context [bind ?m _] =>
             destruct m as [?|?]; cbn [bind]
         end;
  intros H; try discriminate H; now injection H as _ <- _.
Qed.

Lemma directive_tail_d {T} (out : ascii -> T -> T) (d d' : data_t T)
    va format' va' :
  directive_tail out d (cstr "d") va = Ok (d', format', va') ->
  format' = [NUL].
Proof.
  unfold directive_tail. cbn [cstr chars list_ascii_of_string app].
  change (eval_precision d ["d"; NUL] va)
    with (Ok (set_precision 0 d, ["d"; NUL], va)).
  cbn [bind].
  change (eval_length (set_precision 0 d) ["d"; NUL])
    with (Ok (set_precision 0 d, ["d"; NUL])).
  cbn [bind]. intros H. now apply eval_specifier_next in H.
Qed.

Lemma wrap_u_wrap_s bits x : 0 < bits -> wrap_u bits (wrap_s bits x) = wrap_u bits x.
Proof.
  intros Hb. unfold wrap_u, wrap_s.
  rewrite Zminus_mod_idemp_l. f_equal. lia.
Qed.

Lemma wrap_s_small bits x :
  0 < bits -> - 2 ^ (bits - 1) <= x < 2 ^ (bits - 1) -> wrap_s bits x = x.
Proof.
  intros Hb Hx. unfold wrap_s.
  assert (E : 2 ^ bits = 2 * 2 ^ (bits - 1)).
  { replace bits with (Z.succ (bits - 1)) at 1 by lia.
    rewrite Z.pow_succ_r by lia. reflexivity. }
  rewrite Z.mod_small by lia. lia.
Qed.

Lemma u8_of_wrap_u x y :
  wrap_u INT_BITS x = wrap_u INT_BITS y -> u8 x = u8 y.
Proof.
  unfold u8, wrap_u, INT_BITS. intros H.
  assert (D : (2 ^ 8 | 2 ^ 32)) by (exists (2 ^ 24); reflexivity).
  rewrite <- (Z.mod_mod_divide x (2 ^ 32) (2 ^ 8) D).
  rewrite <- (Z.mod_mod_divide y (2 ^ 32) (2 ^ 8) D).
  now rewrite H.
Qed.

(** [atoi] reads a run of digits up to the first other character. *)
Lemma atoi_from_digits ds : forall i j c rest,
  forallb is_digit ds = true -> is_digit c = false ->
  wrap_u INT_BITS i = wrap_u INT_BITS j ->
  exists n,
    atoi_from i (ds ++ c :: rest) = Ok (n, c :: rest)
    /\ wrap_u INT_BITS n
       = wrap_u INT_BITS
           (fold_left (fun acc c => acc * 10 + (code c - code "0")) ds j).
Proof.
  induction ds as [|x ds IH]; intros i j c rest Hd Hc Hij.
  - exists i. cbn [app atoi_from fold_left]. now rewrite Hc.
  - cbn [forallb] in Hd. apply andb_true_iff in Hd. destruct Hd as [Hx Hd].
    cbn [app atoi_from fold_left]. rewrite Hx.
    apply IH; [assumption|assumption|].
    unfold wrap_u in *.
    rewrite Z.mod_mod by (unfold INT_BITS; lia).
    rewrite Zplus_mod_idemp_r.
    rewrite (Zplus_mod (i * 10)), (Zplus_mod (j * 10)).
    rewrite (Zmult_mod i), (Zmult_mod j), Hij. reflexivity.
Qed.

Lemma code_inj c c' : code c = code c' -> c = c'.
Proof.
  unfold code. intros H. apply N2Z.inj in H.
  rewrite <- (ascii_N_embedding c), <- (ascii_N_embedding c'). now rewrite H.
Qed.

Lemma is_digit_range c : is_digit c = true -> 0 <= code c - code "0" <= 9.
Proof.
  unfold is_digit. intros H. apply andb_true_iff in H. destruct H as [H1 H2].
  apply Z.leb_le in H1, H2. change (code "0") with 48 in *.
  change (code "9") with 57 in *. lia.
Qed.

Lemma fold_digits_positive ds : forall acc,
  forallb is_digit ds = true -> 1 <= acc ->
  1 <= fold_left (fun acc c => acc * 10 + (code c - code "0")) ds acc.
Proof.
  induction ds as [|c ds IH]; intros acc Hd Ha; [exact Ha|].
  cbn [forallb] in Hd. apply andb_true_iff in Hd. destruct Hd as [Hc Hd].
  cbn [fold_left]. apply IH; [assumption|].
  pose proof (is_digit_range c Hc). lia.
Qed.

Lemma numeral_positive ds : is_numeral ds = true -> 0 < numeral_value ds.
Proof.
  destruct ds as [|c0 ds]; [discriminate|].
  cbn [is_numeral forallb]. intros H.
  apply andb_true_iff in H. destruct H as [H0 H].
  apply andb_true_iff in H. destruct H as [Hc Hd].
  apply negb_true_iff in H0.
  unfold numeral_value. cbn [fold_left].
  assert (1 <= 0 * 10 + (code c0 - code "0")).
  { pose proof (is_digit_range c0 Hc).
    assert (code c0 <> code "0").
    { intros E. apply code_inj in E. subst c0. discriminate H0. }
    lia. }
  pose proof (fold_digits_positive ds _ Hd H). lia.
Qed.

Lemma digit_not_flag c :
  is_digit c = true -> Ascii.eqb c "0" = false ->
  Ascii.eqb c "-" = false /\ Ascii.eqb c "+" = false
  /\ Ascii.eqb c " " = false /\ Ascii.eqb c "#" = false.
Proof.
  intros Hd _.
  repeat split;
    match goal with
    | |- Ascii.eqb c ?x = false =>
        destruct (Ascii.eqb_spec c x) as [->|]; [discriminate Hd|reflexivity]
    end.
Qed.

(** The state after the width stage is the same for a star with the
    argument [- w] and for a minus flag followed by the numeral of [w]. *)
Lemma width_star_negative {T} (d : data_t T) ds va :
  is_numeral ds = true -> numeral_value ds <= 2 ^ 31 ->
  (let* (d1, f1) := eval_flags (set_flags 0 d) ("*"%char :: cstr "d") in
   eval_width d1 f1 (VInt (- numeral_value ds) :: va))
  = (let* (d1, f1) :=
       eval_flags (set_flags 0 d) ("-"%char :: ds ++ cstr "d") in
     eval_width d1 f1 va)
  /\ exists d2,
       (let* (d1, f1) := eval_flags (set_flags 0 d) ("*"%char :: cstr "d") in
        eval_width d1 f1 (VInt (- numeral_value ds) :: va))
       = Ok (d2, cstr "d", va).
Proof.
  intros Hn Hw. pose proof (numeral_positive ds Hn) as Hpos.
  destruct ds as [|c0 ds]; [discriminate Hn|].
  cbn [is_numeral] in Hn. apply andb_true_iff in Hn. destruct Hn as [H0 Hd].
  apply negb_true_iff in H0.
  assert (Hc0 : is_digit c0 = true)
    by (cbn [forallb] in Hd; now apply andb_true_iff in Hd).
  destruct (digit_not_flag c0 Hc0 H0) as (F1 & F2 & F3 & F4).
  set (w := numeral_value (c0 :: ds)) in *.
  (* the star *)
  assert (A : (let* (d1, f1) :=
                 eval_flags (set_flags 0 d) ("*"%char :: cstr "d") in
               eval_width d1 f1 (VInt (- w) :: va))
              = Ok (set_width (u8 w)
                      (set_flags (set_bits 0 FLAGS_LEFT)
                         (set_width 0 (set_flags 0 d))),
                    cstr "d", va)).
  { change (eval_flags (set_flags 0 d) ("*"%char :: cstr "d"))
      with (Ok (set_flags 0 d, "*"%char :: cstr "d")).
    cbn [bind]. unfold eval_width. cbv zeta. cbn [deref bind].
    change (is_digit "*") with false. change (Ascii.eqb "*" "*") with true.
    cbv iota. unfold va_arg_int. cbn [bind].
    rewrite (wrap_s_small INT_BITS (- w))
      by (change (2 ^ (INT_BITS - 1)) with (2 ^ 31);
          unfold INT_BITS; clearbody w; lia).
    replace (- w <? 0) with true by (symmetry; apply Z.ltb_lt; lia).
    rewrite Z.opp_involutive.
    rewrite (u8_of_wrap_u (wrap_u INT_BITS (wrap_s INT_BITS w)) w).
    - reflexivity.
    - transitivity (wrap_u INT_BITS (wrap_s INT_BITS w)).
      + unfold wrap_u. apply Z.mod_mod. unfold INT_BITS. lia.
      + apply wrap_u_wrap_s. unfold INT_BITS. lia. }
  rewrite A. split; [|eexists; reflexivity].
  (* the minus flag and the numeral *)
  destruct (atoi_from_digits (c0 :: ds) 0 0 "d" [NUL] Hd eq_refl eq_refl)
    as (n & Hn & Hv).
  fold (numeral_value (c0 :: ds)) in Hv. fold w in Hv.
  cbn [app] in Hn |- *. cbn [eval_flags].
  change (Ascii.eqb "-" "0") with false.
  change (Ascii.eqb "-" "-") with true. cbv iota.
  rewrite H0, F1, F2, F3, F4. cbn [bind].
  unfold eval_width. cbv zeta. cbn [deref bind]. rewrite Hc0.
  unfold atoi. cbn [cstr chars list_ascii_of_string app]. rewrite Hn.
  cbn [bind]. rewrite (u8_of_wrap_u n w Hv). reflexivity.
Qed.

Lemma format_loop_percent {T} (out : ascii -> T -> T) fuel (d : data_t T)
    rest va :
  format_loop out (S fuel) d ("%"%char :: rest) va
  = let* (d', f', va') := directive out d rest va in
    format_loop out fuel d' f' va'.
Proof. reflexivity. Qed.

Lemma format_loop_end {T} (out : ascii -> T -> T) fuel (d : data_t T) va :
  format_loop out (S fuel) d [NUL] va = Ok d.
Proof. reflexivity. Qed.

Lemma star_width_stage {T} (d : data_t T) format va w :
  - 2 ^ 31 <= w < 2 ^ 31 ->
  eval_width d ("*"%char :: format) (VInt w :: va)
  = Ok (if w <? 0
        then set_width (u8 (- w))
               (set_flags (set_bits (flags d) FLAGS_LEFT) (set_width 0 d))
        else set_width (u8 w) (set_width 0 d),
        format, va).
Proof.
  intros Hw. unfold eval_width. cbv zeta. cbn [deref bind].
  change (is_digit "*") with false. change (Ascii.eqb "*" "*") with true.
  cbv iota. unfold va_arg_int. cbn [bind next tl].
  rewrite (wrap_s_small INT_BITS w)
    by (change (2 ^ (INT_BITS - 1)) with (2 ^ 31); unfold INT_BITS; lia).
  destruct (w <? 0).
  - rewrite (u8_of_wrap_u (wrap_u INT_BITS (wrap_s INT_BITS (- w))) (- w));
      [reflexivity|].
    transitivity (wrap_u INT_BITS (wrap_s INT_BITS (- w))).
    + unfold wrap_u. apply Z.mod_mod. unfold INT_BITS. lia.
    + apply wrap_u_wrap_s. unfold INT_BITS. lia.
  - rewrite (u8_of_wrap_u (wrap_u INT_BITS w) w); [reflexivity|].
    unfold wrap_u. apply Z.mod_mod. unfold INT_BITS. lia.
Qed.

Lemma star_negative_is_minus {T} (out : ascii -> T -> T) p ds v :
  is_numeral ds = true -> numeral_value ds <= 2 ^ 31 ->
  format_out out p (cstr "%*d") [VInt (- numeral_value ds); VInt v]
  = format_out out p ("%"%char :: "-"%char :: ds ++ cstr "d") [VInt v].
Proof.
  intros Hn Hw. unfold format_out. f_equal.
  change (cstr "%*d") with ("%"%char :: "*"%char :: cstr "d").
  cbn [List.length]. rewrite !format_loop_percent, !directive_stages.
  destruct (width_star_negative (initial_data p) ds [VInt v] Hn Hw)
    as [E [d2 E2]].
  rewrite <- E, E2. cbn [bind].
  destruct (directive_tail out d2 (cstr "d") [VInt v])
    as [[[d' f'] va']|e] eqn:Ht; [|reflexivity].
  apply directive_tail_d in Ht. subst f'. cbn [bind].
  rewrite length_app. cbn [cstr chars list_ascii_of_string app List.length].
  rewrite Nat.add_comm. cbn [Nat.add].
  now rewrite !format_loop_end.
Qed.

(** ** C6: decimal rendering and parsing back *)

Lemma pow10_long_powers : pow10_long = powers 10.
Proof. reflexivity. Qed.

Lemma pow10_long_long_powers : pow10_long_long = powers 20.
Proof. reflexivity. Qed.

Lemma table_at_powers N i :
  (i < N)%nat -> table_at (powers N) (Z.of_nat i) = Ok (10 ^ Z.of_nat i).
Proof.
  intros H. unfold table_at, powers.
  replace (Z.of_nat i <? 0) with false by (symmetry; apply Z.ltb_ge; lia).
  rewrite Nat2Z.id, nth_error_map, nth_error_seq.
  replace (i <? N)%nat with true by (symmetry; apply Nat.ltb_lt; lia).
  reflexivity.
Qed.

(** The count of decimal digits found by the scan of the table. *)
Lemma count_pow10_spec n : forall k value,
  (k + n < 256)%nat ->
  (k = O \/ 10 ^ (Z.of_nat k - 1) <= value) ->
  let r :=
    count_pow10 (map (fun i => 10 ^ Z.of_nat i) (seq k n)) value (Z.of_nat k)
  in
  Z.of_nat k <= r <= Z.of_nat (k + n)
  /\ (r < Z.of_nat (k + n) -> value < 10 ^ r)
  /\ (0 < r -> 10 ^ (r - 1) <= value).
Proof.
  induction n as [|n IH]; intros k value Hk Hinv; cbn [seq map count_pow10].
  - cbv zeta. repeat split; lia.
  - destruct (10 ^ Z.of_nat k <=? value) eqn:E.
    + apply Z.leb_le in E.
      replace (u8 (Z.of_nat k + 1)) with (Z.of_nat (S k)).
      2:{ unfold u8, wrap_u. rewrite Z.mod_small; lia. }
      specialize (IH (S k) value).
      cbv zeta in IH |- *.
      replace (k + S n)%nat with (S k + n)%nat by lia.
      destruct IH as (I1 & I2 & I3); [lia| |repeat split; auto; lia].
      right. replace (Z.of_nat (S k) - 1) with (Z.of_nat k) by lia. exact E.
    + apply Z.leb_gt in E. cbv zeta. repeat split; lia.
Qed.

Lemma pow10_pos n : 0 < 10 ^ Z.of_nat n.
Proof. apply Z.pow_pos_nonneg; lia. Qed.

Lemma pow10_succ n : 10 ^ Z.of_nat (S n) = 10 * 10 ^ Z.of_nat n.
Proof. rewrite Nat2Z.inj_succ, Z.pow_succ_r by lia. reflexivity. Qed.

Lemma leading_digit n v :
  0 <= v < 10 ^ Z.of_nat (S n) -> 0 <= v / 10 ^ Z.of_nat n <= 9.
Proof.
  intros H. pose proof (pow10_pos n). rewrite pow10_succ in H. split.
  - apply Z.div_pos; lia.
  - assert (v / 10 ^ Z.of_nat n < 10); [|lia].
    apply Z.div_lt_upper_bound; lia.
Qed.

Lemma ntoa_decimal_closed {T} (out : ascii -> T -> T) N n :
  forall (d : data_t T) value,
    (n <= N)%nat -> digit_count d = Z.of_nat n ->
    0 <= value < 10 ^ Z.of_nat n ->
    ntoa_decimal out (powers N) n d value
    = Ok (set_digit_count 0 (emitted out (dec_digits n value) d)).
Proof.
  induction n as [|n IH]; intros d value HN Hd Hv.
  - cbn. f_equal. apply data_eq; cbn; auto.
  - cbn [ntoa_decimal].
    replace (0 <? digit_count d) with true by (symmetry; apply Z.ltb_lt; lia).
    cbv zeta. cbn [digit_count set_digit_count].
    replace (digit_count d - 1) with (Z.of_nat n) by lia.
    rewrite table_at_powers by lia. cbn [bind].
    pose proof (leading_digit n value Hv) as Hq.
    replace (u8 (value / 10 ^ Z.of_nat n)) with (value / 10 ^ Z.of_nat n).
    2:{ unfold u8, wrap_u. rewrite Z.mod_small; lia. }
    rewrite IH.
    + cbn [dec_digits].
      change (emitted out (?c :: ?l) d) with (emitted out l (do_out out d c)).
      change (do_out out (set_digit_count ?x d) ?c)
        with (set_digit_count x (do_out out d c)).
      rewrite emitted_set_digit_count. reflexivity.
    + lia.
    + reflexivity.
    + pose proof (pow10_pos n). apply Z.mod_pos_bound. lia.
Qed.

Lemma code_chr x : 0 <= x < 256 -> code (chr x) = x.
Proof.
  intros H. unfold code, chr. rewrite Z.mod_small by assumption.
  rewrite N_ascii_embedding by lia. lia.
Qed.

Lemma parse_dec_digits n : forall v acc,
  0 <= v < 10 ^ Z.of_nat n ->
  parse_digits acc (dec_digits n v) = Some (acc * 10 ^ Z.of_nat n + v).
Proof.
  induction n as [|n IH]; intros v acc Hv.
  - cbn in *. f_equal. lia.
  - cbn [dec_digits parse_digits].
    pose proof (leading_digit n v Hv) as Hq.
    pose proof (pow10_pos n) as Hp.
    change (code "0") with 48.
    assert (Hc : code (chr (v / 10 ^ Z.of_nat n + 48))
                 = v / 10 ^ Z.of_nat n + 48) by (apply code_chr; lia).
    unfold is_digit. rewrite Hc.
    change (code "0") with 48. change (code "9") with 57.
    replace (48 <=? v / 10 ^ Z.of_nat n + 48) with true
      by (symmetry; apply Z.leb_le; lia).
    replace (v / 10 ^ Z.of_nat n + 48 <=? 57) with true
      by (symmetry; apply Z.leb_le; lia).
    cbn [andb]. rewrite IH by (apply Z.mod_pos_bound; lia).
    f_equal. rewrite pow10_succ.
    pose proof (Z.div_mod v (10 ^ Z.of_nat n)). lia.
Qed.

Lemma count_powers N m :
  (N < 256)%nat -> 0 <= m < 10 ^ Z.of_nat N ->
  let r := count_pow10 (powers N) m 0 in
  0 <= r <= Z.of_nat N /\ m < 10 ^ r /\ (0 < m -> 0 < r).
Proof.
  intros HN Hm. cbv zeta.
  destruct (count_pow10_spec N 0 m) as (H1 & H2 & H3); [lia|now left|].
  cbn [Nat.add Z.of_nat] in *. fold (powers N) in *.
  assert (A : m < 10 ^ count_pow10 (powers N) m 0).
  { destruct (Z.eq_dec (count_pow10 (powers N) m 0) (Z.of_nat N)) as [E|E].
    - rewrite E. lia.
    - apply H2. lia. }
  split; [lia|]. split; [exact A|].
  intros Hpos.
  destruct (Z.eq_dec (count_pow10 (powers N) m 0) 0) as [E|E]; [|lia].
  rewrite E in A. cbn in A. lia.
Qed.

Lemma parse_decimal_repr N m :
  (N < 256)%nat -> 0 <= m < 10 ^ Z.of_nat N ->
  parse_unsigned (decimal_repr (powers N) m) = Some m
  /\ (forall c s, decimal_repr (powers N) m = c :: s -> is_digit c = true).
Proof.
  intros HN Hm. unfold decimal_repr.
  destruct (m =? 0) eqn:E.
  - apply Z.eqb_eq in E. subst m. split; [reflexivity|].
    intros c s H. now injection H as <- _.
  - apply Z.eqb_neq in E.
    destruct (count_powers N m HN Hm) as (H1 & H2 & H3).
    set (r := count_pow10 (powers N) m 0) in *.
    assert (Hr : 0 < r) by (apply H3; lia).
    destruct (Z.to_nat r) as [|k] eqn:Ek; [lia|].
    assert (Hv : 0 <= m < 10 ^ Z.of_nat (S k)).
    { rewrite <- Ek, Z2Nat.id by lia. lia. }
    split.
    + unfold parse_unsigned. cbn [dec_digits].
      change (chr ?x :: ?l) with (dec_digits (S k) m).
      rewrite parse_dec_digits by assumption. f_equal; lia.
    + intros c s H. cbn [dec_digits] in H. injection H as <- _.
      pose proof (leading_digit k m Hv).
      unfold is_digit. rewrite code_chr by (change (code "0") with 48; lia).
      change (code "0") with 48. change (code "9") with 57.
      apply andb_true_iff. split; apply Z.leb_le; lia.
Qed.

(** A field without width, precision and prefix: the layout is the sign. *)
Lemma layout_width_plain {T} (d : data_t T) :
  width d = 0 -> precision d = 0 -> 0 <= digit_count d ->
  has d FLAGS_HASH = false ->
  layout_width d = d.
Proof.
  destruct d as [p f i w pr b dc]. cbn [width precision digit_count].
  intros -> -> Hdc Hh. unfold has in Hh. cbn [flags] in Hh.
  unfold layout_width, has.
  cbn [ptr flags idx width precision base digit_count set_width
       set_precision].
  rewrite !Z.max_r by lia.
  change (0 <? 0) with false. cbn [andb].
  repeat (cbn [ptr flags idx width precision base digit_count set_width
               set_precision];
          match goal with
          | |- context [if ?c then _ else _] =>
              lazymatch c with
              | context [if _ then _ else _] => fail
              | _ => destruct c eqn:?
              end
          end);
  cbn [ptr flags idx width precision base digit_count set_width
       set_precision];
  try reflexivity; congruence.
Qed.

Lemma plain_field {T} (out : ascii -> T -> T) N (d : data_t T) m :
  (N < 256)%nat -> 0 <= m < 10 ^ Z.of_nat N ->
  width d = 0 -> precision d = 0 -> base d = BASE_DECIMAL ->
  has d FLAGS_HASH = false -> has d FLAGS_PRECISION = false ->
  digit_count d = count_pow10 (powers N) m 0 ->
  exists d',
    ntoa out (powers N) (ntoa_format out d) m = Ok d'
    /\ ptr d'
       = feed out (sign_chars d ++ decimal_repr (powers N) m) (ptr d).
Proof.
  intros HN Hm Hw Hp Hb Hh Hpr Hdc.
  destruct (count_powers N m HN Hm) as (K1 & K2 & K3).
  assert (E : ntoa_format out d = emitted out (sign_chars d) d).
  { rewrite ntoa_format_closed. unfold layout_chars. cbv zeta.
    rewrite layout_width_plain by (try assumption; lia).
    unfold pad_chars, prefix_chars, zero_chars, layout_final.
    rewrite Hw, Hp, Hh. cbn [Z.to_nat repeat app].
    rewrite has_emitted.
    assert (X : (if negb (has d FLAGS_LEFT) && negb (has d FLAGS_ZEROPAD)
                 then [] else []) = @nil ascii) by (now destruct (_ && _)).
    rewrite X. clear X.
    assert (Y : (if negb (has d FLAGS_LEFT)
                 then if has d FLAGS_ZEROPAD then [] else [] else [])
                = @nil ascii)
      by (destruct (has d FLAGS_LEFT), (has d FLAGS_ZEROPAD); reflexivity).
    rewrite Y. clear Y. cbn [app]. rewrite app_nil_r.
    destruct (negb (has d FLAGS_LEFT)); [|reflexivity].
    apply data_eq; cbn [ptr flags idx width precision base digit_count
                        set_width set_precision]; try reflexivity.
    - now rewrite width_emitted.
    - now rewrite precision_emitted. }
  rewrite E. set (e := emitted out (sign_chars d) d).
  assert (Fe : flags e = flags d) by apply flags_emitted.
  assert (Be : base e = base d) by apply base_emitted.
  assert (We : width e = 0) by (subst e; now rewrite width_emitted).
  assert (De : digit_count e = digit_count d) by apply digit_count_emitted.
  assert (Pe : ptr e = feed out (sign_chars d) (ptr d)) by apply ptr_emitted.
  assert (Tail : forall x : data_t T,
             width x = 0 ->
             ptr (if has x FLAGS_LEFT then pad_trailing out x else x) = ptr x).
  { intros x Hx. destruct (has x FLAGS_LEFT); [|reflexivity].
    rewrite (proj1 (pad_trailing_fields out x)), Hx. reflexivity. }
  unfold ntoa, decimal_repr.
  rewrite (has_flags e d) by assumption. rewrite Hpr. cbn [negb orb].
  destruct (m =? 0) eqn:Em.
  - cbn [bind]. eexists. split; [reflexivity|].
    rewrite Tail by exact We.
    cbn [ptr do_out idx_incr emit set_idx set_ptr]. rewrite Pe.
    now rewrite feed_app.
  - apply Z.eqb_neq in Em. rewrite Be, Hb.
    change (base_eqb BASE_DECIMAL BASE_DECIMAL) with true. cbv iota.
    rewrite De, Hdc.
    rewrite (ntoa_decimal_closed out N (Z.to_nat (count_pow10 (powers N) m 0)))
      by (rewrite ?De, ?Hdc, ?Z2Nat.id; lia).
    cbn [bind]. eexists. split; [reflexivity|].
    rewrite Tail by (cbn [width set_digit_count]; now rewrite width_emitted).
    cbn [ptr set_digit_count]. rewrite ptr_emitted, Pe.
    now rewrite feed_app.
Qed.

Lemma magnitude_abs bits v :
  0 < bits -> - 2 ^ (bits - 1) <= v < 2 ^ (bits - 1) ->
  wrap_u bits (ABS bits v) = Z.abs v.
Proof.
  intros Hb Hv. unfold ABS.
  assert (E : 2 ^ bits = 2 * 2 ^ (bits - 1)).
  { replace bits with (Z.succ (bits - 1)) at 1 by lia.
    rewrite Z.pow_succ_r by lia. reflexivity. }
  destruct (v <? 0) eqn:Hs.
  - apply Z.ltb_lt in Hs. rewrite wrap_u_wrap_s by assumption.
    unfold wrap_u. rewrite Z.mod_small; lia.
  - apply Z.ltb_ge in Hs. unfold wrap_u. rewrite Z.mod_small; lia.
Qed.

Ltac plain_cases H :=
  unfold plain_flags in H; cbn [In] in H;
  destruct H as [<-|[<-|[<-|[]]]].

Lemma field_long {T} (out : ascii -> T -> T) p f i dc m negative :
  0 <= m < 10 ^ 10 -> In f plain_flags ->
  exists d',
    ntoa_long out
      (ntoa_format out
         (pre_format_long (mk_data p f i 0 0 BASE_DECIMAL dc) m negative)) m
    = Ok d'
    /\ ptr d'
       = feed out
           ((if negative then ["-"%char] else [])
            ++ decimal_repr (powers 10) m) p.
Proof.
  intros Hm Hf.
  set (d1 := pre_format_long (mk_data p f i 0 0 BASE_DECIMAL dc) m negative).
  assert (S1 : sign_chars d1 = if negative then ["-"%char] else [])
    by (subst d1; unfold pre_format_long; plain_cases Hf;
        destruct (m =? 0), negative; reflexivity).
  assert (P1 : ptr d1 = p)
    by (subst d1; unfold pre_format_long;
        destruct (m =? 0), negative; reflexivity).
  rewrite <- S1, <- P1.
  apply (plain_field out 10 d1 m); try lia; try assumption;
    subst d1; unfold pre_format_long; plain_cases Hf;
    destruct (m =? 0), negative; reflexivity.
Qed.

Lemma field_long_long {T} (out : ascii -> T -> T) p f i dc m negative :
  0 <= m < 10 ^ 20 -> In f plain_flags ->
  exists d',
    ntoa_long_long out
      (ntoa_format out
         (pre_format_long_long (mk_data p f i 0 0 BASE_DECIMAL dc) m negative))
      m
    = Ok d'
    /\ ptr d'
       = feed out
           ((if negative then ["-"%char] else [])
            ++ decimal_repr (powers 20) m) p.
Proof.
  intros Hm Hf.
  set (d1 := pre_format_long_long (mk_data p f i 0 0 BASE_DECIMAL dc) m
               negative).
  assert (S1 : sign_chars d1 = if negative then ["-"%char] else [])
    by (subst d1; unfold pre_format_long_long; plain_cases Hf;
        destruct (m =? 0), negative; reflexivity).
  assert (P1 : ptr d1 = p)
    by (subst d1; unfold pre_format_long_long;
        destruct (m =? 0), negative; reflexivity).
  rewrite <- S1, <- P1.
  apply (plain_field out 20 d1 m); try lia; try assumption;
    subst d1; unfold pre_format_long_long; plain_cases Hf;
    destruct (m =? 0), negative; reflexivity.
Qed.

(** The six ways through [convert_integer] that a plain decimal directive
    takes. *)
Lemma convert_signed_int {T} (out : ascii -> T -> T) c p i b dc v va :
  c = "d"%char \/ c = "i"%char -> - 2 ^ 31 <= v < 2 ^ 31 ->
  exists d',
    convert_integer out (mk_data p 0 i 0 0 b dc) c (VInt v :: va)
    = Ok (d', va)
    /\ ptr d' = feed out (signed_repr (powers 10) v) p.
Proof.
  intros Hc Hv.
  assert (E : convert_integer out (mk_data p 0 i 0 0 b dc) c (VInt v :: va)
              = let D := mk_data p 0 i 0 0 BASE_DECIMAL dc in
                let m := wrap_u LONG_BITS (ABS INT_BITS (wrap_s INT_BITS v)) in
                let* d :=
                  ntoa_long out
                    (ntoa_format out
                       (pre_format_long D m (wrap_s INT_BITS v <? 0))) m in
                Ok (d, va))
    by (destruct Hc; subst c; reflexivity).
  rewrite E. cbv zeta.
  rewrite (wrap_s_small INT_BITS v) by (unfold INT_BITS; cbn; lia).
  change LONG_BITS with INT_BITS.
  rewrite magnitude_abs by (unfold INT_BITS; cbn; lia).
  destruct (field_long out p 0 i dc (Z.abs v) (v <? 0)) as (d' & H1 & H2);
    [lia|now left|].
  rewrite H1. cbn [bind]. exists d'. split; [reflexivity|exact H2].
Qed.

Lemma convert_signed_long {T} (out : ascii -> T -> T) p i b dc v va :
  - 2 ^ 31 <= v < 2 ^ 31 ->
  exists d',
    convert_integer out (mk_data p FLAGS_LONG i 0 0 b dc) "d" (VLong v :: va)
    = Ok (d', va)
    /\ ptr d' = feed out (signed_repr (powers 10) v) p.
Proof.
  intros Hv.
  assert (E : convert_integer out (mk_data p FLAGS_LONG i 0 0 b dc) "d"
                (VLong v :: va)
              = let D := mk_data p FLAGS_LONG i 0 0 BASE_DECIMAL dc in
                let m :=
                  wrap_u LONG_BITS (ABS LONG_BITS (wrap_s LONG_BITS v)) in
                let* d :=
                  ntoa_long out
                    (ntoa_format out
                       (pre_format_long D m (wrap_s LONG_BITS v <? 0))) m in
                Ok (d, va))
    by reflexivity.
  rewrite E. cbv zeta.
  rewrite (wrap_s_small LONG_BITS v) by (unfold LONG_BITS; cbn; lia).
  rewrite magnitude_abs by (unfold LONG_BITS; cbn; lia).
  destruct (field_long out p FLAGS_LONG i dc (Z.abs v) (v <? 0))
    as (d' & H1 & H2); [lia|right; now left|].
  rewrite H1. cbn [bind]. exists d'. split; [reflexivity|exact H2].
Qed.

Lemma convert_signed_long_long {T} (out : ascii -> T -> T) p i b dc v va :
  - 2 ^ 63 <= v < 2 ^ 63 ->
  exists d',
    convert_integer out
      (mk_data p (Z.lor FLAGS_LONG FLAGS_LONG_LONG) i 0 0 b dc) "d"
      (VLongLong v :: va)
    = Ok (d', va)
    /\ ptr d' = feed out (signed_repr (powers 20) v) p.
Proof.
  intros Hv.
  assert (E : convert_integer out
                (mk_data p (Z.lor FLAGS_LONG FLAGS_LONG_LONG) i 0 0 b dc) "d"
                (VLongLong v :: va)
              = let D :=
                  mk_data p (Z.lor FLAGS_LONG FLAGS_LONG_LONG) i 0 0
                    BASE_DECIMAL dc in
                let m :=
                  wrap_u LONG_LONG_BITS
                    (ABS LONG_LONG_BITS (wrap_s LONG_LONG_BITS v)) in
                let* d :=
                  ntoa_long_long out
                    (ntoa_format out
                       (pre_format_long_long D m
                          (wrap_s LONG_LONG_BITS v <? 0))) m in
                Ok (d, va))
    by reflexivity.
  rewrite E. cbv zeta.
  rewrite (wrap_s_small LONG_LONG_BITS v)
    by (unfold LONG_LONG_BITS; cbn; lia).
  rewrite magnitude_abs by (unfold LONG_LONG_BITS; cbn; lia).
  destruct (field_long_long out p (Z.lor FLAGS_LONG FLAGS_LONG_LONG) i dc
              (Z.abs v) (v <? 0)) as (d' & H1 & H2);
    [lia|right; right; now left|].
  rewrite H1. cbn [bind]. exists d'. split; [reflexivity|exact H2].
Qed.

Lemma convert_unsigned_int {T} (out : ascii -> T -> T) p i b dc v va :
  0 <= v < 2 ^ 32 ->
  exists d',
    convert_integer out (mk_data p 0 i 0 0 b dc) "u" (VInt v :: va)
    = Ok (d', va)
    /\ ptr d' = feed out (decimal_repr (powers 10) v) p.
Proof.
  intros Hv.
  assert (E : convert_integer out (mk_data p 0 i 0 0 b dc) "u" (VInt v :: va)
              = let D := mk_data p 0 i 0 0 BASE_DECIMAL dc in
                let m := wrap_u INT_BITS v in
                let* d :=
                  ntoa_long out (ntoa_format out (pre_format_long D m false))
                    m in
                Ok (d, va))
    by reflexivity.
  rewrite E. cbv zeta.
  replace (wrap_u INT_BITS v) with v
    by (unfold wrap_u, INT_BITS; rewrite Z.mod_small; lia).
  destruct (field_long out p 0 i dc v false) as (d' & H1 & H2);
    [lia|now left|].
  rewrite H1. cbn [bind]. exists d'. split; [reflexivity|exact H2].
Qed.

Lemma convert_unsigned_long {T} (out : ascii -> T -> T) p i b dc v va :
  0 <= v < 2 ^ 32 ->
  exists d',
    convert_integer out (mk_data p FLAGS_LONG i 0 0 b dc) "u" (VLong v :: va)
    = Ok (d', va)
    /\ ptr d' = feed out (decimal_repr (powers 10) v) p.
Proof.
  intros Hv.
  assert (E : convert_integer out (mk_data p FLAGS_LONG i 0 0 b dc) "u"
                (VLong v :: va)
              = let D := mk_data p FLAGS_LONG i 0 0 BASE_DECIMAL dc in
                let m := wrap_u LONG_BITS v in
                let* d :=
                  ntoa_long out (ntoa_format out (pre_format_long D m false))
                    m in
                Ok (d, va))
    by reflexivity.
  rewrite E. cbv zeta.
  replace (wrap_u LONG_BITS v) with v
    by (unfold wrap_u, LONG_BITS; rewrite Z.mod_small; lia).
  destruct (field_long out p FLAGS_LONG i dc v false) as (d' & H1 & H2);
    [lia|right; now left|].
  rewrite H1. cbn [bind]. exists d'. split; [reflexivity|exact H2].
Qed.

Lemma convert_unsigned_long_long {T} (out : ascii -> T -> T) p i b dc v va :
  0 <= v < 2 ^ 64 ->
  exists d',
    convert_integer out
      (mk_data p (Z.lor FLAGS_LONG FLAGS_LONG_LONG) i 0 0 b dc) "u"
      (VLongLong v :: va)
    = Ok (d', va)
    /\ ptr d' = feed out (decimal_repr (powers 20) v) p.
Proof.
  intros Hv.
  assert (E : convert_integer out
                (mk_data p (Z.lor FLAGS_LONG FLAGS_LONG_LONG) i 0 0 b dc) "u"
                (VLongLong v :: va)
              = let D :=
                  mk_data p (Z.lor FLAGS_LONG FLAGS_LONG_LONG) i 0 0
                    BASE_DECIMAL dc in
                let m := wrap_u LONG_LONG_BITS v in
                let* d :=
                  ntoa_long_long out
                    (ntoa_format out (pre_format_long_long D m false)) m in
                Ok (d, va))
    by reflexivity.
  rewrite E. cbv zeta.
  replace (wrap_u LONG_LONG_BITS v) with v
    by (unfold wrap_u, LONG_LONG_BITS; rewrite Z.mod_small; lia).
  destruct (field_long_long out p (Z.lor FLAGS_LONG FLAGS_LONG_LONG) i dc
              v false) as (d' & H1 & H2);
    [lia|right; right; now left|].
  rewrite H1. cbn [bind]. exists d'. split; [reflexivity|exact H2].
Qed.

Lemma eval_specifier_integer {T} (out : ascii -> T -> T) (d : data_t T)
    c rest va :
  is_integer_conversion c = true ->
  eval_specifier out d (c :: rest) va
  = let* (d', va') := convert_integer out d c va in Ok (d', rest, va').
Proof.
  intros H. unfold eval_specifier. cbn [deref bind]. now rewrite H.
Qed.

Lemma run_specifier {T} (out : ascii -> T -> T) p f c va fuel :
  is_integer_conversion c = true ->
  (let* d :=
     (let* (d', f', va') :=
        eval_specifier out (mk_data p f 0 0 0 BASE_BINARY 0) [c; NUL] va in
      format_loop out (S fuel) d' f' va') in
   Ok (ptr d, idx d))
  = one_conversion out p f c va.
Proof.
  intros H. rewrite eval_specifier_integer by assumption.
  unfold one_conversion.
  destruct (convert_integer out _ c va) as [[d' va']|e]; reflexivity.
Qed.

Lemma run_d {T} (out : ascii -> T -> T) p va :
  format_out out p (cstr "%d") va = one_conversion out p 0 "d" va.
Proof. exact (run_specifier out p 0 "d" va 2 eq_refl). Qed.

Lemma run_i {T} (out : ascii -> T -> T) p va :
  format_out out p (cstr "%i") va = one_conversion out p 0 "i" va.
Proof. exact (run_specifier out p 0 "i" va 2 eq_refl). Qed.

Lemma run_u {T} (out : ascii -> T -> T) p va :
  format_out out p (cstr "%u") va = one_conversion out p 0 "u" va.
Proof. exact (run_specifier out p 0 "u" va 2 eq_refl). Qed.

Lemma run_ld {T} (out : ascii -> T -> T) p va :
  format_out out p (cstr "%ld") va = one_conversion out p FLAGS_LONG "d" va.
Proof. exact (run_specifier out p FLAGS_LONG "d" va 3 eq_refl). Qed.

Lemma run_lu {T} (out : ascii -> T -> T) p va :
  format_out out p (cstr "%lu") va = one_conversion out p FLAGS_LONG "u" va.
Proof. exact (run_specifier out p FLAGS_LONG "u" va 3 eq_refl). Qed.

Lemma run_lld {T} (out : ascii -> T -> T) p va :
  format_out out p (cstr "%lld") va
  = one_conversion out p (Z.lor FLAGS_LONG FLAGS_LONG_LONG) "d" va.
Proof.
  exact (run_specifier out p (Z.lor FLAGS_LONG FLAGS_LONG_LONG) "d" va 4
           eq_refl).
Qed.

Lemma run_llu {T} (out : ascii -> T -> T) p va :
  format_out out p (cstr "%llu") va
  = one_conversion out p (Z.lor FLAGS_LONG FLAGS_LONG_LONG) "u" va.
Proof.
  exact (run_specifier out p (Z.lor FLAGS_LONG FLAGS_LONG_LONG) "u" va 4
           eq_refl).
Qed.

Lemma parse_digits_all_digits s : forall acc r,
  parse_digits acc s = Some r -> forallb is_digit s = true.
Proof.
  induction s as [|c s IH]; intros acc r H; [reflexivity|].
  cbn [parse_digits forallb] in *.
  destruct (is_digit c); [|discriminate]. cbn [andb]. exact (IH _ _ H).
Qed.

Lemma digits_non_null s : forallb is_digit s = true -> filter non_null s = s.
Proof.
  induction s as [|c s IH]; intros H; [reflexivity|].
  cbn [forallb] in H. apply andb_true_iff in H. destruct H as [Hc Hs].
  cbn [filter].
  assert (N : non_null c = true).
  { unfold non_null. destruct (Ascii.eqb_spec c NUL) as [->|]; [|reflexivity].
    discriminate Hc. }
  rewrite N, IH by assumption. reflexivity.
Qed.

Lemma decimal_repr_parses N m :
  (N < 256)%nat -> 0 <= m < 10 ^ Z.of_nat N ->
  parse_decimal (decimal_repr (powers N) m) = Some m
  /\ filter non_null (decimal_repr (powers N) m) = decimal_repr (powers N) m.
Proof.
  intros HN Hm. destruct (parse_decimal_repr N m HN Hm) as [P D].
  split.
  - unfold parse_decimal.
    destruct (decimal_repr (powers N) m) as [|c s] eqn:E; [discriminate P|].
    destruct (Ascii.eqb_spec c "-") as [->|]; [|exact P].
    specialize (D _ _ eq_refl). discriminate D.
  - apply digits_non_null. unfold parse_unsigned in P.
    destruct (decimal_repr (powers N) m) as [|c s] eqn:E; [reflexivity|].
    exact (parse_digits_all_digits _ _ _ P).
Qed.

Lemma signed_repr_parses N v :
  (N < 256)%nat -> Z.abs v < 10 ^ Z.of_nat N ->
  parse_decimal (signed_repr (powers N) v) = Some v
  /\ filter non_null (signed_repr (powers N) v) = signed_repr (powers N) v.
Proof.
  intros HN Hv. unfold signed_repr.
  destruct (parse_decimal_repr N (Z.abs v) HN) as [P D]; [lia|].
  destruct (decimal_repr_parses N (Z.abs v) HN) as [P' F]; [lia|].
  destruct (v <? 0) eqn:Hs.
  - apply Z.ltb_lt in Hs. cbn [app filter]. split.
    + unfold parse_decimal. change (Ascii.eqb "-" "-") with true. cbv iota.
      rewrite P. cbn [option_map]. f_equal. lia.
    + change (non_null "-") with true. cbv iota. now rewrite F.
  - apply Z.ltb_ge in Hs. cbn [app]. split; [|exact F].
    rewrite P'. f_equal. lia.
Qed.

Lemma prints_back_intro format arg v f c repr :
  format_out (out_char tty_putchar) [] (cstr format) [arg]
  = one_conversion (out_char tty_putchar) [] f c [arg] ->
  (exists d',
      convert_integer (out_char tty_putchar) (mk_data [] f 0 0 0 BASE_BINARY 0)
        c [arg]
      = Ok (d', [])
      /\ ptr d' = feed (out_char tty_putchar) repr []) ->
  parse_decimal repr = Some v /\ filter non_null repr = repr ->
  prints_back format arg v.
Proof.
  intros Hrun (d' & Hc & Hp) [Hparse Hnn].
  exists repr, (idx d'). split; [|exact Hparse].
  unfold printf_. rewrite Hrun. unfold one_conversion. rewrite Hc.
  cbn [rmap fst]. rewrite Hp, feed_out_char, Hnn.
  f_equal. f_equal. exact (feed_log repr []).
Qed.

(** C6: for every value of [int], [long] and [long long], signed or
    unsigned, the decimal conversion prints a numeral (with a minus sign for
    a negative value) that reads back as the value. *)
Theorem C6_decimal_round_trip :
  (forall v, - 2 ^ 31 <= v < 2 ^ 31 ->
      prints_back "%d" (VInt v) v /\ prints_back "%i" (VInt v) v
      /\ prints_back "%ld" (VLong v) v)
  /\ (forall v, 0 <= v < 2 ^ 32 ->
         prints_back "%u" (VInt v) v /\ prints_back "%lu" (VLong v) v)
  /\ (forall v, - 2 ^ 63 <= v < 2 ^ 63 -> prints_back "%lld" (VLongLong v) v)
  /\ (forall v, 0 <= v < 2 ^ 64 -> prints_back "%llu" (VLongLong v) v).
Proof.
  split; [|split; [|split]].
  - intros v Hv. split; [|split].
    + apply (prints_back_intro "%d" (VInt v) v 0 "d" (signed_repr (powers 10) v)).
      * apply run_d.
      * apply convert_signed_int; [now left|assumption].
      * apply signed_repr_parses; lia.
    + apply (prints_back_intro "%i" (VInt v) v 0 "i" (signed_repr (powers 10) v)).
      * apply run_i.
      * apply convert_signed_int; [now right|assumption].
      * apply signed_repr_parses; lia.
    + apply (prints_back_intro "%ld" (VLong v) v FLAGS_LONG "d"
               (signed_repr (powers 10) v)).
      * apply run_ld.
      * now apply convert_signed_long.
      * apply signed_repr_parses; lia.
  - intros v Hv. split.
    + apply (prints_back_intro "%u" (VInt v) v 0 "u" (decimal_repr (powers 10) v)).
      * apply run_u.
      * now apply convert_unsigned_int.
      * apply decimal_repr_parses; lia.
    + apply (prints_back_intro "%lu" (VLong v) v FLAGS_LONG "u"
               (decimal_repr (powers 10) v)).
      * apply run_lu.
      * now apply convert_unsigned_long.
      * apply decimal_repr_parses; lia.
  - intros v Hv.
    apply (prints_back_intro "%lld" (VLongLong v) v
             (Z.lor FLAGS_LONG FLAGS_LONG_LONG) "d"
             (signed_repr (powers 20) v)).
    + apply run_lld.
    + now apply convert_signed_long_long.
    + apply signed_repr_parses; lia.
  - intros v Hv.
    apply (prints_back_intro "%llu" (VLongLong v) v
             (Z.lor FLAGS_LONG FLAGS_LONG_LONG) "u"
             (decimal_repr (powers 20) v)).
    + apply run_llu.
    + now apply convert_unsigned_long_long.
    + apply decimal_repr_parses; lia.
Qed.

Lemma C6_decimal_round_trip_witness :
  prints_back "%d" (VInt (-2147483648)) (-2147483648)
  /\ prints_back "%u" (VInt 4294967295) 4294967295
  /\ prints_back "%lld" (VLongLong (-9223372036854775808))
       (-9223372036854775808)
  /\ prints_back "%llu" (VLongLong 18446744073709551615)
       18446744073709551615.
Proof.
  split; [|split; [|split]].
  - apply (proj1 C6_decimal_round_trip (-2147483648)). lia.
  - apply (proj1 (proj2 C6_decimal_round_trip) 4294967295).
    lia.
  - apply (proj1 (proj2 (proj2 C6_decimal_round_trip))
             (-9223372036854775808)).
    lia.
  - apply (proj2 (proj2 (proj2 C6_decimal_round_trip))
             18446744073709551615).
    lia.
Defined.

Lemma C6_examples :
  printf_ tty_putchar [] (cstr "%d") [VInt (-2147483648)]
  = Ok (chars "-2147483648", 11)
  /\ parse_decimal (chars "-2147483648") = Some (-2147483648)
  /\ printf_ tty_putchar [] (cstr "%llu") [VLongLong 18446744073709551615]
     = Ok (chars "18446744073709551615", 20)
  /\ printf_ tty_putchar [] (cstr "%d|%u|%ld") [VInt 0; VInt 0; VLong 7]
     = Ok (chars "0|0|7", 5).
Proof. repeat split; reflexivity. Qed.

(** ** C2: field width of a right-justified unsigned number *)

Lemma test_lor f a b : test f (Z.lor a b) = test f a || test f b.
Proof.
  unfold test. rewrite Z.land_lor_distr_r.
  destruct (Z.land f a =? 0) eqn:Ea, (Z.land f b =? 0) eqn:Eb; cbn [negb orb].
  - apply Z.eqb_eq in Ea, Eb. now rewrite Ea, Eb.
  - apply Z.eqb_eq in Ea. apply Z.eqb_neq in Eb. rewrite Ea, Z.lor_0_l.
    apply negb_true_iff. now apply Z.eqb_neq.
  - apply Z.eqb_neq in Ea. apply negb_true_iff, Z.eqb_neq.
    intros H. apply Z.lor_eq_0_iff in H. tauto.
  - apply Z.eqb_neq in Ea. apply negb_true_iff, Z.eqb_neq.
    intros H. apply Z.lor_eq_0_iff in H. tauto.
Qed.

Lemma count_shift_nonneg fuel : forall bits value digits,
  0 <= digits -> 0 <= count_shift fuel bits value digits.
Proof.
  induction fuel as [|fuel IH]; intros bits value digits H; cbn [count_shift];
    [exact H|].
  destruct (0 <? value); [|exact H].
  apply IH. unfold u8, wrap_u. apply Z.mod_pos_bound. lia.
Qed.

(** The loop of the power-of-two bases sends out [digit_count] characters. *)
Lemma while_pow2 {T} (out : ascii -> T -> T) value n : forall d : data_t T,
  digit_count d = Z.of_nat n ->
  exists digits,
    while n (fun d => 0 <? digit_count d)
      (fun d =>
         let digit :=
           u8 (Z.land
                 (Z.shiftr value ((digit_count d - 1) * base_bits (base d)))
                 (base_mask (base d))) in
         set_digit_count (digit_count d - 1) (do_out out d (digit_char d digit)))
      d
    = set_digit_count 0 (emitted out digits d)
    /\ List.length digits = n.
Proof.
  match goal with |- context [while _ _ ?b] => set (body := b) end.
  induction n as [|n IH]; intros d Hd.
  - exists []. split; [|reflexivity]. cbn. apply data_eq; cbn; auto.
  - cbn [while].
    replace (0 <? digit_count d) with true by (symmetry; apply Z.ltb_lt; lia).
    destruct (IH (body d)) as (digits & E & L); [subst body; cbn; lia|].
    rewrite E.
    match eval cbv beta zeta delta [body] in (body d) with
    | set_digit_count _ (do_out _ _ ?c) =>
        exists (c :: digits); split; [|cbn; now rewrite L];
        change (body d) with (set_digit_count (digit_count d - 1) (do_out out d c))
    end.
    change (emitted out (?c :: digits) d)
      with (emitted out digits (do_out out d c)).
    rewrite emitted_set_digit_count. reflexivity.
Qed.

Lemma length_dec_digits n : forall v, List.length (dec_digits n v) = n.
Proof. induction n as [|n IH]; intros v; cbn; [|rewrite IH]; reflexivity. Qed.

(** The converter after the layout, for a nonzero value in a field that is
    not left-justified: [digit_count] digits and nothing else. *)
Lemma ntoa_long_digits {T} (out : ascii -> T -> T) (d : data_t T) value :
  0 < value < 2 ^ 32 ->
  has d FLAGS_PRECISION = false -> has d FLAGS_LEFT = false ->
  digit_count d = get_digits_long value (base d) ->
  exists d' digits,
    ntoa_long out d value = Ok d'
    /\ ptr d' = feed out digits (ptr d)
    /\ List.length digits = Z.to_nat (digit_count d).
Proof.
  intros Hv HP HL Hd. unfold ntoa_long, ntoa. rewrite HP. cbn [negb orb].
  replace (value =? 0) with false by (symmetry; apply Z.eqb_neq; lia).
  unfold get_digits_long in Hd.
  destruct (base_eqb (base d) BASE_DECIMAL).
  - change pow10_long with (powers 10) in *.
    destruct (count_powers 10 value) as (K1 & K2 & K3); [lia|lia|].
    rewrite <- Hd in *.
    rewrite (ntoa_decimal_closed out 10 (Z.to_nat (digit_count d)))
      by (rewrite ?Z2Nat.id; lia).
    cbn [bind]. eexists. eexists. split; [reflexivity|].
    change (has (set_digit_count 0 ?x) ?m) with (has x m).
    rewrite has_emitted, HL. cbn [ptr set_digit_count].
    rewrite ptr_emitted. split; [reflexivity|apply length_dec_digits].
  - assert (Hn : 0 <= digit_count d)
      by (rewrite Hd; apply count_shift_nonneg; lia).
    destruct (while_pow2 out value (Z.to_nat (digit_count d)) d)
      as (digits & E & L); [lia|].
    match type of E with
    | ?l = _ => change (ntoa_pow2 out d value) with l
    end.
    rewrite E. cbn [bind].
    change (has (set_digit_count 0 ?x) ?m) with (has x m).
    rewrite has_emitted, HL. eexists. exists digits.
    split; [reflexivity|]. cbn [ptr set_digit_count].
    rewrite ptr_emitted. split; [reflexivity|exact L].
Qed.

(** For a nonzero value the right-justified field without sign, prefix and
    precision has the width asked for: the padding, then the digits. *)
Lemma unsigned_field_nonzero {T} (out : ascii -> T -> T) (d : data_t T)
    value :
  0 < value < 2 ^ 32 ->
  has d FLAGS_LEFT = false -> has d FLAGS_PRECISION = false ->
  has d FLAGS_HASH = false ->
  has d (Z.lor FLAGS_NEGATIVE (Z.lor FLAGS_PLUS FLAGS_SPACE)) = false ->
  precision d = 0 ->
  get_digits_long value (base d) <= width d ->
  exists d' digits,
    ntoa_long out (ntoa_format out (pre_format_long d value false)) value
    = Ok d'
    /\ ptr d'
       = feed out
           (repeat (if has d FLAGS_ZEROPAD then "0"%char else " "%char)
              (Z.to_nat (width d - get_digits_long value (base d)))
            ++ digits)
           (ptr d)
    /\ List.length digits = Z.to_nat (get_digits_long value (base d)).
Proof.
  intros Hv HL HP HH HS Hp Hw.
  set (dc := get_digits_long value (base d)) in *.
  assert (Hdc : 0 <= dc).
  { subst dc. unfold get_digits_long. destruct (base_eqb _ _).
    - change pow10_long with (powers 10).
      apply (count_powers 10 value); lia.
    - apply count_shift_nonneg. lia. }
  assert (E1 : pre_format_long d value false = set_digit_count dc d).
  { unfold pre_format_long. cbv zeta.
    replace (value =? 0) with false by (symmetry; apply Z.eqb_neq; lia).
    reflexivity. }
  rewrite E1. set (d1 := set_digit_count dc d).
  assert (F1 : flags d1 = flags d) by reflexivity.
  assert (HS' := HS). unfold has in HS'. rewrite !test_lor in HS'.
  apply orb_false_iff in HS'. destruct HS' as [SN HS'].
  apply orb_false_iff in HS'. destruct HS' as [SP SS].
  assert (LW : layout_width d1
               = set_precision 0 (set_width (width d - dc) d1)).
  { unfold layout_width. subst d1. unfold has in *.
    destruct d as [p f i w pr b dcount]. cbn [width precision flags base
      digit_count set_digit_count set_width set_precision] in *.
    subst pr. rewrite HS, andb_false_r.
    cbn [flags set_precision set_width set_digit_count]. rewrite HP.
    cbn [flags set_precision set_width set_digit_count]. rewrite HH.
    rewrite (Z.max_l (w - dc) 0), (Z.max_r (0 - dc) 0) by lia.
    reflexivity. }
  assert (LC : layout_chars d1
               = repeat (if has d FLAGS_ZEROPAD then "0"%char else " "%char)
                   (Z.to_nat (width d - dc))).
  { unfold layout_chars. cbv zeta. rewrite LW.
    unfold pad_chars, sign_chars, prefix_chars, zero_chars, has in *.
    cbn [flags width precision base set_precision set_width].
    rewrite F1, HL, HH, SN, SP, SS. cbn [negb andb Z.to_nat repeat app].
    destruct (test (flags d) FLAGS_ZEROPAD); cbn [negb];
      now rewrite ?app_nil_r. }
  set (d2 := ntoa_format out d1).
  assert (F2 : flags d2 = flags d)
    by (subst d2; now rewrite (proj1 (ntoa_format_fields out d1))).
  assert (D2 : digit_count d2 = dc /\ base d2 = base d
               /\ ptr d2 = feed out (layout_chars d1) (ptr d)).
  { subst d2. rewrite ntoa_format_closed. unfold layout_final.
    destruct (negb _);
      cbn [digit_count base ptr set_width set_precision];
      rewrite digit_count_emitted, base_emitted, ptr_emitted, LW;
      repeat split. }
  destruct D2 as (D2 & B2 & P2).
  destruct (ntoa_long_digits out d2 value) as (d' & digits & E & Pd & L).
  - assumption.
  - now rewrite (has_flags d2 d).
  - now rewrite (has_flags d2 d).
  - rewrite D2, B2. reflexivity.
  - exists d', digits. split; [exact E|]. split.
    + rewrite Pd, P2, LC. symmetry. apply feed_app.
    + now rewrite L, D2.
Qed.

(** C2: the width fails for the value zero, whose digit count is 0 while
    one digit is printed after the full width of padding: ["%5u"] with 0
    gives six characters.  For the nonzero values it holds, as
    [unsigned_field_nonzero] shows. *)
Theorem C2_zero_overflows_width :
  get_digits_long 0 BASE_DECIMAL = 0
  /\ printf_ tty_putchar [] (cstr "%5u") [VInt 0] = Ok (chars "     0", 6)
  /\ printf_ tty_putchar [] (cstr "%5u") [VInt 7] = Ok (chars "    7", 5).
Proof. repeat split; reflexivity. Qed.

(** ** C8, concluded *)

Lemma parse_digits_fold s : forall acc r,
  parse_digits acc s = Some r ->
  fold_left (fun acc c => acc * 10 + (code c - code "0")) s acc = r.
Proof.
  induction s as [|c s IH]; intros acc r H; cbn [parse_digits fold_left] in *.
  - now injection H.
  - destruct (is_digit c); [|discriminate]. exact (IH _ _ H).
Qed.

(** The numeral that the decimal conversion prints for a positive number has
    no leading zero and denotes the number. *)
Lemma decimal_repr_numeral N w :
  (N < 256)%nat -> 0 < w < 10 ^ Z.of_nat N ->
  is_numeral (decimal_repr (powers N) w) = true
  /\ numeral_value (decimal_repr (powers N) w) = w.
Proof.
  intros HN Hw.
  destruct (count_pow10_spec N 0 w) as (H1 & H2 & H3); [lia|now left|].
  destruct (count_powers N w HN) as (K1 & K2 & K3); [lia|].
  cbn [Nat.add Z.of_nat] in *. fold (powers N) in *.
  unfold decimal_repr.
  replace (w =? 0) with false by (symmetry; apply Z.eqb_neq; lia).
  set (r := count_pow10 (powers N) w 0) in *.
  assert (Hr : 0 < r) by (apply K3; lia).
  specialize (H3 Hr).
  destruct (Z.to_nat r) as [|k] eqn:Ek; [lia|].
  assert (Er : r = Z.of_nat (S k)) by lia.
  assert (Hv : 0 <= w < 10 ^ Z.of_nat (S k)) by (rewrite <- Er; lia).
  assert (Hlow : 10 ^ Z.of_nat k <= w).
  { replace (Z.of_nat k) with (r - 1) by lia. exact H3. }
  pose proof (parse_dec_digits (S k) w 0 Hv) as P.
  split.
  - pose proof (parse_digits_all_digits _ _ _ P) as All.
    cbn [dec_digits] in All |- *. unfold is_numeral.
    rewrite All, andb_true_r. apply negb_true_iff.
    destruct (Ascii.eqb_spec (chr (w / 10 ^ Z.of_nat k + code "0")) "0")
      as [E|]; [|reflexivity].
    apply (f_equal code) in E.
    pose proof (leading_digit k w Hv) as Hq.
    rewrite code_chr in E by (change (code "0") with 48; lia).
    pose proof (pow10_pos k) as Hp.
    assert (1 <= w / 10 ^ Z.of_nat k)
      by (apply Z.div_le_lower_bound; lia).
    lia.
  - unfold numeral_value. rewrite (parse_digits_fold _ _ _ P). lia.
Qed.

Lemma star_negative_is_minus_numeral {T} (out : ascii -> T -> T) p w v :
  0 < w <= 2 ^ 31 ->
  format_out out p (cstr "%*d") [VInt (- w); VInt v]
  = format_out out p
      ("%"%char :: "-"%char :: decimal_repr (powers 10) w ++ cstr "d")
      [VInt v].
Proof.
  intros Hw.
  destruct (decimal_repr_numeral 10 w) as [Hn Hv]; [lia|lia|].
  rewrite <- Hv at 1. apply star_negative_is_minus; [exact Hn|].
  rewrite Hv. lia.
Qed.

(** C8: a star width with the negative argument [- w] gives the same result,
    for every sink and every value, as a minus flag followed by the decimal
    numeral of [w] (and by any numeral without leading zero that denotes
    [w]); the star stage sets the left-justify flag and takes [w] as the
    width for the argument [- w], and takes a non-negative argument as it
    is (both in the eight bits of the width field).  ["%*d"] with [-5] and 3
    prints ["3    "]. *)
Theorem C8_negative_star_width :
  (forall T (out : ascii -> T -> T) p w v,
      0 < w <= 2 ^ 31 ->
      let numeral := decimal_repr (powers 10) w in
      is_numeral numeral = true /\ numeral_value numeral = w
      /\ format_out out p (cstr "%*d") [VInt (- w); VInt v]
         = format_out out p ("%"%char :: "-"%char :: numeral ++ cstr "d")
             [VInt v])
  /\ (forall T (out : ascii -> T -> T) p ds v,
      is_numeral ds = true -> numeral_value ds <= 2 ^ 31 ->
      format_out out p (cstr "%*d") [VInt (- numeral_value ds); VInt v]
      = format_out out p ("%"%char :: "-"%char :: ds ++ cstr "d") [VInt v])
  /\ (forall T (d : data_t T) format va w,
         - 2 ^ 31 <= w < 2 ^ 31 ->
         eval_width d ("*"%char :: format) (VInt w :: va)
         = Ok (if w <? 0
               then set_width (u8 (- w))
                      (set_flags (set_bits (flags d) FLAGS_LEFT)
                         (set_width 0 d))
               else set_width (u8 w) (set_width 0 d),
               format, va))
  /\ rmap fst (printf_ tty_putchar [] (cstr "%*d") [VInt (-5); VInt 3])
     = Ok (chars "3    ")
  /\ rmap fst (printf_ tty_putchar [] (cstr "%-5d") [VInt 3])
     = Ok (chars "3    ")
  /\ rmap fst (printf_ tty_putchar [] (cstr "%*d") [VInt 5; VInt 3])
     = Ok (chars "    3").
Proof.
  split; [|split; [|split; [|repeat split; reflexivity]]].
  - intros T out p w v Hw numeral.
    destruct (decimal_repr_numeral 10 w) as [Hn Hv]; [lia|lia|].
    split; [exact Hn|]. split; [exact Hv|].
    now apply star_negative_is_minus_numeral.
  - intros. now apply star_negative_is_minus.
  - intros. now apply star_width_stage.
Qed.

Lemma C8_negative_star_width_witness :
  0 < 12 <= 2 ^ 31
  /\ decimal_repr (powers 10) 12 = chars "12"
  /\ printf_ tty_putchar [] (cstr "%*d") [VInt (-12); VInt 3]
     = printf_ tty_putchar [] (cstr "%-12d") [VInt 3]
  /\ printf_ tty_putchar [] (cstr "%*d") [VInt (-5); VInt 3]
     = printf_ tty_putchar [] (cstr "%-5d") [VInt 3].
Proof.
  split; [lia|]. split; [reflexivity|]. split.
  - exact (proj2 (proj2 (proj1 C8_negative_star_width _
                           (out_char tty_putchar) [] 12 3 ltac:(lia)))).
  - exact (proj1 (proj2 C8_negative_star_width) _ (out_char tty_putchar) []
             (chars "5") 3 eq_refl ltac:(discriminate)).
Defined.

(** ** The bound on the iterations of the main loop is never hit *)

Lemma eval_flags_length {T} format : forall (d d' : data_t T) format',
  eval_flags d format = Ok (d', format') ->
  (List.length format' <= List.length format)%nat.
Proof.
  induction format as [|c format IH]; intros d d' format' H;
    cbn [eval_flags] in H; [discriminate|].
  repeat match type of H with
         | (if ?b then _ else _) = _ =>
             destruct b; [apply IH in H; cbn [List.length]; lia|]
         end.
  injection H as _ <-. lia.
Qed.

Lemma atoi_from_length str : forall i n str',
  atoi_from i str = Ok (n, str') ->
  (List.length str' <= List.length str)%nat.
Proof.
  induction str as [|c str IH]; intros i n str' H; cbn [atoi_from] in H;
    [discriminate|].
  destruct (is_digit c).
  - apply IH in H. cbn [List.length]. lia.
  - injection H as _ <-. lia.
Qed.

Lemma next_length (format : list ascii) :
  (List.length (next format) <= List.length format)%nat.
Proof. destruct format; cbn; lia. Qed.

Lemma eval_width_length {T} (d d' : data_t T) format format' va va' :
  eval_width d format va = Ok (d', format', va') ->
  (List.length format' <= List.length format)%nat.
Proof.
  unfold eval_width. cbv zeta.
  destruct (deref format) as [c|e]; cbn [bind]; [|discriminate].
  destruct (is_digit c).
  - unfold atoi. destruct (atoi_from 0 format) as [[n f]|e] eqn:E;
      cbn [bind]; [|discriminate].
    intros H. injection H as _ <- _. exact (atoi_from_length _ _ _ _ E).
  - destruct (Ascii.eqb c "*").
    + destruct (va_arg_int va) as [[w v]|e]; cbn [bind]; [|discriminate].
      intros H. injection H as _ <- _. apply next_length.
    + intros H. injection H as _ <- _. lia.
Qed.

Lemma eval_precision_length {T} (d d' : data_t T) format format' va va' :
  eval_precision d format va = Ok (d', format', va') ->
  (List.length format' <= List.length format)%nat.
Proof.
  unfold eval_precision. cbv zeta.
  destruct (deref format) as [c|e]; cbn [bind]; [|discriminate].
  destruct (Ascii.eqb c "."); [|intros H; injection H as _ <- _; lia].
  pose proof (next_length format) as Hn.
  destruct (deref (next format)) as [c'|e]; cbn [bind]; [|discriminate].
  destruct (is_digit c').
  - unfold atoi. destruct (atoi_from 0 (next format)) as [[n f]|e] eqn:E;
      cbn [bind]; [|discriminate].
    intros H. injection H as _ <- _.
    pose proof (atoi_from_length _ _ _ _ E). lia.
  - destruct (Ascii.eqb c' "*").
    + destruct (va_arg_int va) as [[w v]|e]; cbn [bind]; [|discriminate].
      intros H. injection H as _ <- _.
      pose proof (next_length (next format)). lia.
    + intros H. injection H as _ <- _. lia.
Qed.

Lemma eval_length_length {T} (d d' : data_t T) format format' :
  eval_length d format = Ok (d', format') ->
  (List.length format' <= List.length format)%nat.
Proof.
  unfold eval_length. cbv zeta.
  pose proof (next_length format) as Hn.
  pose proof (next_length (next format)) as Hnn.
  destruct (deref format) as [c|e]; cbn [bind]; [|discriminate].
  repeat match goal with
         | |- context [if ?b then _ else _] => destruct b
         | |- context [bind ?m _] => destruct m as [?|?]; cbn [bind]
         end;
  intros H; try discriminate H; injection H as _ <-; lia.
Qed.

Lemma eval_specifier_length {T} (out : ascii -> T -> T) (d d' : data_t T)
    format format' va va' :
  eval_specifier out d format va = Ok (d', format', va') ->
  (List.length format' < List.length format)%nat.
Proof.
  intros H. pose proof (eval_specifier_next _ _ _ _ _ _ _ H) as ->.
  unfold eval_specifier in H. destruct format; [discriminate H|].
  cbn. lia.
Qed.

Lemma directive_length {T} (out : ascii -> T -> T) (d d' : data_t T)
    format format' va va' :
  directive out d format va = Ok (d', format', va') ->
  (List.length format' < List.length format)%nat.
Proof.
  unfold directive. cbv zeta.
  destruct (eval_flags (set_flags 0 d) format) as [[d1 f1]|e] eqn:E1;
    cbn [bind]; [|discriminate].
  destruct (eval_width d1 f1 va) as [[[d2 f2] va2]|e] eqn:E2;
    cbn [bind]; [|discriminate].
  destruct (eval_precision d2 f2 va2) as [[[d3 f3] va3]|e] eqn:E3;
    cbn [bind]; [|discriminate].
  destruct (eval_length d3 f3) as [[d4 f4]|e] eqn:E4;
    cbn [bind]; [|discriminate].
  intros H.
  apply eval_flags_length in E1. apply eval_width_length in E2.
  apply eval_precision_length in E3. apply eval_length_length in E4.
  apply eval_specifier_length in H. lia.
Qed.

Lemma in_time_bind {A B} (m : result A) (k : A -> result B) :
  in_time m -> (forall a, in_time (k a)) -> in_time (bind m k).
Proof.
  destruct m as [a|e]; cbn [bind]; intros Hm Hk; [apply Hk|exact Hm].
Qed.

Lemma in_time_ok {A} (a : A) : in_time (Ok a).
Proof. exact I. Qed.

Lemma in_time_deref p : in_time (deref p).
Proof. destruct p; exact I. Qed.

Lemma in_time_table_at table i : in_time (table_at table i).
Proof.
  unfold table_at. destruct (i <? 0); [exact I|].
  destruct (nth_error table (Z.to_nat i)); exact I.
Qed.

Lemma in_time_va_arg va :
  in_time (va_arg_int va) /\ in_time (va_arg_unsigned_int va)
  /\ in_time (va_arg_long va) /\ in_time (va_arg_unsigned_long va)
  /\ in_time (va_arg_long_long va) /\ in_time (va_arg_unsigned_long_long va)
  /\ in_time (va_arg_void_p va) /\ in_time (va_arg_char_p va).
Proof.
  unfold va_arg_int, va_arg_unsigned_int, va_arg_long, va_arg_unsigned_long,
    va_arg_long_long, va_arg_unsigned_long_long, va_arg_void_p, va_arg_char_p.
  destruct va as [|[v|v|v|v|s] va]; repeat split; exact I.
Qed.

Lemma in_time_atoi_from str : forall i, in_time (atoi_from i str).
Proof.
  induction str as [|c str IH]; intros i; cbn [atoi_from]; [exact I|].
  destruct (is_digit c); [apply IH|exact I].
Qed.

Lemma in_time_eval_flags {T} format : forall d : data_t T,
  in_time (eval_flags d format).
Proof.
  induction format as [|c format IH]; intros d; cbn [eval_flags];
    [exact I|].
  repeat match goal with
         | |- in_time (if ?b then _ else _) => destruct b; [apply IH|]
         end.
  exact I.
Qed.

Lemma in_time_strnlen_s s : forall maxsize len,
  in_time (strnlen_s s maxsize len).
Proof.
  induction s as [|c s IH]; intros maxsize len; cbn [strnlen_s];
    [exact I|].
  destruct (_ && _); [apply IH|exact I].
Qed.

Lemma in_time_string_output {T} (out : ascii -> T -> T) p :
  forall d : data_t T, in_time (string_output out p d).
Proof.
  induction p as [|c p IH]; intros d; cbn [string_output]; [exact I|].
  destruct (Ascii.eqb c NUL); [exact I|].
  destruct (negb (has d FLAGS_PRECISION)); [apply IH|].
  cbv zeta. destruct (negb (precision d =? 0)); [apply IH|exact I].
Qed.

Lemma in_time_ntoa_decimal {T} (out : ascii -> T -> T) table fuel :
  forall (d : data_t T) value, in_time (ntoa_decimal out table fuel d value).
Proof.
  induction fuel as [|fuel IH]; intros d value; cbn [ntoa_decimal];
    [exact I|].
  destruct (0 <? digit_count d); [|exact I]. cbv zeta.
  apply in_time_bind; [apply in_time_table_at|intros; apply IH].
Qed.

Lemma in_time_ntoa {T} (out : ascii -> T -> T) table (d : data_t T) value :
  in_time (ntoa out table d value).
Proof.
  unfold ntoa. apply in_time_bind; [|intros; exact I].
  destruct (_ || _); [|exact I].
  destruct (value =? 0); [exact I|].
  destruct (base_eqb _ _); [apply in_time_ntoa_decimal|exact I].
Qed.

Lemma in_time_print_string {T} (out : ascii -> T -> T) (d : data_t T) p :
  in_time (print_string out d p).
Proof.
  unfold print_string.
  apply in_time_bind; [apply in_time_strnlen_s|intros l]. cbv zeta.
  destruct (if negb (has d FLAGS_LEFT) then _ else _) as [l' d1].
  apply in_time_bind; [apply in_time_string_output|intros; exact I].
Qed.

Ltac in_time_conv :=
  cbv zeta;
  repeat first
    [ apply in_time_ok
    | apply in_time_ntoa
    | apply in_time_va_arg
    | apply in_time_bind; [|intros [? ?] || intros ?]
    | match goal with
      | |- in_time (if ?b then _ else _) => destruct b
      end ].

Lemma in_time_convert_integer {T} (out : ascii -> T -> T) (d : data_t T)
    c va :
  in_time (convert_integer out d c va).
Proof.
  cbv beta delta [convert_integer].
  repeat match goal with
         | |- in_time (let x := ?a in _) =>
             generalize a; intros ?; cbv beta zeta
         end.
  in_time_conv.
Qed.

Lemma in_time_convert_char {T} (out : ascii -> T -> T) (d : data_t T) va :
  in_time (convert_char out d va).
Proof.
  unfold convert_char. cbv zeta.
  destruct (if negb (has d FLAGS_LEFT) then _ else _) as [l d1].
  in_time_conv.
Qed.

Lemma in_time_convert_pointer {T} (out : ascii -> T -> T) (d : data_t T) va :
  in_time (convert_pointer out d va).
Proof. unfold convert_pointer. in_time_conv. Qed.

Lemma in_time_eval_width {T} (d : data_t T) format va :
  in_time (eval_width d format va).
Proof.
  unfold eval_width, atoi. cbv zeta.
  apply in_time_bind; [apply in_time_deref|intros c].
  destruct (is_digit c).
  - apply in_time_bind; [apply in_time_atoi_from|intros [? ?]; exact I].
  - destruct (Ascii.eqb c "*"); [|exact I].
    apply in_time_bind; [apply in_time_va_arg|intros [? ?]; exact I].
Qed.

Lemma in_time_eval_precision {T} (d : data_t T) format va :
  in_time (eval_precision d format va).
Proof.
  unfold eval_precision, atoi. cbv zeta.
  apply in_time_bind; [apply in_time_deref|intros c].
  destruct (Ascii.eqb c "."); [|exact I].
  apply in_time_bind; [apply in_time_deref|intros c'].
  destruct (is_digit c').
  - apply in_time_bind; [apply in_time_atoi_from|intros [? ?]; exact I].
  - destruct (Ascii.eqb c' "*"); [|exact I].
    apply in_time_bind; [apply in_time_va_arg|intros [? ?]; exact I].
Qed.

Lemma in_time_eval_length {T} (d : data_t T) format :
  in_time (eval_length d format).
Proof.
  unfold eval_length. cbv zeta.
  apply in_time_bind; [apply in_time_deref|intros c].
  repeat first
    [ exact I
    | apply in_time_bind; [apply in_time_deref|intros ?]
    | match goal with
      | |- in_time (if ?b then _ else _) => destruct b
      end ].
Qed.

Lemma in_time_eval_specifier {T} (out : ascii -> T -> T) (d : data_t T)
    format va :
  in_time (eval_specifier out d format va).
Proof.
  unfold eval_specifier.
  apply in_time_bind; [apply in_time_deref|intros c].
  destruct (is_integer_conversion c).
  { apply in_time_bind; [apply in_time_convert_integer|intros [? ?]; exact I]. }
  destruct (Ascii.eqb c "c").
  { apply in_time_bind; [apply in_time_convert_char|intros [? ?]; exact I]. }
  destruct (Ascii.eqb c "s").
  { apply in_time_bind; [apply in_time_va_arg|intros [? ?]].
    apply in_time_bind; [apply in_time_print_string|intros ?; exact I]. }
  destruct (Ascii.eqb c "p").
  { apply in_time_bind; [apply in_time_convert_pointer|intros [? ?]; exact I]. }
  destruct (Ascii.eqb c "%"); exact I.
Qed.

Lemma in_time_directive {T} (out : ascii -> T -> T) (d : data_t T)
    format va :
  in_time (directive out d format va).
Proof.
  unfold directive. cbv zeta.
  apply in_time_bind; [apply in_time_eval_flags|intros [d1 f1]].
  apply in_time_bind; [apply in_time_eval_width|intros [[d2 f2] va2]].
  apply in_time_bind; [apply in_time_eval_precision|intros [[d3 f3] va3]].
  apply in_time_bind; [apply in_time_eval_length|intros [d4 f4]].
  apply in_time_eval_specifier.
Qed.

Lemma format_loop_fuel {T} (out : ascii -> T -> T) fuel :
  forall (d : data_t T) format va,
    (List.length format < fuel)%nat ->
    in_time (format_loop out fuel d format va).
Proof.
  induction fuel as [|fuel IH]; intros d format va Hf; [lia|].
  cbn [format_loop]. destruct format as [|c format]; [exact I|].
  cbn [deref bind next tl].
  destruct (Ascii.eqb c NUL); [exact I|].
  destruct (negb (Ascii.eqb c "%")).
  - apply IH. cbn [List.length] in Hf. lia.
  - pose proof (in_time_directive out d format va) as Hd.
    destruct (directive out d format va) as [[[d' f'] va']|e] eqn:E;
      cbn [bind]; [|exact Hd].
    apply IH. apply directive_length in E. cbn [List.length] in Hf. lia.
Qed.

(** [format_out] returns: with the fuel it gives the loop, the result is a
    value or one of the faults of the source, never [OutOfFuel]. *)
Lemma format_out_terminates {T} (out : ascii -> T -> T) p format va :
  format_out out p format va <> Fault OutOfFuel.
Proof.
  unfold format_out.
  pose proof (format_loop_fuel out (S (List.length format)) (initial_data p)
                format va (Nat.lt_succ_diag_r _)) as H.
  destruct (format_loop out _ (initial_data p) format va) as [d|e];
    cbn [bind]; [discriminate|].
  intros E. injection E as ->. exact H.
Qed.

(** ** C10: reads of the format string *)

(** C10: [format_out] returns for every format, but a format that ends in
    a lone percent sign is read past its terminating null: the null is taken
    as the conversion character, sent to the sink and stepped over, and the
    next test of the loop reads outside the array. *)
Theorem C10_lone_percent_overruns :
  (forall T (out : ascii -> T -> T) p format va,
      format_out out p format va <> Fault OutOfFuel)
  /\ (forall T (out : ascii -> T -> T) p va,
         format_out out p (cstr "%") va = Fault ReadPastEnd)
  /\ (forall T (out : ascii -> T -> T) (d : data_t T) va,
         directive out d [NUL] va
         = Ok (do_out out
                 (set_precision 0 (set_width 0 (set_flags 0 d))) NUL,
               [], va))
  /\ printf_ tty_putchar [] (cstr "100%") [] = Fault ReadPastEnd
  /\ printf_ tty_putchar [] (cstr "%5") [] = Fault ReadPastEnd
  /\ printf_ tty_putchar [] (cstr "%l") [] = Fault ReadPastEnd.
Proof.
  split; [intros; apply format_out_terminates|].
  repeat split; reflexivity.
Qed.

(** * Further properties of the code *)

(** ** The eight bits of the count *)

Lemma u8_succ i : u8 (u8 i + 1) = u8 (i + 1).
Proof. unfold u8, wrap_u. now rewrite Zplus_mod_idemp_l. Qed.

Lemma bump_succ n i : bump (S n) i = bump n (u8 (i + 1)).
Proof. unfold bump. now rewrite Nat.iter_succ_r. Qed.

Lemma bump_u8 n : forall i, bump (S n) i = u8 (i + Z.of_nat (S n)).
Proof.
  induction n as [|n IH]; intros i; [reflexivity|].
  rewrite bump_succ, IH, Nat2Z.inj_succ, (Nat2Z.inj_succ (S n)).
  unfold u8, wrap_u. rewrite Zplus_mod_idemp_l. f_equal. lia.
Qed.

Lemma bump_from_zero n : bump n 0 = u8 (Z.of_nat n).
Proof. destruct n; [reflexivity|]. now rewrite bump_u8. Qed.

Lemma bump_add n m i : bump (n + m) i = bump m (bump n i).
Proof.
  unfold bump. rewrite Nat.add_comm. apply Nat.iter_add.
Qed.

(** ** X1: text and the doubled percent sign *)

Lemma directive_percent {T} (out : ascii -> T -> T) (d : data_t T) rest va :
  directive out d ("%"%char :: rest) va
  = Ok (do_out out (set_precision 0 (set_width 0 (set_flags 0 d))) "%",
        rest, va).
Proof. reflexivity. Qed.

Lemma format_loop_escape {T} (out : ascii -> T -> T) va s :
  forall fuel (d : data_t T),
    forallb non_null s = true ->
    (List.length (escape s) < fuel)%nat ->
    exists d',
      format_loop out fuel d (escape s ++ [NUL]) va = Ok d'
      /\ ptr d' = feed out s (ptr d)
      /\ idx d' = bump (List.length s) (idx d).
Proof.
  induction s as [|c s IH]; intros fuel d Hs Hf.
  - destruct fuel as [|fuel]; [cbn in Hf; lia|].
    exists d. repeat split.
  - cbn [forallb] in Hs. apply andb_true_iff in Hs. destruct Hs as [Hc Hs].
    unfold non_null in Hc. apply negb_true_iff in Hc.
    cbn [escape] in Hf |- *. destruct (Ascii.eqb c "%") eqn:Hp.
    + apply Ascii.eqb_eq in Hp. subst c.
      destruct fuel as [|fuel]; [cbn in Hf; lia|].
      cbn [app]. rewrite format_loop_percent, directive_percent. cbn [bind].
      destruct (IH fuel
                  (do_out out (set_precision 0 (set_width 0 (set_flags 0 d)))
                     "%") Hs) as (d' & E & P & I);
        [cbn [List.length] in Hf; lia|].
      exists d'. split; [exact E|]. split; [exact P|].
      rewrite I. cbn [List.length]. now rewrite bump_succ.
    + destruct fuel as [|fuel]; [cbn in Hf; lia|].
      cbn [app format_loop deref bind next tl]. rewrite Hc, Hp. cbn [negb].
      destruct (IH fuel (do_out out d c) Hs) as (d' & E & P & I);
        [cbn [List.length] in Hf; lia|].
      exists d'. split; [exact E|]. split; [exact P|].
      rewrite I. cbn [List.length]. now rewrite bump_succ.
Qed.

(** X1: a text without null character, with every percent sign doubled, is
    printed as it is, whatever the arguments; the count returned is the
    length of the text in eight bits. *)
Theorem escaped_text_verbatim :
  forall T (out : ascii -> T -> T) p s va,
    forallb non_null s = true ->
    format_out out p (escape s ++ [NUL]) va
    = Ok (feed out s p, u8 (Z.of_nat (List.length s))).
Proof.
  intros T out p s va Hs. unfold format_out.
  destruct (format_loop_escape out va s
              (S (List.length (escape s ++ [NUL]))) (initial_data p) Hs)
    as (d' & E & P & I).
  - rewrite length_app. cbn. lia.
  - rewrite E. cbn [bind]. rewrite P, I. cbn [ptr idx initial_data].
    now rewrite bump_from_zero.
Qed.

Lemma escaped_text_verbatim_witness :
  forallb non_null (chars "100% of 300 bytes") = true
  /\ format_out out_log [] (cstr "100%% of 300 bytes") [VInt 7]
     = Ok (chars "100% of 300 bytes", 17).
Proof.
  split; [reflexivity|].
  exact (escaped_text_verbatim _ out_log [] (chars "100% of 300 bytes")
           [VInt 7] eq_refl).
Defined.

(** ** X2: the length of a string, limited *)

Lemma strnlen_s_terminated s rest : forall maxsize len,
  forallb non_null s = true -> 0 <= maxsize ->
  strnlen_s (s ++ NUL :: rest) maxsize len
  = Ok (wrap_u INT_BITS (len + Z.min (Z.of_nat (List.length s)) maxsize)).
Proof.
  induction s as [|c s IH]; intros maxsize len Hs Hm.
  - cbn. do 2 f_equal. lia.
  - cbn [forallb] in Hs. apply andb_true_iff in Hs. destruct Hs as [Hc Hs].
    unfold non_null in Hc. cbn [app strnlen_s]. rewrite Hc. cbn [andb].
    destruct (0 <? maxsize) eqn:E.
    + apply Z.ltb_lt in E. rewrite IH by (try assumption; lia).
      do 2 f_equal. cbn [List.length]. lia.
    + apply Z.ltb_ge in E. do 2 f_equal. lia.
Qed.

Lemma strnlen_s_unterminated a : forall maxsize len,
  forallb non_null a = true -> 0 <= maxsize ->
  strnlen_s a maxsize len
  = if maxsize <? Z.of_nat (List.length a)
    then Ok (wrap_u INT_BITS (len + maxsize))
    else Fault ReadPastEnd.
Proof.
  induction a as [|c a IH]; intros maxsize len Ha Hm.
  - cbn [strnlen_s List.length].
    now replace (maxsize <? Z.of_nat 0) with false
      by (symmetry; apply Z.ltb_ge; lia).
  - cbn [forallb] in Ha. apply andb_true_iff in Ha. destruct Ha as [Hc Ha].
    unfold non_null in Hc. cbn [strnlen_s]. rewrite Hc. cbn [andb].
    destruct (0 <? maxsize) eqn:E.
    + apply Z.ltb_lt in E. rewrite IH by (try assumption; lia).
      cbn [List.length].
      destruct (maxsize - 1 <? Z.of_nat (List.length a)) eqn:F.
      * apply Z.ltb_lt in F.
        replace (maxsize <? Z.of_nat (S (List.length a))) with true
          by (symmetry; apply Z.ltb_lt; lia).
        do 2 f_equal. lia.
      * apply Z.ltb_ge in F.
        now replace (maxsize <? Z.of_nat (S (List.length a))) with false
          by (symmetry; apply Z.ltb_ge; lia).
    + apply Z.ltb_ge in E. cbn [List.length].
      replace (maxsize <? Z.of_nat (S (List.length a))) with true
        by (symmetry; apply Z.ltb_lt; lia).
      do 2 f_equal. lia.
Qed.

(** X2: [strnlen_s] returns the length of a terminated string, limited by
    [maxsize].  The limit does not bound the reads: in an array without
    terminator the element at index [maxsize] is read, so a limit that is
    the size of the array, or more, makes the function read past the end. *)
Theorem strnlen_s_limited :
  forall s maxsize,
    forallb non_null s = true -> 0 <= maxsize <= SIZE_MAX ->
    (forall rest,
        strnlen_s (s ++ NUL :: rest) maxsize 0
        = Ok (Z.min (Z.of_nat (List.length s)) maxsize))
    /\ strnlen_s s maxsize 0
       = (if maxsize <? Z.of_nat (List.length s) then Ok maxsize
          else Fault ReadPastEnd).
Proof.
  intros s maxsize Hs Hm.
  assert (R : forall x, 0 <= x <= maxsize -> wrap_u INT_BITS (0 + x) = x).
  { intros x Hx. unfold wrap_u. rewrite Z.mod_small; [lia|].
    unfold SIZE_MAX in Hm. change (2 ^ INT_BITS) with (2 ^ 32). lia. }
  split.
  - intros rest. rewrite strnlen_s_terminated by (try assumption; lia).
    now rewrite R by lia.
  - rewrite strnlen_s_unterminated by (try assumption; lia).
    now rewrite R by lia.
Qed.

Lemma strnlen_s_limited_witness :
  strnlen_s (cstr "tiny printf") 4 0 = Ok 4
  /\ strnlen_s (cstr "tiny printf") 40 0 = Ok 11
  /\ strnlen_s (chars "tiny") 3 0 = Ok 3
  /\ strnlen_s (chars "tiny") 4 0 = Fault ReadPastEnd.
Proof.
  pose proof (strnlen_s_limited (chars "tiny printf") 4 eq_refl
                ltac:(unfold SIZE_MAX; lia)) as A.
  pose proof (strnlen_s_limited (chars "tiny printf") 40 eq_refl
                ltac:(unfold SIZE_MAX; lia)) as B.
  pose proof (strnlen_s_limited (chars "tiny") 3 eq_refl
                ltac:(unfold SIZE_MAX; lia)) as C.
  pose proof (strnlen_s_limited (chars "tiny") 4 eq_refl
                ltac:(unfold SIZE_MAX; lia)) as D.
  split; [exact (proj1 A [])|]. split; [exact (proj1 B [])|].
  split; [exact (proj2 C)|exact (proj2 D)].
Defined.

(** ** X3, X4, X5: the fields of a string and of a character *)

Section Fields.

Context {T : Type}.
Variable out : ascii -> T -> T.

Lemma pad_from_closed fuel : forall l (d : data_t T),
  0 <= l -> width d < 2 ^ 32 ->
  (Z.to_nat (width d - l) < fuel)%nat ->
  snd (pad_from out fuel l d)
  = emitted out (repeat " "%char (Z.to_nat (width d - l))) d.
Proof.
  induction fuel as [|fuel IH]; intros l d Hl Hw Hf; [lia|].
  cbn [pad_from]. destruct (l <? width d) eqn:E.
  - apply Z.ltb_lt in E.
    assert (W : wrap_u INT_BITS (l + 1) = l + 1).
    { unfold wrap_u. change (2 ^ INT_BITS) with (2 ^ 32).
      rewrite Z.mod_small; lia. }
    rewrite W, IH by (cbn [width]; change (width (do_out out d " "))
                        with (width d); lia).
    change (width (do_out out d " ")) with (width d).
    replace (Z.to_nat (width d - l)) with (S (Z.to_nat (width d - (l + 1))))
      by lia.
    reflexivity.
  - apply Z.ltb_ge in E.
    replace (Z.to_nat (width d - l)) with O by lia. reflexivity.
Qed.

Lemma pad_field_closed l (d : data_t T) :
  0 <= l -> width d < 2 ^ 32 ->
  snd (pad_field out l d)
  = emitted out (repeat " "%char (Z.to_nat (width d - l))) d.
Proof. intros Hl Hw. unfold pad_field. apply pad_from_closed; lia. Qed.

(** The loop of the string output without a precision. *)
Lemma string_output_all s rest : forall d : data_t T,
  forallb non_null s = true -> has d FLAGS_PRECISION = false ->
  string_output out (s ++ NUL :: rest) d = Ok (emitted out s d).
Proof.
  induction s as [|c s IH]; intros d Hs Hp; [reflexivity|].
  cbn [forallb] in Hs. apply andb_true_iff in Hs. destruct Hs as [Hc Hs].
  unfold non_null in Hc. apply negb_true_iff in Hc.
  cbn [app string_output]. rewrite Hc, Hp. cbn [negb].
  rewrite IH by (try assumption; exact Hp). reflexivity.
Qed.

(** The loop of the string output with a precision [k], on an array that
    begins with the characters [s], none of them null: it stops after [k]
    characters, or at the null character that follows [s], or reads past
    the end of the array. *)
Lemma string_output_precision s tail : forall (d : data_t T) k,
  forallb non_null s = true -> has d FLAGS_PRECISION = true ->
  precision d = Z.of_nat k -> (k < 256)%nat ->
  ((k < List.length s)%nat \/ exists rest, tail = NUL :: rest) ->
  exists d',
    string_output out (s ++ tail) d = Ok d'
    /\ ptr d' = feed out (firstn k s) (ptr d)
    /\ idx d' = bump (List.length (firstn k s)) (idx d)
    /\ flags d' = flags d /\ width d' = width d.
Proof.
  induction s as [|c s IH]; intros d k Hs Hp Hk Hr Ht.
  - destruct Ht as [Ht|[rest ->]]; [cbn in Ht; lia|].
    exists d. rewrite firstn_nil. repeat split.
  - cbn [forallb] in Hs. apply andb_true_iff in Hs. destruct Hs as [Hc Hs].
    unfold non_null in Hc. apply negb_true_iff in Hc.
    cbn [app string_output]. rewrite Hc, Hp. cbn [negb]. cbv zeta.
    destruct k as [|k].
    + rewrite Hk. cbn [Z.of_nat Z.eqb negb firstn].
      eexists. split; [reflexivity|]. repeat split.
    + replace (precision d =? 0) with false
        by (symmetry; apply Z.eqb_neq; lia).
      cbn [negb].
      set (d1 := do_out out (set_precision (u8 (precision d - 1)) d) c).
      destruct (IH d1 k Hs) as (d' & E & P & I & F & W).
      * exact Hp.
      * subst d1. cbn [precision do_out idx_incr emit set_idx set_ptr
                         set_precision].
        unfold u8, wrap_u. rewrite Z.mod_small; lia.
      * lia.
      * destruct Ht as [Ht|Ht]; [left; cbn [List.length] in Ht; lia|now right].
      * exists d'. split; [exact E|]. cbn [firstn List.length].
        rewrite P, I, F, W, bump_succ. repeat split.
Qed.

Lemma string_output_overrun s : forall (d : data_t T) k,
  forallb non_null s = true -> has d FLAGS_PRECISION = true ->
  precision d = Z.of_nat k -> (k < 256)%nat -> (List.length s <= k)%nat ->
  string_output out s d = Fault ReadPastEnd.
Proof.
  induction s as [|c s IH]; intros d k Hs Hp Hk Hr Hl; [reflexivity|].
  cbn [forallb] in Hs. apply andb_true_iff in Hs. destruct Hs as [Hc Hs].
  unfold non_null in Hc. apply negb_true_iff in Hc.
  cbn [string_output]. rewrite Hc, Hp. cbn [negb]. cbv zeta.
  destruct k as [|k]; [cbn in Hl; lia|].
  replace (precision d =? 0) with false by (symmetry; apply Z.eqb_neq; lia).
  cbn [negb]. apply (IH _ k); try assumption.
  - cbn [precision do_out idx_incr emit set_idx set_ptr set_precision].
    unfold u8, wrap_u. rewrite Z.mod_small; lia.
  - lia.
  - cbn [List.length] in Hl. lia.
Qed.

End Fields.

Section Fields_proved.

Context {T : Type}.
Variable out : ascii -> T -> T.

Lemma string_part_cong (d d' : data_t T) s :
  flags d' = flags d -> precision d' = precision d ->
  string_part d' s = string_part d s.
Proof.
  intros F P. unfold string_part. now rewrite (has_flags d' d), P.
Qed.

Lemma string_output_part s rest (d : data_t T) :
  forallb non_null s = true -> 0 <= precision d < 256 ->
  exists d',
    string_output out (s ++ NUL :: rest) d = Ok d'
    /\ ptr d' = feed out (string_part d s) (ptr d)
    /\ idx d' = bump (List.length (string_part d s)) (idx d)
    /\ flags d' = flags d /\ width d' = width d.
Proof.
  intros Hs Hp. unfold string_part.
  destruct (has d FLAGS_PRECISION) eqn:E.
  - apply (string_output_precision out s (NUL :: rest) d
             (Z.to_nat (precision d))); try assumption; try lia.
    right. now exists rest.
  - rewrite string_output_all by assumption.
    eexists. split; [reflexivity|].
    rewrite ptr_emitted, idx_emitted, flags_emitted, width_emitted.
    repeat split.
Qed.

(** The value of [l] before the padding. *)
Lemma string_length_limited (d : data_t T) s l0 :
  0 <= precision d < 256 -> Z.of_nat (List.length s) <= SIZE_MAX ->
  (has d FLAGS_PRECISION = false -> precision d = 0) ->
  l0 = wrap_u INT_BITS
         (0 + Z.min (Z.of_nat (List.length s))
                (if precision d =? 0 then SIZE_MAX else precision d)) ->
  (if has d FLAGS_PRECISION
   then (if l0 <? precision d then l0 else precision d) else l0)
  = Z.of_nat (List.length (string_part d s)).
Proof.
  intros Hp Hs Hc ->. unfold string_part. unfold SIZE_MAX in *.
  assert (R : forall x, 0 <= x <= 2 ^ 32 - 1 -> wrap_u INT_BITS (0 + x) = x).
  { intros x Hx. unfold wrap_u. change (2 ^ INT_BITS) with (2 ^ 32).
    rewrite Z.mod_small; lia. }
  destruct (has d FLAGS_PRECISION).
  - rewrite length_firstn. destruct (precision d =? 0) eqn:E.
    + apply Z.eqb_eq in E. rewrite R by lia. rewrite E.
      destruct (_ <? 0) eqn:F; [apply Z.ltb_lt in F|]; lia.
    + apply Z.eqb_neq in E. rewrite R by lia.
      destruct (_ <? precision d) eqn:F;
        [apply Z.ltb_lt in F|apply Z.ltb_ge in F]; lia.
  - rewrite Hc by reflexivity. cbn [Z.eqb]. rewrite R by lia. lia.
Qed.

Lemma print_string_field (d : data_t T) p part l :
  0 <= width d < 256 ->
  l = Z.of_nat (List.length part) ->
  (forall d1 : data_t T,
      flags d1 = flags d -> width d1 = width d ->
      precision d1 = precision d ->
      exists d',
        string_output out p d1 = Ok d'
        /\ ptr d' = feed out part (ptr d1)
        /\ idx d' = bump (List.length part) (idx d1)
        /\ flags d' = flags d1 /\ width d' = width d1) ->
  let pad := repeat " "%char (Z.to_nat (width d) - List.length part) in
  let field := if has d FLAGS_LEFT then part ++ pad else pad ++ part in
  exists d',
    (let '(l, d) :=
       if negb (has d FLAGS_LEFT) then pad_field out l d else (l, d) in
     let* d := string_output out p d in
     Ok (if has d FLAGS_LEFT then snd (pad_field out l d) else d))
    = Ok d'
    /\ ptr d' = feed out field (ptr d)
    /\ idx d' = bump (List.length field) (idx d).
Proof.
  intros Hw -> Hout pad field.
  assert (Hpad : Z.to_nat (width d - Z.of_nat (List.length part))
                 = (Z.to_nat (width d) - List.length part)%nat) by lia.
  destruct (has d FLAGS_LEFT) eqn:HL; cbn [negb].
  - destruct (Hout d eq_refl eq_refl eq_refl) as (d2 & E & P & I & F & W).
    rewrite E. cbn [bind]. rewrite (has_flags d2 d), HL by assumption.
    rewrite pad_field_closed by lia.
    eexists. split; [reflexivity|].
    rewrite ptr_emitted, idx_emitted, W, Hpad, P, I.
    subst field. rewrite feed_app, length_app, bump_add. split; reflexivity.
  - destruct (pad_field out (Z.of_nat (List.length part)) d) as [l' d1] eqn:PF.
    assert (D1 : d1 = emitted out pad d).
    { replace d1 with (snd (pad_field out (Z.of_nat (List.length part)) d))
        by now rewrite PF.
      rewrite pad_field_closed by lia. now rewrite Hpad. }
    destruct (Hout d1) as (d2 & E & P & I & F & W);
      [subst d1; apply flags_emitted|subst d1; apply width_emitted
      |subst d1; apply precision_emitted|].
    rewrite E. cbn [bind].
    rewrite (has_flags d2 d), HL
      by (rewrite F; subst d1; apply flags_emitted).
    exists d2. split; [reflexivity|].
    rewrite P, I. subst d1 field.
    rewrite ptr_emitted, idx_emitted, feed_app, length_app, bump_add.
    split; reflexivity.
Qed.

End Fields_proved.

(** X3: the conversion [s] on a terminated string prints the characters
    that the precision lets through (all of them without a precision, none
    for the precision 0), with the pad up to the width before them, or after
    them in a left-justified field; every character is counted. *)
Theorem print_string_terminated :
  forall T (out : ascii -> T -> T) (d : data_t T) s rest,
    forallb non_null s = true -> Z.of_nat (List.length s) <= SIZE_MAX ->
    0 <= width d < 256 -> 0 <= precision d < 256 ->
    (has d FLAGS_PRECISION = false -> precision d = 0) ->
    exists d',
      print_string out d (s ++ NUL :: rest) = Ok d'
      /\ ptr d' = feed out (string_field d s) (ptr d)
      /\ idx d' = bump (List.length (string_field d s)) (idx d)
      /\ List.length (string_field d s)
         = Nat.max (Z.to_nat (width d)) (List.length (string_part d s)).
Proof.
  intros T out d s rest Hs Hl Hw Hp Hc. unfold print_string.
  rewrite strnlen_s_terminated
    by (try assumption; unfold SIZE_MAX; destruct (precision d =? 0); lia).
  cbn [bind]. cbv zeta.
  set (l0 := wrap_u INT_BITS _).
  rewrite (string_length_limited d s l0) by (try assumption; reflexivity).
  destruct (print_string_field out d (s ++ NUL :: rest) (string_part d s)
              (Z.of_nat (List.length (string_part d s))) Hw eq_refl)
    as (d' & E & P & I).
  - intros d1 F W Pr.
    destruct (string_output_part out s rest d1) as (d2 & E & P & I & F2 & W2);
      [assumption|lia|].
    rewrite (string_part_cong d d1) in P, I by assumption.
    exists d2. repeat split; assumption.
  - exists d'. split; [exact E|]. split; [exact P|]. split; [exact I|].
    unfold string_field. cbv zeta.
    destruct (has d FLAGS_LEFT); rewrite length_app, repeat_length; lia.
Qed.

Lemma print_string_terminated_witness :
  exists d',
    print_string out_log
      (mk_data (chars ">") (Z.lor FLAGS_LEFT FLAGS_PRECISION) 1 6 3
         BASE_BINARY 0)
      (cstr "printf")
    = Ok d'
    /\ ptr d' = chars ">pri   "
    /\ idx d' = 7.
Proof.
  destruct (print_string_terminated _ out_log
              (mk_data (chars ">") (Z.lor FLAGS_LEFT FLAGS_PRECISION) 1 6 3
                 BASE_BINARY 0)
              (chars "printf") [] eq_refl
              ltac:(unfold SIZE_MAX; cbn; lia) ltac:(cbn; lia)
              ltac:(cbn; lia) ltac:(discriminate))
    as (d' & E & P & I & _).
  exists d'. split; [exact E|]. split; [exact P|exact I].
Defined.

(** X4: with a precision the string need not be terminated when the array
    is longer than the precision; in an array of exactly as many characters
    as the precision, or fewer, and for the precision 0, the element after
    the last one is read. *)
Theorem print_string_unterminated :
  forall T (out : ascii -> T -> T) (d : data_t T) a,
    forallb non_null a = true -> Z.of_nat (List.length a) <= SIZE_MAX ->
    has d FLAGS_PRECISION = true ->
    0 <= width d < 256 -> 0 <= precision d < 256 ->
    if (0 <? precision d) && (precision d <? Z.of_nat (List.length a))
    then exists d',
        print_string out d a = Ok d'
        /\ ptr d' = feed out (string_field d a) (ptr d)
        /\ idx d' = bump (List.length (string_field d a)) (idx d)
    else print_string out d a = Fault ReadPastEnd.
Proof.
  intros T out d a Ha Hl HP Hw Hp. unfold print_string.
  rewrite strnlen_s_unterminated
    by (try assumption; unfold SIZE_MAX; destruct (precision d =? 0); lia).
  destruct (0 <? precision d) eqn:E0; cbn [andb].
  - apply Z.ltb_lt in E0.
    replace (precision d =? 0) with false by (symmetry; apply Z.eqb_neq; lia).
    destruct (precision d <? Z.of_nat (List.length a)) eqn:E1;
      [|reflexivity].
    apply Z.ltb_lt in E1. cbn [bind]. cbv zeta. rewrite HP.
    replace (wrap_u INT_BITS (0 + precision d)) with (precision d)
      by (unfold wrap_u; change (2 ^ INT_BITS) with (2 ^ 32);
          rewrite Z.mod_small; lia).
    rewrite Z.ltb_irrefl.
    assert (L : precision d = Z.of_nat (List.length (string_part d a))).
    { unfold string_part. rewrite HP, length_firstn. lia. }
    destruct (print_string_field out d a (string_part d a) (precision d)
                Hw L) as (d' & E & P & I).
    + intros d1 F W Pr.
      destruct (string_output_precision out a [] d1
                  (Z.to_nat (precision d))) as (d2 & E & P & I & F2 & W2);
        try assumption; try lia.
      * now rewrite (has_flags d1 d).
      * rewrite app_nil_r in E. unfold string_part. rewrite HP.
        exists d2. repeat split; assumption.
    + exists d'. repeat split; assumption.
  - apply Z.ltb_ge in E0.
    replace (precision d =? 0) with true by (symmetry; apply Z.eqb_eq; lia).
    now replace (SIZE_MAX <? Z.of_nat (List.length a)) with false
      by (symmetry; apply Z.ltb_ge; lia).
Qed.

Lemma print_string_unterminated_witness :
  print_string out_log (mk_data [] FLAGS_PRECISION 0 0 3 BASE_BINARY 0)
    (chars "abc")
  = Fault ReadPastEnd
  /\ print_string out_log (mk_data [] FLAGS_PRECISION 0 0 0 BASE_BINARY 0)
       (chars "abc")
     = Fault ReadPastEnd
  /\ exists d',
       print_string out_log (mk_data [] FLAGS_PRECISION 0 0 3 BASE_BINARY 0)
         (chars "abcd")
       = Ok d'
       /\ ptr d' = chars "abc" /\ idx d' = 3.
Proof.
  split; [|split].
  - exact (print_string_unterminated _ out_log
             (mk_data [] FLAGS_PRECISION 0 0 3 BASE_BINARY 0) (chars "abc")
             eq_refl ltac:(unfold SIZE_MAX; cbn; lia) eq_refl
             ltac:(cbn; lia) ltac:(cbn; lia)).
  - exact (print_string_unterminated _ out_log
             (mk_data [] FLAGS_PRECISION 0 0 0 BASE_BINARY 0) (chars "abc")
             eq_refl ltac:(unfold SIZE_MAX; cbn; lia) eq_refl
             ltac:(cbn; lia) ltac:(cbn; lia)).
  - exact (print_string_unterminated _ out_log
             (mk_data [] FLAGS_PRECISION 0 0 3 BASE_BINARY 0) (chars "abcd")
             eq_refl ltac:(unfold SIZE_MAX; cbn; lia) eq_refl
             ltac:(cbn; lia) ltac:(cbn; lia)).
Defined.

(** X5: the conversion [c] prints the character of its argument, whatever
    its value, the null character included, in a field of the width given:
    the pad comes before the character, or after it in a left-justified
    field, and every character is counted. *)
Theorem convert_char_field :
  forall T (out : ascii -> T -> T) (d : data_t T) v va,
    0 <= width d < 256 ->
    exists d',
      convert_char out d (VInt v :: va) = Ok (d', va)
      /\ ptr d' = feed out (char_field d (chr v)) (ptr d)
      /\ idx d' = bump (List.length (char_field d (chr v))) (idx d)
      /\ List.length (char_field d (chr v)) = Z.to_nat (Z.max 1 (width d)).
Proof.
  intros T out d v va Hw. unfold convert_char. cbv zeta.
  assert (C : chr (wrap_s INT_BITS v) = chr v).
  { unfold chr. do 2 f_equal.
    apply (u8_of_wrap_u (wrap_s INT_BITS v) v).
    apply wrap_u_wrap_s. reflexivity. }
  assert (Hpad : Z.to_nat (width d - 1) = (Z.to_nat (width d) - 1)%nat)
    by lia.
  unfold char_field. cbv zeta.
  destruct (has d FLAGS_LEFT) eqn:HL; cbn [negb va_arg_int bind].
  - rewrite C.
    change (has (do_out out d (chr v)) FLAGS_LEFT) with (has d FLAGS_LEFT).
    rewrite HL, pad_field_closed by (cbn; lia).
    change (width (do_out out d (chr v))) with (width d).
    eexists. split; [reflexivity|].
    rewrite ptr_emitted, idx_emitted, Hpad. cbn [List.length].
    rewrite bump_succ, repeat_length. repeat split. lia.
  - destruct (pad_field out 1 d) as [l' d1] eqn:PF.
    assert (D1 : d1 = emitted out (repeat " "%char (Z.to_nat (width d) - 1)) d).
    { replace d1 with (snd (pad_field out 1 d)) by now rewrite PF.
      rewrite pad_field_closed by lia. now rewrite Hpad. }
    cbn [va_arg_int bind]. rewrite C.
    change (has (do_out out d1 (chr v)) FLAGS_LEFT) with (has d1 FLAGS_LEFT).
    rewrite (has_flags d1 d), HL by (subst d1; apply flags_emitted).
    eexists. split; [reflexivity|].
    change (ptr (do_out out d1 (chr v))) with (out (chr v) (ptr d1)).
    change (idx (do_out out d1 (chr v))) with (u8 (idx d1 + 1)).
    subst d1. rewrite ptr_emitted, idx_emitted, feed_app, length_app.
    rewrite bump_add, repeat_length. cbn [List.length].
    repeat split. lia.
Qed.

Lemma convert_char_field_witness :
  exists d',
    convert_char out_log (mk_data (chars "[") 0 1 3 0 BASE_BINARY 0)
      [VInt 65; VInt 66]
    = Ok (d', [VInt 66])
    /\ ptr d' = chars "[  A" /\ idx d' = 4.
Proof.
  destruct (convert_char_field _ out_log
              (mk_data (chars "[") 0 1 3 0 BASE_BINARY 0) 65 [VInt 66]
              ltac:(cbn; lia)) as (d' & E & P & I & _).
  exists d'. split; [exact E|]. split; [exact P|exact I].
Defined.

(** ** X6: the numerals of the format string *)

Lemma atoi_from_range str : forall i n str',
  0 <= i < 2 ^ 32 -> atoi_from i str = Ok (n, str') -> 0 <= n < 2 ^ 32.
Proof.
  induction str as [|c str IH]; intros i n str' Hi H; [discriminate H|].
  cbn [atoi_from] in H. destruct (is_digit c).
  - apply (IH _ _ _ (Z.mod_pos_bound _ (2 ^ 32) eq_refl) H).
  - injection H as <- _. exact Hi.
Qed.

Lemma atoi_from_overrun ds : forall i,
  forallb is_digit ds = true -> atoi_from i ds = Fault ReadPastEnd.
Proof.
  induction ds as [|c ds IH]; intros i H; [reflexivity|].
  cbn [forallb] in H. apply andb_true_iff in H. destruct H as [Hc Hs].
  cbn [atoi_from]. rewrite Hc. now apply IH.
Qed.

Lemma atoi_closed ds c rest :
  forallb is_digit ds = true -> is_digit c = false ->
  atoi (ds ++ c :: rest)
  = Ok (wrap_u INT_BITS (numeral_value ds), c :: rest).
Proof.
  intros Hds Hc.
  destruct (atoi_from_digits ds 0 0 c rest Hds Hc eq_refl) as (n & E & W).
  assert (R : 0 <= n < 2 ^ 32)
    by (apply (atoi_from_range _ 0 _ _ ltac:(lia) E)).
  assert (N : n = wrap_u INT_BITS (numeral_value ds)).
  { unfold numeral_value. rewrite <- W. unfold wrap_u.
    change (2 ^ INT_BITS) with (2 ^ 32). rewrite Z.mod_small; lia. }
  unfold atoi. now rewrite E, N.
Qed.

(** X6: [atoi] reads the digits up to the first character that is not one
    and returns the number they denote in 32 bits, with the pointer at that
    character; digits that run to the end of the array make it read past
    the end.  The width stage keeps the low eight bits of the number. *)
Theorem atoi_reads_numeral :
  forall ds c rest,
    forallb is_digit ds = true -> is_digit c = false ->
    atoi (ds ++ c :: rest)
    = Ok (wrap_u INT_BITS (numeral_value ds), c :: rest)
    /\ atoi ds = Fault ReadPastEnd
    /\ (forall T (d : data_t T) va,
           ds <> [] ->
           eval_width d (ds ++ c :: rest) va
           = Ok (set_width (u8 (numeral_value ds)) (set_width 0 d),
                 c :: rest, va)).
Proof.
  intros ds c rest Hds Hc.
  pose proof (atoi_closed ds c rest Hds Hc) as A.
  split; [exact A|]. split; [now apply atoi_from_overrun|].
  intros T d va Hne. unfold eval_width. cbv zeta.
  destruct ds as [|c0 ds']; [contradiction|].
  cbn [forallb] in Hds. apply andb_true_iff in Hds. destruct Hds as [H0 _].
  change ((c0 :: ds') ++ c :: rest) with (c0 :: ds' ++ c :: rest) in *.
  cbn [deref bind]. rewrite H0, A. cbn [bind].
  rewrite (u8_of_wrap_u (wrap_u INT_BITS (numeral_value (c0 :: ds')))
             (numeral_value (c0 :: ds'))); [reflexivity|].
  unfold wrap_u. now rewrite Z.mod_mod by discriminate.
Qed.

Lemma atoi_reads_numeral_witness :
  atoi (cstr "300d") = Ok (300, cstr "d")
  /\ atoi (chars "300") = Fault ReadPastEnd
  /\ eval_width (initial_data (@nil ascii)) (cstr "300d") []
     = Ok (set_width 44 (initial_data []), cstr "d", []).
Proof.
  pose proof (atoi_reads_numeral (chars "300") "d" [NUL] eq_refl eq_refl)
    as (A & B & C).
  split; [exact A|]. split; [exact B|].
  exact (C _ (initial_data []) [] ltac:(discriminate)).
Defined.

(** ** The digits of a nonzero number *)

Section Numbers.

Context {T : Type}.
Variable out : ascii -> T -> T.

Lemma digit_char_cong (d d' : data_t T) x :
  flags d' = flags d -> digit_char d' x = digit_char d x.
Proof. intros F. unfold digit_char. now rewrite (has_flags d' d). Qed.

Lemma pow2_digits_cong (d d' : data_t T) n v :
  flags d' = flags d -> base d' = base d ->
  pow2_digits d' n v = pow2_digits d n v.
Proof.
  intros F B. induction n as [|n IH]; [reflexivity|].
  cbn [pow2_digits]. now rewrite IH, B, (digit_char_cong d d').
Qed.

Lemma number_digits_cong (d d' : data_t T) v :
  flags d' = flags d -> base d' = base d ->
  digit_count d' = digit_count d ->
  number_digits d' v = number_digits d v.
Proof.
  intros F B D. unfold number_digits.
  now rewrite B, D, (pow2_digits_cong d d').
Qed.

Lemma length_pow2_digits (d : data_t T) n v :
  List.length (pow2_digits d n v) = n.
Proof. induction n as [|n IH]; cbn; [|rewrite IH]; reflexivity. Qed.

Lemma length_number_digits (d : data_t T) v :
  List.length (number_digits d v) = Z.to_nat (digit_count d).
Proof.
  unfold number_digits. destruct (base_eqb _ _);
    [apply length_dec_digits|apply length_pow2_digits].
Qed.

(** The loop of the power-of-two bases. *)
Lemma while_pow2_digits value n : forall d : data_t T,
  digit_count d = Z.of_nat n ->
  while n (fun d => 0 <? digit_count d)
    (fun d =>
       let digit :=
         u8 (Z.land
               (Z.shiftr value ((digit_count d - 1) * base_bits (base d)))
               (base_mask (base d))) in
       set_digit_count (digit_count d - 1)
         (do_out out d (digit_char d digit)))
    d
  = set_digit_count 0 (emitted out (pow2_digits d n value) d).
Proof.
  match goal with |- context [while _ _ ?b] => set (body := b) end.
  induction n as [|n IH]; intros d Hd.
  - cbn. apply data_eq; cbn; auto.
  - cbn [while].
    replace (0 <? digit_count d) with true by (symmetry; apply Z.ltb_lt; lia).
    set (c := digit_char d
                (u8 (Z.land
                       (Z.shiftr value (Z.of_nat n * base_bits (base d)))
                       (base_mask (base d))))).
    assert (B : body d = set_digit_count (Z.of_nat n) (do_out out d c)).
    { subst body c. cbv beta zeta.
      now replace (digit_count d - 1) with (Z.of_nat n) by lia. }
    rewrite B, IH by reflexivity.
    rewrite (pow2_digits_cong d) by reflexivity.
    cbn [pow2_digits]. fold c.
    change (emitted out (c :: ?l) d) with (emitted out l (do_out out d c)).
    rewrite emitted_set_digit_count. reflexivity.
Qed.

Lemma ntoa_pow2_closed (d : data_t T) value :
  0 <= digit_count d ->
  ntoa_pow2 out d value
  = set_digit_count 0
      (emitted out (pow2_digits d (Z.to_nat (digit_count d)) value) d).
Proof.
  intros H.
  rewrite <- (while_pow2_digits value (Z.to_nat (digit_count d)) d) by lia.
  reflexivity.
Qed.

(** The converter on a nonzero value: the digits, and the pad of a
    left-justified field, which is not counted. *)
Lemma ntoa_nonzero N (d : data_t T) value :
  (N < 256)%nat -> 0 < value -> 0 <= width d -> 0 <= digit_count d ->
  (base d = BASE_DECIMAL ->
   value < 10 ^ Z.of_nat N
   /\ digit_count d = count_pow10 (powers N) value 0) ->
  exists d',
    ntoa out (powers N) d value = Ok d'
    /\ ptr d'
       = feed out
           (number_digits d value
            ++ (if has d FLAGS_LEFT
                then repeat " "%char (Z.to_nat (width d)) else []))
           (ptr d)
    /\ idx d' = bump (List.length (number_digits d value)) (idx d).
Proof.
  intros HN Hv Hw Hdc Hdec. unfold ntoa.
  replace (value =? 0) with false by (symmetry; apply Z.eqb_neq; lia).
  rewrite orb_true_r.
  assert (Tail : forall x : data_t T,
             flags x = flags d -> width x = width d ->
             ptr (if has x FLAGS_LEFT then pad_trailing out x else x)
             = feed out (if has d FLAGS_LEFT
                         then repeat " "%char (Z.to_nat (width d)) else [])
                 (ptr x)
             /\ idx (if has x FLAGS_LEFT then pad_trailing out x else x)
                = idx x).
  { intros x F W. rewrite (has_flags x d) by assumption.
    destruct (has d FLAGS_LEFT); [|split; reflexivity].
    destruct (pad_trailing_fields out x) as [P I]. now rewrite P, I, W. }
  unfold number_digits.
  destruct (base_eqb (base d) BASE_DECIMAL) eqn:B.
  - assert (Bd : base d = BASE_DECIMAL) by (destruct (base d); now try discriminate B).
    destruct (Hdec Bd) as [Hlt Hc].
    destruct (count_powers N value HN) as (K1 & K2 & K3); [lia|].
    rewrite <- Hc in K1, K2, K3.
    rewrite (ntoa_decimal_closed out N (Z.to_nat (digit_count d)))
      by (rewrite ?Z2Nat.id; lia).
    cbn [bind]. eexists. split; [reflexivity|].
    destruct (Tail (set_digit_count 0
                      (emitted out
                         (dec_digits (Z.to_nat (digit_count d)) value) d)))
      as [P I];
      [cbn [flags set_digit_count]; apply flags_emitted
      |cbn [width set_digit_count]; apply width_emitted|].
    rewrite P, I. cbn [ptr idx set_digit_count].
    now rewrite ptr_emitted, idx_emitted, feed_app.
  - rewrite ntoa_pow2_closed by assumption.
    cbn [bind]. eexists. split; [reflexivity|].
    destruct (Tail (set_digit_count 0
                      (emitted out
                         (pow2_digits d (Z.to_nat (digit_count d)) value) d)))
      as [P I];
      [cbn [flags set_digit_count]; apply flags_emitted
      |cbn [width set_digit_count]; apply width_emitted|].
    rewrite P, I. cbn [ptr idx set_digit_count].
    now rewrite ptr_emitted, idx_emitted, feed_app.
Qed.

(** The layout and the converter, one after the other. *)
Lemma number_field N (d1 : data_t T) value :
  (N < 256)%nat -> 0 < value -> 0 <= digit_count d1 ->
  (base d1 = BASE_DECIMAL ->
   value < 10 ^ Z.of_nat N
   /\ digit_count d1 = count_pow10 (powers N) value 0) ->
  exists d',
    ntoa out (powers N) (ntoa_format out d1) value = Ok d'
    /\ ptr d'
       = feed out
           (layout_chars d1 ++ number_digits d1 value ++ number_trail d1)
           (ptr d1)
    /\ idx d'
       = bump (List.length (layout_chars d1 ++ number_digits d1 value))
           (idx d1).
Proof.
  intros HN Hv Hdc Hdec.
  destruct (layout_width_fields d1) as (Pr & Fr & Ir & Br & Dr & Wr & _).
  set (d2 := ntoa_format out d1).
  assert (E2 : d2 = layout_final
                      (emitted out (layout_chars d1) (layout_width d1)))
    by apply ntoa_format_closed.
  assert (F2 : flags d2 = flags d1).
  { rewrite E2. unfold layout_final. destruct (negb _);
      cbn [flags set_width set_precision]; now rewrite flags_emitted. }
  assert (B2 : base d2 = base d1).
  { rewrite E2. unfold layout_final. destruct (negb _);
      cbn [base set_width set_precision]; now rewrite base_emitted. }
  assert (D2 : digit_count d2 = digit_count d1).
  { rewrite E2. unfold layout_final. destruct (negb _);
      cbn [digit_count set_width set_precision];
      now rewrite digit_count_emitted. }
  assert (P2 : ptr d2 = feed out (layout_chars d1) (ptr d1)).
  { rewrite E2. unfold layout_final. destruct (negb _);
      cbn [ptr set_width set_precision]; now rewrite ptr_emitted, Pr. }
  assert (I2 : idx d2 = bump (List.length (layout_chars d1)) (idx d1)).
  { rewrite E2. unfold layout_final. destruct (negb _);
      cbn [idx set_width set_precision]; now rewrite idx_emitted, Ir. }
  assert (W2 : width d2
               = if has d1 FLAGS_LEFT then width (layout_width d1) else 0).
  { rewrite E2. unfold layout_final. rewrite has_emitted.
    rewrite (has_flags (layout_width d1) d1) by assumption.
    destruct (has d1 FLAGS_LEFT); cbn [negb width set_width set_precision];
      [apply width_emitted|reflexivity]. }
  destruct (ntoa_nonzero N d2 value) as (d' & E & P & I); try assumption.
  - rewrite W2. destruct (has d1 FLAGS_LEFT); lia.
  - now rewrite D2.
  - rewrite B2, D2. exact Hdec.
  - exists d'. split; [exact E|].
    rewrite (number_digits_cong d1 d2) in P, I by assumption.
    rewrite P, I, P2, I2, (has_flags d2 d1), W2 by assumption.
    unfold number_trail.
    rewrite <- feed_app, length_app, bump_add.
    destruct (has d1 FLAGS_LEFT); split; reflexivity.
Qed.

End Numbers.

(** ** X7 and X8: the field of a nonzero number *)

Lemma sign_chars_length {T} (d : data_t T) :
  Z.of_nat (List.length (sign_chars d))
  = if has d (Z.lor FLAGS_NEGATIVE (Z.lor FLAGS_PLUS FLAGS_SPACE))
    then 1 else 0.
Proof.
  unfold sign_chars, has. rewrite !test_lor.
  destruct (test _ FLAGS_NEGATIVE), (test _ FLAGS_PLUS), (test _ FLAGS_SPACE);
    reflexivity.
Qed.

Lemma prefix_chars_length {T} (d : data_t T) :
  Z.of_nat (List.length (prefix_chars d))
  = if has d FLAGS_HASH
    then (if base_eqb (base d) BASE_HEX || base_eqb (base d) BASE_BINARY
          then 2 else 1)
    else 0.
Proof.
  unfold prefix_chars.
  destruct (has d FLAGS_HASH), (base d); reflexivity.
Qed.

Lemma layout_width_closed {T} (d : data_t T) :
  0 <= digit_count d -> 0 <= width d ->
  width (layout_width d)
  = Z.max 0
      (width d - digit_count d - Z.of_nat (List.length (sign_chars d))
       - (if has d FLAGS_PRECISION
          then Z.max 0 (precision d - digit_count d) else 0)
       - Z.of_nat (List.length (prefix_chars d)))
  /\ precision (layout_width d) = Z.max 0 (precision d - digit_count d).
Proof.
  rewrite sign_chars_length, prefix_chars_length.
  destruct d as [p f i w pr b dc].
  cbn [width precision digit_count]. intros Hdc Hw.
  unfold layout_width, has. cbn [flags base].
  destruct (test f (Z.lor FLAGS_NEGATIVE (Z.lor FLAGS_PLUS FLAGS_SPACE)))
    eqn:TS,
    (test f FLAGS_PRECISION) eqn:TR, (test f FLAGS_HASH) eqn:TH,
    (base_eqb b BASE_HEX || base_eqb b BASE_BINARY) eqn:TB;
    repeat (cbn [ptr flags idx width precision base digit_count set_width
                 set_precision];
            rewrite ?TS, ?TR, ?TH, ?TB, ?andb_true_r, ?andb_false_r;
            try match goal with
                | |- context [if ?c then _ else _] =>
                    lazymatch c with
                    | context [if _ then _ else _] => fail
                    | (_ <? _) => destruct c eqn:?
                    end
                end);
    cbn [width set_width set_precision] in *;
    repeat match goal with
           | H : (_ <? _) = true |- _ => apply Z.ltb_lt in H
           | H : (_ <? _) = false |- _ => apply Z.ltb_ge in H
           end;
    split; lia.
Qed.

Lemma layout_chars_length {T} (d : data_t T) :
  0 <= digit_count d -> 0 <= width d -> 0 <= precision d ->
  Z.of_nat (List.length (layout_chars d))
  = Z.of_nat (List.length (sign_chars d ++ prefix_chars d))
    + (if has d FLAGS_LEFT then 0
       else width (layout_width d) + precision (layout_width d)).
Proof.
  intros Hdc Hw Hp. unfold layout_chars. cbv zeta.
  destruct (layout_width_fields d) as (_ & F & _ & B & _ & Wr & Pr).
  rewrite (sign_chars_cong (layout_width d) d),
    (prefix_chars_cong (layout_width d) d) by assumption.
  unfold pad_chars, zero_chars.
  rewrite !(has_flags (layout_width d) d) by assumption.
  rewrite !length_app.
  destruct (has d FLAGS_LEFT), (has d FLAGS_ZEROPAD); cbn [negb andb];
    rewrite ?length_app, ?repeat_length; cbn [List.length]; lia.
Qed.

Lemma pre_format_long_nonzero {T} (d : data_t T) value negative :
  value <> 0 ->
  pre_format_long d value negative
  = (if negative
     then set_flags (set_bits (flags d) FLAGS_NEGATIVE)
            (set_digit_count (get_digits_long value (base d)) d)
     else set_digit_count (get_digits_long value (base d)) d).
Proof.
  intros H. unfold pre_format_long. cbv zeta.
  now replace (value =? 0) with false by (symmetry; now apply Z.eqb_neq).
Qed.

Lemma pre_format_long_long_nonzero {T} (d : data_t T) value negative :
  value <> 0 ->
  pre_format_long_long d value negative
  = (if negative
     then set_flags (set_bits (flags d) FLAGS_NEGATIVE)
            (set_digit_count (get_digits_long_long value (base d)) d)
     else set_digit_count (get_digits_long_long value (base d)) d).
Proof.
  intros H. unfold pre_format_long_long. cbv zeta.
  now replace (value =? 0) with false by (symmetry; now apply Z.eqb_neq).
Qed.

Lemma get_digits_nonneg N value b :
  (N < 256)%nat ->
  0 <= (if base_eqb b BASE_DECIMAL then count_pow10 (powers N) value 0
        else count_shift 64 (base_bits b) value 0).
Proof.
  intros HN. destruct (base_eqb b BASE_DECIMAL).
  - destruct (count_pow10_spec N 0 value) as (K & _); [lia|now left|].
    cbn [Z.of_nat] in K. apply K.
  - apply count_shift_nonneg. lia.
Qed.

(** What is common to the two sizes: [d1] is the state that [pre_format]
    leaves for a nonzero value, from a state [d]. *)
Lemma number_field_sized {T} (out : ascii -> T -> T) N (d d1 : data_t T)
    value :
  (N < 256)%nat -> 0 < value < 10 ^ Z.of_nat N ->
  0 <= width d -> 0 <= precision d ->
  (has d FLAGS_PRECISION = false -> precision d = 0) ->
  ptr d1 = ptr d -> idx d1 = idx d -> width d1 = width d ->
  precision d1 = precision d -> base d1 = base d ->
  has d1 FLAGS_LEFT = has d FLAGS_LEFT ->
  has d1 FLAGS_PRECISION = has d FLAGS_PRECISION ->
  digit_count d1
  = (if base_eqb (base d) BASE_DECIMAL then count_pow10 (powers N) value 0
     else count_shift 64 (base_bits (base d)) value 0) ->
  exists d',
    ntoa out (powers N) (ntoa_format out d1) value = Ok d'
    /\ (has d FLAGS_LEFT = false ->
        let field := layout_chars d1 ++ number_digits d1 value in
        ptr d' = feed out field (ptr d)
        /\ idx d' = bump (List.length field) (idx d)
        /\ Z.of_nat (List.length field)
           = Z.max (width d)
               (Z.of_nat (List.length (sign_chars d1 ++ prefix_chars d1))
                + Z.max (precision d) (digit_count d1)))
    /\ (has d FLAGS_LEFT = true ->
        let field := sign_chars d1 ++ prefix_chars d1 ++ number_digits d1 value in
        let pad :=
          Z.to_nat
            (width d - digit_count d1
             - Z.of_nat (List.length (sign_chars d1 ++ prefix_chars d1))
             - Z.max 0 (precision d - digit_count d1)) in
        ptr d' = feed out (field ++ repeat " "%char pad) (ptr d)
        /\ idx d' = bump (List.length field) (idx d)).
Proof.
  intros HN Hv Hw Hp Hc P1 I1 W1 Pr1 B1 L1 PF1 D1.
  assert (Hdc : 0 <= digit_count d1)
    by (rewrite D1; now apply get_digits_nonneg).
  destruct (number_field out N d1 value) as (d' & E & P & I);
    try assumption; try lia.
  { intros Bd. rewrite B1 in Bd. rewrite Bd in D1.
    split; [lia|exact D1]. }
  exists d'. split; [exact E|].
  destruct (layout_width_closed d1) as [WL PL]; [lia|lia|].
  pose proof (layout_chars_length d1 Hdc ltac:(lia) ltac:(lia)) as LL.
  rewrite L1 in LL.
  assert (PP : (if has d1 FLAGS_PRECISION
                then Z.max 0 (precision d1 - digit_count d1) else 0)
               = Z.max 0 (precision d - digit_count d1)).
  { rewrite PF1, Pr1. destruct (has d FLAGS_PRECISION) eqn:F; [reflexivity|].
    rewrite Hc by reflexivity. lia. }
  rewrite PP in WL. rewrite W1 in WL. rewrite Pr1 in PL.
  split.
  - intros HL. cbv zeta. unfold number_trail in P.
    rewrite L1, HL in P. rewrite app_nil_r in P.
    rewrite <- P1, <- I1. split; [exact P|]. split; [exact I|].
    rewrite HL in LL. rewrite !length_app in *.
    rewrite length_number_digits. clear - WL PL LL Hdc Hw Hp. lia.
  - intros HL. cbv zeta. unfold number_trail in P.
    rewrite L1, HL in P.
    assert (LC : layout_chars d1 = sign_chars d1 ++ prefix_chars d1).
    { unfold layout_chars. cbv zeta.
      destruct (layout_width_fields d1) as (_ & F & _ & B & _).
      rewrite (sign_chars_cong (layout_width d1) d1),
        (prefix_chars_cong (layout_width d1) d1) by assumption.
      unfold pad_chars, zero_chars.
      rewrite !(has_flags (layout_width d1) d1) by assumption.
      rewrite L1, HL. cbn [negb andb app]. now rewrite app_nil_r. }
    rewrite LC in P, I. rewrite <- P1, <- I1.
    assert (K : Z.to_nat
                  (width d - digit_count d1
                   - Z.of_nat (List.length (sign_chars d1 ++ prefix_chars d1))
                   - Z.max 0 (precision d - digit_count d1))
                = Z.to_nat (width (layout_width d1)))
      by (rewrite WL, length_app; lia).
    rewrite K, P, I, <- !app_assoc. split; reflexivity.
Qed.

Section Sizes.

Context {T : Type}.
Variable out : ascii -> T -> T.

Lemma has_set_negative (d : data_t T) m :
  Z.land FLAGS_NEGATIVE m = 0 ->
  has (set_flags (set_bits (flags d) FLAGS_NEGATIVE) d) m = has d m.
Proof. intros H. unfold has. cbn [flags set_flags]. now apply test_set_other. Qed.

Lemma number_field_long (d : data_t T) value negative :
  0 < value < 2 ^ 32 -> 0 <= width d -> 0 <= precision d ->
  (has d FLAGS_PRECISION = false -> precision d = 0) ->
  let d1 := pre_format_long d value negative in
  digit_count d1 = get_digits_long value (base d)
  /\ exists d',
    ntoa_long out (ntoa_format out d1) value = Ok d'
    /\ (has d FLAGS_LEFT = false ->
        let field := layout_chars d1 ++ number_digits d1 value in
        ptr d' = feed out field (ptr d)
        /\ idx d' = bump (List.length field) (idx d)
        /\ Z.of_nat (List.length field)
           = Z.max (width d)
               (Z.of_nat (List.length (sign_chars d1 ++ prefix_chars d1))
                + Z.max (precision d) (digit_count d1)))
    /\ (has d FLAGS_LEFT = true ->
        let field :=
          sign_chars d1 ++ prefix_chars d1 ++ number_digits d1 value in
        let pad :=
          Z.to_nat
            (width d - digit_count d1
             - Z.of_nat (List.length (sign_chars d1 ++ prefix_chars d1))
             - Z.max 0 (precision d - digit_count d1)) in
        ptr d' = feed out (field ++ repeat " "%char pad) (ptr d)
        /\ idx d' = bump (List.length field) (idx d)).
Proof.
  intros Hv Hw Hp Hc d1.
  assert (E1 : d1 = if negative
                    then set_flags (set_bits (flags d) FLAGS_NEGATIVE)
                           (set_digit_count (get_digits_long value (base d)) d)
                    else set_digit_count (get_digits_long value (base d)) d)
    by (apply pre_format_long_nonzero; lia).
  assert (D1 : digit_count d1 = get_digits_long value (base d))
    by (rewrite E1; now destruct negative).
  split; [exact D1|].
  apply (number_field_sized out 10 d d1 value); try assumption;
    try (rewrite E1; now destruct negative).
  - lia.
  - lia.
  - rewrite E1. destruct negative; [|reflexivity].
    exact (has_set_negative (set_digit_count _ d) FLAGS_LEFT eq_refl).
  - rewrite E1. destruct negative; [|reflexivity].
    exact (has_set_negative (set_digit_count _ d) FLAGS_PRECISION eq_refl).
Qed.

Lemma number_field_long_long (d : data_t T) value negative :
  0 < value < 2 ^ 64 -> 0 <= width d -> 0 <= precision d ->
  (has d FLAGS_PRECISION = false -> precision d = 0) ->
  let d1 := pre_format_long_long d value negative in
  digit_count d1 = get_digits_long_long value (base d)
  /\ exists d',
    ntoa_long_long out (ntoa_format out d1) value = Ok d'
    /\ (has d FLAGS_LEFT = false ->
        let field := layout_chars d1 ++ number_digits d1 value in
        ptr d' = feed out field (ptr d)
        /\ idx d' = bump (List.length field) (idx d)
        /\ Z.of_nat (List.length field)
           = Z.max (width d)
               (Z.of_nat (List.length (sign_chars d1 ++ prefix_chars d1))
                + Z.max (precision d) (digit_count d1)))
    /\ (has d FLAGS_LEFT = true ->
        let field :=
          sign_chars d1 ++ prefix_chars d1 ++ number_digits d1 value in
        let pad :=
          Z.to_nat
            (width d - digit_count d1
             - Z.of_nat (List.length (sign_chars d1 ++ prefix_chars d1))
             - Z.max 0 (precision d - digit_count d1)) in
        ptr d' = feed out (field ++ repeat " "%char pad) (ptr d)
        /\ idx d' = bump (List.length field) (idx d)).
Proof.
  intros Hv Hw Hp Hc d1.
  assert (E1 : d1 = if negative
                    then set_flags (set_bits (flags d) FLAGS_NEGATIVE)
                           (set_digit_count
                              (get_digits_long_long value (base d)) d)
                    else set_digit_count
                           (get_digits_long_long value (base d)) d)
    by (apply pre_format_long_long_nonzero; lia).
  assert (D1 : digit_count d1 = get_digits_long_long value (base d))
    by (rewrite E1; now destruct negative).
  split; [exact D1|].
  apply (number_field_sized out 20 d d1 value); try assumption;
    try (rewrite E1; now destruct negative).
  - lia.
  - lia.
  - rewrite E1. destruct negative; [|reflexivity].
    exact (has_set_negative (set_digit_count _ d) FLAGS_LEFT eq_refl).
  - rewrite E1. destruct negative; [|reflexivity].
    exact (has_set_negative (set_digit_count _ d) FLAGS_PRECISION eq_refl).
Qed.

End Sizes.

(** X7: a nonzero number in a field that is not left-justified is printed
    in full, as the pad, the sign, the prefix, the zeros and the digits, and
    every character is counted; the field has the width asked for, or the
    length of the sign, the prefix and the digits with the zeros of the
    precision when that is more. *)
Theorem number_fills_width :
  forall T (out : ascii -> T -> T) (d : data_t T) value negative,
    0 < value < 2 ^ 64 -> has d FLAGS_LEFT = false ->
    0 <= width d -> 0 <= precision d ->
    (has d FLAGS_PRECISION = false -> precision d = 0) ->
    (value < 2 ^ 32 ->
     let d1 := pre_format_long d value negative in
     let field := layout_chars d1 ++ number_digits d1 value in
     exists d',
       ntoa_long out (ntoa_format out d1) value = Ok d'
       /\ ptr d' = feed out field (ptr d)
       /\ idx d' = bump (List.length field) (idx d)
       /\ Z.of_nat (List.length field)
          = Z.max (width d)
              (Z.of_nat (List.length (sign_chars d1 ++ prefix_chars d1))
               + Z.max (precision d) (get_digits_long value (base d))))
    /\ (let d1 := pre_format_long_long d value negative in
        let field := layout_chars d1 ++ number_digits d1 value in
        exists d',
          ntoa_long_long out (ntoa_format out d1) value = Ok d'
          /\ ptr d' = feed out field (ptr d)
          /\ idx d' = bump (List.length field) (idx d)
          /\ Z.of_nat (List.length field)
             = Z.max (width d)
                 (Z.of_nat (List.length (sign_chars d1 ++ prefix_chars d1))
                  + Z.max (precision d)
                      (get_digits_long_long value (base d)))).
Proof.
  intros T out d value negative Hv HL Hw Hp Hc. split.
  - intros H32 d1 field.
    destruct (number_field_long out d value negative)
      as (D1 & d' & E & R & _); try assumption; try lia.
    fold d1 in D1, E, R. rewrite <- D1.
    exists d'. split; [exact E|]. exact (R HL).
  - intros d1 field.
    destruct (number_field_long_long out d value negative)
      as (D1 & d' & E & R & _); try assumption; try lia.
    fold d1 in D1, E, R. rewrite <- D1.
    exists d'. split; [exact E|]. exact (R HL).
Qed.

Lemma number_fills_width_witness :
  exists d',
    ntoa_long out_log
      (ntoa_format out_log
         (pre_format_long
            (mk_data [] (Z.lor FLAGS_PLUS FLAGS_PRECISION) 0 8 3 BASE_DECIMAL
               0) 42 false)) 42
    = Ok d'
    /\ ptr d' = chars "    +042" /\ idx d' = 8.
Proof.
  destruct (proj1 (number_fills_width _ out_log
                     (mk_data [] (Z.lor FLAGS_PLUS FLAGS_PRECISION) 0 8 3
                        BASE_DECIMAL 0) 42 false
                     ltac:(lia) eq_refl ltac:(cbn; lia) ltac:(cbn; lia)
                     ltac:(discriminate)) ltac:(lia))
    as (d' & E & P & I & _).
  exists d'. split; [exact E|]. split; [exact P|exact I].
Defined.

(** X8: a nonzero number in a left-justified field is printed as the sign,
    the prefix and the digits, followed by the pad.  No zero is printed for
    the precision, though the pad is shortened by as many characters, and
    the pad is not counted. *)
Theorem number_left_justified :
  forall T (out : ascii -> T -> T) (d : data_t T) value negative,
    0 < value < 2 ^ 64 -> has d FLAGS_LEFT = true ->
    0 <= width d -> 0 <= precision d ->
    (has d FLAGS_PRECISION = false -> precision d = 0) ->
    (value < 2 ^ 32 ->
     let d1 := pre_format_long d value negative in
     let digits := get_digits_long value (base d) in
     let field :=
       sign_chars d1 ++ prefix_chars d1 ++ number_digits d1 value in
     let pad :=
       Z.to_nat
         (width d - digits
          - Z.of_nat (List.length (sign_chars d1 ++ prefix_chars d1))
          - Z.max 0 (precision d - digits)) in
     exists d',
       ntoa_long out (ntoa_format out d1) value = Ok d'
       /\ ptr d' = feed out (field ++ repeat " "%char pad) (ptr d)
       /\ idx d' = bump (List.length field) (idx d))
    /\ (let d1 := pre_format_long_long d value negative in
        let digits := get_digits_long_long value (base d) in
        let field :=
          sign_chars d1 ++ prefix_chars d1 ++ number_digits d1 value in
        let pad :=
          Z.to_nat
            (width d - digits
             - Z.of_nat (List.length (sign_chars d1 ++ prefix_chars d1))
             - Z.max 0 (precision d - digits)) in
        exists d',
          ntoa_long_long out (ntoa_format out d1) value = Ok d'
          /\ ptr d' = feed out (field ++ repeat " "%char pad) (ptr d)
          /\ idx d' = bump (List.length field) (idx d)).
Proof.
  intros T out d value negative Hv HL Hw Hp Hc. split.
  - intros H32 d1 digits field pad.
    destruct (number_field_long out d value negative)
      as (D1 & d' & E & _ & R); try assumption; try lia.
    fold d1 in D1, E, R. subst digits pad field. rewrite <- D1.
    exists d'. split; [exact E|]. exact (R HL).
  - intros d1 digits field pad.
    destruct (number_field_long_long out d value negative)
      as (D1 & d' & E & _ & R); try assumption; try lia.
    fold d1 in D1, E, R. subst digits pad field. rewrite <- D1.
    exists d'. split; [exact E|]. exact (R HL).
Qed.

Lemma number_left_justified_witness :
  exists d',
    ntoa_long out_log
      (ntoa_format out_log
         (pre_format_long
            (mk_data [] (Z.lor FLAGS_LEFT FLAGS_PRECISION) 0 8 5 BASE_DECIMAL
               0) 42 true)) 42
    = Ok d'
    /\ ptr d' = chars "-42  " /\ idx d' = 3.
Proof.
  destruct (proj1 (number_left_justified _ out_log
                     (mk_data [] (Z.lor FLAGS_LEFT FLAGS_PRECISION) 0 8 5
                        BASE_DECIMAL 0) 42 true
                     ltac:(lia) eq_refl ltac:(cbn; lia) ltac:(cbn; lia)
                     ltac:(discriminate)) ltac:(lia))
    as (d' & E & P & I).
  exists d'. split; [exact E|]. split; [exact P|exact I].
Defined.

(** ** X9: the bases that are powers of two *)

(** The count of digits found by shifting. *)
Lemma count_shift_spec fuel : forall bits value k,
  0 < bits -> 0 <= value < 2 ^ (bits * Z.of_nat fuel) ->
  0 <= k -> k + Z.of_nat fuel < 256 ->
  let r := count_shift fuel bits value k in
  k <= r <= k + Z.of_nat fuel
  /\ value < 2 ^ (bits * (r - k))
  /\ (k < r -> 2 ^ (bits * (r - k - 1)) <= value).
Proof.
  induction fuel as [|fuel IH]; intros bits value k Hb Hv Hk Hf r; subst r.
  - cbn [count_shift]. rewrite Z.sub_diag, Z.mul_0_r.
    cbn [Z.of_nat] in Hv. rewrite Z.mul_0_r in Hv. cbn in Hv |- *. lia.
  - cbn [count_shift]. destruct (0 <? value) eqn:E.
    + apply Z.ltb_lt in E.
      assert (U : u8 (k + 1) = k + 1)
        by (unfold u8, wrap_u; rewrite Z.mod_small; lia).
      rewrite U, Z.shiftr_div_pow2 by lia.
      assert (P : 0 < 2 ^ bits) by (apply Z.pow_pos_nonneg; lia).
      assert (S1 : 2 ^ (bits * Z.of_nat (S fuel))
                   = 2 ^ bits * 2 ^ (bits * Z.of_nat fuel)).
      { rewrite <- Z.pow_add_r by lia. f_equal. lia. }
      destruct (IH bits (value / 2 ^ bits) (k + 1)) as (R1 & R2 & R3);
        try lia.
      { split; [apply Z.div_pos; lia|].
        apply Z.div_lt_upper_bound; [lia|]. rewrite <- S1. lia. }
      set (r := count_shift fuel bits (value / 2 ^ bits) (k + 1)) in *.
      split; [lia|]. split.
      * replace (bits * (r - k)) with (bits + bits * (r - (k + 1))) by lia.
        rewrite Z.pow_add_r by nia.
        pose proof (Z.div_mod value (2 ^ bits) ltac:(lia)).
        pose proof (Z.mod_pos_bound value (2 ^ bits) P). nia.
      * intros _. destruct (Z.eq_dec r (k + 1)) as [->|Hr].
        -- replace (bits * (k + 1 - k - 1)) with 0 by lia. cbn. lia.
        -- specialize (R3 ltac:(lia)).
           replace (bits * (r - k - 1)) with (bits + bits * (r - (k + 1) - 1))
             by lia.
           rewrite Z.pow_add_r by nia.
           pose proof (Z.div_mod value (2 ^ bits) ltac:(lia)).
           pose proof (Z.mod_pos_bound value (2 ^ bits) P). nia.
    + apply Z.ltb_ge in E. rewrite Z.sub_diag, Z.mul_0_r. cbn. lia.
Qed.

Lemma digit_value_digit_char {T} (d : data_t T) x :
  0 <= x < 16 -> digit_value (digit_char d x) = Some x.
Proof.
  intros H. unfold digit_char.
  assert (C : x = 0 \/ x = 1 \/ x = 2 \/ x = 3 \/ x = 4 \/ x = 5 \/ x = 6
              \/ x = 7 \/ x = 8 \/ x = 9 \/ x = 10 \/ x = 11 \/ x = 12
              \/ x = 13 \/ x = 14 \/ x = 15) by lia.
  destruct (has d FLAGS_UPPERCASE);
    repeat (destruct C as [->|C]; [reflexivity|]); subst x; reflexivity.
Qed.

Lemma base_mask_ones b :
  b <> BASE_DECIMAL ->
  base_mask b = Z.ones (base_bits b) /\ 0 < base_bits b <= 4.
Proof. destruct b; intros H; try contradiction; split; cbn; lia. Qed.

(** Reading back the digits of the power-of-two bases. *)
Lemma parse_pow2_digits {T} (d : data_t T) n : forall acc v,
  base d <> BASE_DECIMAL -> 0 <= v ->
  parse_radix (radix_of (base d)) acc (pow2_digits d n v)
  = Some (acc * 2 ^ (base_bits (base d) * Z.of_nat n)
          + v mod 2 ^ (base_bits (base d) * Z.of_nat n)).
Proof.
  intros acc v Hb Hv. destruct (base_mask_ones (base d) Hb) as [M B].
  set (bits := base_bits (base d)) in *.
  assert (P : 0 < 2 ^ bits) by (apply Z.pow_pos_nonneg; lia).
  assert (P16 : 2 ^ bits <= 16)
    by (change 16 with (2 ^ 4); apply Z.pow_le_mono_r; lia).
  revert acc. induction n as [|n IH]; intros acc.
  - cbn [pow2_digits parse_radix Z.of_nat]. rewrite Z.mul_0_r.
    cbn. rewrite Z.mod_1_r. f_equal. lia.
  - cbn [pow2_digits parse_radix]. fold bits. rewrite M.
    rewrite Z.land_ones, Z.shiftr_div_pow2 by lia.
    set (x := (v / 2 ^ (Z.of_nat n * bits)) mod 2 ^ bits).
    assert (X : 0 <= x < 2 ^ bits) by (apply Z.mod_pos_bound; lia).
    replace (u8 x) with x
      by (unfold u8, wrap_u; rewrite Z.mod_small; lia).
    rewrite digit_value_digit_char by lia.
    unfold radix_of. fold bits.
    replace (x <? 2 ^ bits) with true by (symmetry; apply Z.ltb_lt; lia).
    change (2 ^ base_bits (base d)) with (radix_of (base d)).
    rewrite IH. f_equal.
    assert (S1 : 2 ^ (bits * Z.of_nat (S n))
                 = 2 ^ (bits * Z.of_nat n) * 2 ^ bits).
    { rewrite <- Z.pow_add_r by lia. f_equal. lia. }
    rewrite S1.
    rewrite (Z.rem_mul_r v (2 ^ (bits * Z.of_nat n)) (2 ^ bits))
      by (try apply Z.pow_nonzero; lia).
    subst x. replace (Z.of_nat n * bits) with (bits * Z.of_nat n) by lia.
    ring.
Qed.

Lemma parse_radix_non_null radix s : forall acc v,
  parse_radix radix acc s = Some v -> filter non_null s = s.
Proof.
  induction s as [|c s IH]; intros acc v H; [reflexivity|].
  cbn [parse_radix] in H. cbn [filter].
  assert (N : non_null c = true).
  { unfold non_null. destruct (Ascii.eqb_spec c NUL) as [->|]; [|reflexivity].
    discriminate H. }
  rewrite N. f_equal.
  destruct (digit_value c) as [x|]; [|discriminate H].
  destruct (x <? radix); [|discriminate H]. exact (IH _ _ H).
Qed.

(** A field without flags, width and precision: the digits alone. *)
Lemma plain_pow2_field {T} (out : ascii -> T -> T) N (D d1 : data_t T) v :
  (N < 256)%nat -> 0 < v < 2 ^ 64 ->
  base D <> BASE_DECIMAL -> width D = 0 -> precision D = 0 -> idx D = 0 ->
  has D FLAGS_LEFT = false -> has D FLAGS_ZEROPAD = false ->
  has D FLAGS_HASH = false -> has D FLAGS_PRECISION = false ->
  has D (Z.lor FLAGS_NEGATIVE (Z.lor FLAGS_PLUS FLAGS_SPACE)) = false ->
  d1 = set_digit_count (count_shift 64 (base_bits (base D)) v 0) D ->
  exists d' s,
    ntoa out (powers N) (ntoa_format out d1) v = Ok d'
    /\ ptr d' = feed out s (ptr D)
    /\ idx d' = Z.of_nat (List.length s)
    /\ s <> []
    /\ parse_radix (radix_of (base D)) 0 s = Some v.
Proof.
  intros HN Hv Hb Hw Hp Hi HL HZ HH HP HS ->.
  destruct (base_mask_ones (base D) Hb) as [_ B].
  destruct (count_shift_spec 64 (base_bits (base D)) v 0) as (R1 & R2 & R3);
    try lia.
  { split; [lia|]. apply Z.lt_le_trans with (2 ^ 64); [lia|].
    apply Z.pow_le_mono_r; lia. }
  set (dc := count_shift 64 (base_bits (base D)) v 0) in *.
  set (d1 := set_digit_count dc D).
  assert (Hdc : 0 < dc).
  { destruct (Z.eq_dec dc 0) as [E|]; [|lia].
    rewrite E, Z.sub_diag, Z.mul_0_r in R2. cbn in R2. lia. }
  destruct (number_field out N d1 v) as (d' & E & P & I); try lia.
  { subst d1. cbn [digit_count set_digit_count]. lia. }
  { intros Bd. contradiction. }
  assert (LW : layout_width d1 = d1)
    by (apply layout_width_plain;
        [exact Hw|exact Hp|subst d1; cbn [digit_count set_digit_count]; lia
        |exact HH]).
  assert (LC : layout_chars d1 = []).
  { unfold layout_chars. cbv zeta. rewrite LW.
    unfold pad_chars, sign_chars, prefix_chars, zero_chars.
    assert (F : forall m, has d1 m = has D m) by reflexivity.
    unfold has in HS. rewrite !test_lor in HS.
    apply orb_false_iff in HS. destruct HS as [SN HS].
    apply orb_false_iff in HS. destruct HS as [SP SS].
    rewrite !F, HL, HZ, HH. unfold has. rewrite SN, SP, SS.
    change (width d1) with (width D). change (precision d1) with (precision D).
    now rewrite Hw, Hp. }
  assert (ND : number_digits d1 v = pow2_digits D (Z.to_nat dc) v).
  { unfold number_digits.
    replace (base_eqb (base d1) BASE_DECIMAL) with false
      by (change (base d1) with (base D); destruct (base D);
          try reflexivity; contradiction).
    apply pow2_digits_cong; reflexivity. }
  assert (NT : number_trail d1 = [])
    by (unfold number_trail; change (has d1 FLAGS_LEFT) with (has D FLAGS_LEFT);
        now rewrite HL).
  rewrite LC, ND, NT in P. rewrite LC, ND in I.
  cbn [app] in P, I. rewrite app_nil_r in P.
  exists d', (pow2_digits D (Z.to_nat dc) v).
  split; [exact E|]. split; [exact P|].
  rewrite length_pow2_digits in *. split; [|split].
  - rewrite I. change (idx d1) with (idx D). rewrite Hi, bump_from_zero.
    unfold u8, wrap_u. rewrite Z.mod_small; lia.
  - intros C. apply (f_equal (@List.length ascii)) in C.
    rewrite length_pow2_digits in C. cbn [List.length] in C. lia.
  - rewrite parse_pow2_digits by (try assumption; lia).
    rewrite Z2Nat.id by lia. rewrite Z.sub_0_r in R2.
    rewrite Z.mod_small by lia. reflexivity.
Qed.

Lemma prints_in_radix_intro format arg radix v f c :
  format_out (out_char tty_putchar) [] (cstr format) [arg]
  = one_conversion (out_char tty_putchar) [] f c [arg] ->
  (exists d' s,
      convert_integer (out_char tty_putchar) (mk_data [] f 0 0 0 BASE_BINARY 0)
        c [arg]
      = Ok (d', [])
      /\ ptr d' = feed (out_char tty_putchar) s []
      /\ idx d' = Z.of_nat (List.length s)
      /\ s <> []
      /\ parse_radix radix 0 s = Some v) ->
  prints_in_radix format arg radix v.
Proof.
  intros Hrun (d' & s & Hc & Hp & Hi & Hs & Hparse).
  exists s. split; [|split; assumption].
  unfold printf_. rewrite Hrun. unfold one_conversion. rewrite Hc.
  cbn [rmap fst]. rewrite Hp, Hi, feed_out_char.
  rewrite (parse_radix_non_null _ _ _ _ Hparse).
  f_equal. f_equal. exact (feed_log s []).
Qed.

(** The conversions [x X o b] and their bases. *)
Lemma convert_radix_int {T} (out : ascii -> T -> T) p c b v va :
  In (c, b)
    [("x"%char, BASE_HEX); ("X"%char, BASE_HEX); ("o"%char, BASE_OCTAL);
     ("b"%char, BASE_BINARY)] ->
  0 <= v < 2 ^ 32 ->
  exists d' s,
    convert_integer out (mk_data p 0 0 0 0 BASE_BINARY 0) c (VInt v :: va)
    = Ok (d', va)
    /\ ptr d' = feed out s p
    /\ idx d' = Z.of_nat (List.length s)
    /\ s <> []
    /\ parse_radix (radix_of b) 0 s = Some v.
Proof.
  intros Hc Hv.
  assert (W : wrap_u INT_BITS v = v)
    by (unfold wrap_u; change (2 ^ INT_BITS) with (2 ^ 32);
        rewrite Z.mod_small; lia).
  assert (E : exists f,
             convert_integer out (mk_data p 0 0 0 0 BASE_BINARY 0) c
               (VInt v :: va)
             = (let D := mk_data p f 0 0 0 b 0 in
                let m := wrap_u INT_BITS v in
                let* d :=
                  ntoa_long out (ntoa_format out (pre_format_long D m false))
                    m in
                Ok (d, va))
             /\ (f = 0 \/ f = FLAGS_UPPERCASE) /\ b <> BASE_DECIMAL).
  { cbn [In] in Hc.
    destruct Hc as [Hc|[Hc|[Hc|[Hc|[]]]]]; inversion Hc; subst c b;
      [exists 0|exists FLAGS_UPPERCASE|exists 0|exists 0];
      (split; [reflexivity|split; [auto|discriminate]]). }
  destruct E as (f & E & Hf & Hb). rewrite E. cbv zeta. rewrite W.
  destruct (Z.eq_dec v 0) as [->|Hn].
  - exists (do_out out (mk_data p f 0 0 0 b 0) "0"), ["0"%char].
    destruct Hf as [->| ->], b; try contradiction;
      repeat split; try reflexivity; discriminate.
  - rewrite pre_format_long_nonzero by assumption. cbv iota. cbn [base].
    destruct (plain_pow2_field out 10 (mk_data p f 0 0 0 b 0)
                (set_digit_count (get_digits_long v b) (mk_data p f 0 0 0 b 0))
                v) as (d' & s & R & P & I & S & Q);
      try reflexivity; try assumption; try lia;
      try (destruct Hf as [->| ->]; reflexivity).
    + unfold get_digits_long. cbn [base].
      now replace (base_eqb b BASE_DECIMAL) with false
        by (destruct b; try reflexivity; contradiction).
    + exists d', s. unfold ntoa_long. cbn [base] in R.
      change pow10_long with (powers 10). rewrite R. cbn [bind].
      repeat split; assumption.
Qed.

Lemma convert_radix_long_long {T} (out : ascii -> T -> T) p c b v va :
  In (c, b)
    [("x"%char, BASE_HEX); ("X"%char, BASE_HEX); ("o"%char, BASE_OCTAL);
     ("b"%char, BASE_BINARY)] ->
  0 <= v < 2 ^ 64 ->
  exists d' s,
    convert_integer out
      (mk_data p (Z.lor FLAGS_LONG FLAGS_LONG_LONG) 0 0 0 BASE_BINARY 0) c
      (VLongLong v :: va)
    = Ok (d', va)
    /\ ptr d' = feed out s p
    /\ idx d' = Z.of_nat (List.length s)
    /\ s <> []
    /\ parse_radix (radix_of b) 0 s = Some v.
Proof.
  intros Hc Hv.
  assert (W : wrap_u LONG_LONG_BITS v = v)
    by (unfold wrap_u; change (2 ^ LONG_LONG_BITS) with (2 ^ 64);
        rewrite Z.mod_small; lia).
  set (LL := Z.lor FLAGS_LONG FLAGS_LONG_LONG).
  assert (E : exists f,
             convert_integer out (mk_data p LL 0 0 0 BASE_BINARY 0) c
               (VLongLong v :: va)
             = (let D := mk_data p f 0 0 0 b 0 in
                let m := wrap_u LONG_LONG_BITS v in
                let* d :=
                  ntoa_long_long out
                    (ntoa_format out (pre_format_long_long D m false)) m in
                Ok (d, va))
             /\ (f = LL \/ f = Z.lor LL FLAGS_UPPERCASE)
             /\ b <> BASE_DECIMAL).
  { cbn [In] in Hc.
    destruct Hc as [Hc|[Hc|[Hc|[Hc|[]]]]]; inversion Hc; subst c b;
      [exists LL|exists (Z.lor LL FLAGS_UPPERCASE)|exists LL|exists LL];
      (split; [reflexivity|split; [auto|discriminate]]). }
  destruct E as (f & E & Hf & Hb). rewrite E. cbv zeta. rewrite W.
  destruct (Z.eq_dec v 0) as [->|Hn].
  - exists (do_out out (mk_data p f 0 0 0 b 0) "0"), ["0"%char].
    destruct Hf as [->| ->], b; try contradiction;
      repeat split; try reflexivity; discriminate.
  - rewrite pre_format_long_long_nonzero by assumption. cbv iota.
    cbn [base].
    destruct (plain_pow2_field out 20 (mk_data p f 0 0 0 b 0)
                (set_digit_count (get_digits_long_long v b)
                   (mk_data p f 0 0 0 b 0))
                v) as (d' & s & R & P & I & S & Q);
      try reflexivity; try assumption; try lia;
      try (destruct Hf as [->| ->]; reflexivity).
    + unfold get_digits_long_long. cbn [base].
      now replace (base_eqb b BASE_DECIMAL) with false
        by (destruct b; try reflexivity; contradiction).
    + exists d', s. unfold ntoa_long_long. cbn [base] in R.
      change pow10_long_long with (powers 20). rewrite R. cbn [bind].
      repeat split; assumption.
Qed.

(** X9: for every value of [unsigned int] and of [unsigned long long], the
    conversions [x], [X], [o] and [b] print a numeral, counted in full, that
    reads back as the value in the radix 16, 16, 8 and 2. *)
Theorem radix_round_trip :
  (forall v, 0 <= v < 2 ^ 32 ->
      prints_in_radix "%x" (VInt v) 16 v /\ prints_in_radix "%X" (VInt v) 16 v
      /\ prints_in_radix "%o" (VInt v) 8 v
      /\ prints_in_radix "%b" (VInt v) 2 v)
  /\ (forall v, 0 <= v < 2 ^ 64 ->
         prints_in_radix "%llx" (VLongLong v) 16 v
         /\ prints_in_radix "%llX" (VLongLong v) 16 v
         /\ prints_in_radix "%llo" (VLongLong v) 8 v
         /\ prints_in_radix "%llb" (VLongLong v) 2 v).
Proof.
  split; intros v Hv.
  - repeat split.
    + apply (prints_in_radix_intro "%x" (VInt v) 16 v 0 "x").
      * exact (run_specifier _ [] 0 "x" [VInt v] 2 eq_refl).
      * apply (convert_radix_int _ [] "x" BASE_HEX v []); cbn; auto.
    + apply (prints_in_radix_intro "%X" (VInt v) 16 v 0 "X").
      * exact (run_specifier _ [] 0 "X" [VInt v] 2 eq_refl).
      * apply (convert_radix_int _ [] "X" BASE_HEX v []); cbn; auto.
    + apply (prints_in_radix_intro "%o" (VInt v) 8 v 0 "o").
      * exact (run_specifier _ [] 0 "o" [VInt v] 2 eq_refl).
      * apply (convert_radix_int _ [] "o" BASE_OCTAL v []); cbn; auto.
    + apply (prints_in_radix_intro "%b" (VInt v) 2 v 0 "b").
      * exact (run_specifier _ [] 0 "b" [VInt v] 2 eq_refl).
      * apply (convert_radix_int _ [] "b" BASE_BINARY v []); cbn; auto.
  - repeat split.
    + apply (prints_in_radix_intro "%llx" (VLongLong v) 16 v
               (Z.lor FLAGS_LONG FLAGS_LONG_LONG) "x").
      * exact (run_specifier _ [] (Z.lor FLAGS_LONG FLAGS_LONG_LONG) "x"
                 [VLongLong v] 4 eq_refl).
      * apply (convert_radix_long_long _ [] "x" BASE_HEX v []); cbn; auto.
    + apply (prints_in_radix_intro "%llX" (VLongLong v) 16 v
               (Z.lor FLAGS_LONG FLAGS_LONG_LONG) "X").
      * exact (run_specifier _ [] (Z.lor FLAGS_LONG FLAGS_LONG_LONG) "X"
                 [VLongLong v] 4 eq_refl).
      * apply (convert_radix_long_long _ [] "X" BASE_HEX v []); cbn; auto.
    + apply (prints_in_radix_intro "%llo" (VLongLong v) 8 v
               (Z.lor FLAGS_LONG FLAGS_LONG_LONG) "o").
      * exact (run_specifier _ [] (Z.lor FLAGS_LONG FLAGS_LONG_LONG) "o"
                 [VLongLong v] 4 eq_refl).
      * apply (convert_radix_long_long _ [] "o" BASE_OCTAL v []); cbn; auto.
    + apply (prints_in_radix_intro "%llb" (VLongLong v) 2 v
               (Z.lor FLAGS_LONG FLAGS_LONG_LONG) "b").
      * exact (run_specifier _ [] (Z.lor FLAGS_LONG FLAGS_LONG_LONG) "b"
                 [VLongLong v] 4 eq_refl).
      * apply (convert_radix_long_long _ [] "b" BASE_BINARY v []); cbn; auto.
Qed.

Lemma radix_round_trip_witness :
  prints_in_radix "%x" (VInt 48879) 16 48879
  /\ prints_in_radix "%b" (VInt 4294967295) 2 4294967295
  /\ prints_in_radix "%llo" (VLongLong 18446744073709551615) 8
       18446744073709551615.
Proof.
  split; [|split].
  - exact (proj1 (proj1 radix_round_trip 48879 ltac:(lia))).
  - exact (proj2 (proj2 (proj2 (proj1 radix_round_trip 4294967295
                                  ltac:(lia))))).
  - exact (proj1 (proj2 (proj2 (proj2 radix_round_trip 18446744073709551615
                                  ltac:(lia))))).
Defined.

(** ** X10: the conversion of a pointer *)









(** ** X11: the field of the value zero *)

Section Zero.

Context {T : Type}.
Variable out : ascii -> T -> T.

Lemma ntoa_zero N (d : data_t T) :
  has d FLAGS_PRECISION = false -> 0 <= width d ->
  exists d',
    ntoa out (powers N) d 0 = Ok d'
    /\ ptr d'
       = feed out
           ("0"%char
            :: (if has d FLAGS_LEFT
                then repeat " "%char (Z.to_nat (width d)) else []))
           (ptr d)
    /\ idx d' = u8 (idx d + 1).
Proof.
  intros HP Hw. unfold ntoa. rewrite HP. cbn [negb orb Z.eqb bind].
  eexists. split; [reflexivity|].
  change (has (do_out out d "0") FLAGS_LEFT) with (has d FLAGS_LEFT).
  destruct (has d FLAGS_LEFT); [|split; reflexivity].
  destruct (pad_trailing_fields out (do_out out d "0")) as [P I].
  rewrite P, I. split; reflexivity.
Qed.

(** The layout and the converter for the value zero without a precision:
    [d1] is the state that [pre_format] leaves from [d]. *)
Lemma zero_field_sized N (d d1 : data_t T) :
  has d FLAGS_PRECISION = false -> precision d = 0 -> 0 <= width d ->
  has d FLAGS_LEFT = false ->
  ptr d1 = ptr d -> idx d1 = idx d -> width d1 = width d ->
  precision d1 = precision d -> digit_count d1 = 0 ->
  has d1 FLAGS_LEFT = has d FLAGS_LEFT ->
  has d1 FLAGS_PRECISION = has d FLAGS_PRECISION ->
  has d1 FLAGS_HASH = false ->
  let field := layout_chars d1 ++ ["0"%char] in
  exists d',
    ntoa out (powers N) (ntoa_format out d1) 0 = Ok d'
    /\ ptr d' = feed out field (ptr d)
    /\ idx d' = bump (List.length field) (idx d)
    /\ Z.of_nat (List.length field)
       = Z.max (width d) (Z.of_nat (List.length (sign_chars d1))) + 1.
Proof.
  intros HP Hp Hw HL P1 I1 W1 Pr1 D1 L1 PF1 H1 field.
  destruct (layout_width_fields d1) as (Pr & Fr & Ir & Br & Dr & Wr & _).
  set (d2 := ntoa_format out d1).
  assert (E2 : d2 = layout_final
                      (emitted out (layout_chars d1) (layout_width d1)))
    by apply ntoa_format_closed.
  assert (L2 : has (layout_width d1) FLAGS_LEFT = false)
    by (rewrite (has_flags (layout_width d1) d1), L1 by assumption;
        exact HL).
  assert (F2 : flags d2 = flags d1).
  { rewrite E2. unfold layout_final. rewrite has_emitted, L2.
    cbn [negb flags set_width set_precision]. now rewrite flags_emitted. }
  assert (P2 : ptr d2 = feed out (layout_chars d1) (ptr d)).
  { rewrite E2. unfold layout_final. rewrite has_emitted, L2.
    cbn [negb ptr set_width set_precision].
    now rewrite ptr_emitted, Pr, P1. }
  assert (I2 : idx d2 = bump (List.length (layout_chars d1)) (idx d)).
  { rewrite E2. unfold layout_final. rewrite has_emitted, L2.
    cbn [negb idx set_width set_precision].
    now rewrite idx_emitted, Ir, I1. }
  assert (W2 : width d2 = 0).
  { rewrite E2. unfold layout_final. rewrite has_emitted, L2. reflexivity. }
  destruct (ntoa_zero N d2) as (d' & E & P & I).
  - now rewrite (has_flags d2 d1), PF1.
  - lia.
  - exists d'. split; [exact E|].
    rewrite (has_flags d2 d1), L1, HL in P by assumption.
    subst field. rewrite P, I, P2, I2, feed_app, length_app.
    rewrite Nat.add_comm. cbn [List.length Nat.add].
    change (bump (S ?n) ?i) with (u8 (bump n i + 1)).
    split; [reflexivity|]. split; [reflexivity|].
    pose proof (layout_chars_length d1 ltac:(lia) ltac:(lia) ltac:(lia))
      as LL.
    destruct (layout_width_closed d1) as [WL PL]; [lia|lia|].
    rewrite L1, HL in LL. rewrite length_app in LL.
    assert (PC : prefix_chars d1 = [])
      by (unfold prefix_chars; now rewrite H1).
    rewrite PC in LL, WL. cbn [List.length] in LL, WL.
    rewrite PF1, HP, D1, W1 in WL. rewrite Pr1, Hp, D1 in PL.
    lia.
Qed.

End Zero.

(** X11: the value zero without a precision, in a field that is not
    left-justified, is printed as the pad, the sign and one digit; the pad
    is as long as for a number without digits, so the field is one
    character longer than the width whenever the width is more than the
    sign. *)
Theorem zero_without_precision :
  forall T (out : ascii -> T -> T) (d : data_t T) negative,
    has d FLAGS_PRECISION = false -> precision d = 0 -> 0 <= width d ->
    has d FLAGS_LEFT = false ->
    (let d1 := pre_format_long d 0 negative in
     let field := layout_chars d1 ++ ["0"%char] in
     exists d',
       ntoa_long out (ntoa_format out d1) 0 = Ok d'
       /\ ptr d' = feed out field (ptr d)
       /\ idx d' = bump (List.length field) (idx d)
       /\ Z.of_nat (List.length field)
          = Z.max (width d) (Z.of_nat (List.length (sign_chars d1))) + 1)
    /\ (let d1 := pre_format_long_long d 0 negative in
        let field := layout_chars d1 ++ ["0"%char] in
        exists d',
          ntoa_long_long out (ntoa_format out d1) 0 = Ok d'
          /\ ptr d' = feed out field (ptr d)
          /\ idx d' = bump (List.length field) (idx d)
          /\ Z.of_nat (List.length field)
             = Z.max (width d) (Z.of_nat (List.length (sign_chars d1)))
               + 1).
Proof.
  intros T out d negative HP Hp Hw HL.
  assert (K : forall m, Z.land (Z.lnot FLAGS_HASH) m = m ->
              Z.land FLAGS_NEGATIVE m = 0 ->
              has (pre_format_long d 0 negative) m = has d m
              /\ has (pre_format_long_long d 0 negative) m = has d m).
  { intros m Hm Hn. unfold pre_format_long, pre_format_long_long, has.
    cbn [Z.eqb]. cbv zeta.
    destruct negative; cbn [flags set_flags set_digit_count];
      rewrite ?test_set_other by assumption;
      rewrite test_clear_other by assumption; split; reflexivity. }
  split.
  - apply (zero_field_sized out 10 d (pre_format_long d 0 negative));
      try assumption;
      try (unfold pre_format_long; destruct negative; reflexivity).
    + unfold pre_format_long, get_digits_long.
      destruct negative, (base d); reflexivity.
    + apply (K FLAGS_LEFT); reflexivity.
    + apply (K FLAGS_PRECISION); reflexivity.
    + apply pre_format_long_zero.
  - apply (zero_field_sized out 20 d (pre_format_long_long d 0 negative));
      try assumption;
      try (unfold pre_format_long_long; destruct negative; reflexivity).
    + unfold pre_format_long_long, get_digits_long_long.
      destruct negative, (base d); reflexivity.
    + apply (K FLAGS_LEFT); reflexivity.
    + apply (K FLAGS_PRECISION); reflexivity.
    + apply pre_format_long_long_zero.
Qed.

Lemma zero_without_precision_witness :
  exists d',
    ntoa_long out_log
      (ntoa_format out_log
         (pre_format_long (mk_data [] FLAGS_PLUS 0 5 0 BASE_DECIMAL 0) 0
            false)) 0
    = Ok d'
    /\ ptr d' = chars "    +0" /\ idx d' = 6.
Proof.
  destruct (proj1 (zero_without_precision _ out_log
                     (mk_data [] FLAGS_PLUS 0 5 0 BASE_DECIMAL 0) false
                     eq_refl eq_refl ltac:(cbn; lia) eq_refl))
    as (d' & E & P & I & _).
  exists d'. split; [exact E|]. split; [exact P|exact I].
Defined.

(** ** X12: the buffer without a bound *)

Lemma poke_beyond m : forall k c,
  (List.length m <= k)%nat -> poke m k c = None.
Proof.
  induction m as [|x m IH]; intros k c H; [reflexivity|].
  destruct k as [|k]; [cbn in H; lia|].
  cbn [poke]. rewrite IH by (cbn in H; lia). reflexivity.
Qed.

(** Stores at and after the end of the array. *)
Lemma feed_out_sprintf_beyond cs : forall m b cap o,
  Z.of_nat (List.length m) <= b -> Z.of_nat (List.length cs) <= cap ->
  feed out_sprintf cs (mk_sprintf m (Some b) cap o)
  = mk_sprintf m (Some (b + Z.of_nat (List.length cs)))
      (cap - Z.of_nat (List.length cs))
      (match cs with [] => o | _ => true end).
Proof.
  induction cs as [|c cs IH]; intros m b cap o Hb Hc.
  - cbn. now rewrite Z.add_0_r, Z.sub_0_r.
  - change (feed out_sprintf (c :: cs) ?s)
      with (feed out_sprintf cs (out_sprintf c s)).
    cbn [List.length] in Hc |- *.
    unfold out_sprintf at 2. cbn [buffer maxlen].
    replace (0 <? cap) with true by (symmetry; apply Z.ltb_lt; lia).
    unfold store. cbn [mem buffer maxlen overflow].
    replace (b <? 0) with false by (symmetry; apply Z.ltb_ge; lia).
    rewrite poke_beyond by lia. cbn [mem buffer maxlen overflow].
    rewrite IH by lia.
    f_equal; [f_equal; lia|lia|now destruct cs].
Qed.

(** The sink with more capacity than characters: every character is
    stored, in the array while it lasts and outside it after that. *)
Lemma feed_out_sprintf_unbounded cs : forall pre post cap,
  Z.of_nat (List.length cs) <= cap ->
  feed out_sprintf cs
    (mk_sprintf (pre ++ post) (Some (Z.of_nat (List.length pre))) cap false)
  = mk_sprintf
      (pre ++ firstn (List.length post) cs ++ skipn (List.length cs) post)
      (Some (Z.of_nat (List.length pre + List.length cs)))
      (cap - Z.of_nat (List.length cs))
      (Z.of_nat (List.length post) <? Z.of_nat (List.length cs)).
Proof.
  induction cs as [|c cs IH]; intros pre post cap Hc.
  - cbn [feed fold_left List.length skipn]. rewrite firstn_nil.
    cbn [app]. rewrite Nat.add_0_r, Z.sub_0_r.
    now replace (Z.of_nat (List.length post) <? Z.of_nat 0) with false
      by (symmetry; apply Z.ltb_ge; lia).
  - change (feed out_sprintf (c :: cs) ?s)
      with (feed out_sprintf cs (out_sprintf c s)).
    cbn [List.length] in Hc.
    unfold out_sprintf at 2. cbn [buffer maxlen].
    replace (0 <? cap) with true by (symmetry; apply Z.ltb_lt; lia).
    unfold store. cbn [mem buffer maxlen overflow].
    replace (Z.of_nat (List.length pre) <? 0) with false
      by (symmetry; apply Z.ltb_ge; lia).
    rewrite Nat2Z.id. destruct post as [|x post].
    + rewrite poke_beyond by (rewrite app_nil_r; lia).
      cbn [mem buffer maxlen overflow].
      rewrite feed_out_sprintf_beyond
        by (rewrite ?app_nil_r; cbn [List.length]; lia).
      cbn [List.length firstn]. rewrite skipn_nil.
      replace (Z.of_nat 0 <? Z.of_nat (S (List.length cs))) with true
        by (symmetry; apply Z.ltb_lt; lia).
      f_equal; [f_equal; lia|lia|now destruct cs].
    + rewrite poke_app. cbn [mem buffer maxlen overflow].
      replace (pre ++ c :: post) with ((pre ++ [c]) ++ post)
        by (now rewrite <- app_assoc).
      replace (Z.of_nat (List.length pre) + 1)
        with (Z.of_nat (List.length (pre ++ [c])))
        by (rewrite length_app; cbn; lia).
      rewrite IH by lia.
      cbn [List.length firstn skipn]. rewrite <- !app_assoc. cbn [app].
      f_equal; [f_equal; rewrite length_app; cbn; lia|lia|].
      destruct (Z.of_nat (List.length post) <? Z.of_nat (List.length cs))
        eqn:E; symmetry;
        [apply Z.ltb_lt in E; apply Z.ltb_lt
        |apply Z.ltb_ge in E; apply Z.ltb_ge]; lia.
Qed.

(** X12: [sprintf_] stores every character of the formatter and the
    terminator after them, whatever the size of the array: the stores stay
    inside the array exactly when it has room for the characters and the
    terminator.  With a null buffer the terminator is stored through the
    null pointer.  A bounded call with room for all leaves the same
    array. *)
Theorem sprintf_unbounded :
  forall m format va cs n,
    format_out out_log [] format va = Ok (cs, n) ->
    Z.of_nat (List.length cs) <= SIZE_MAX ->
    let fits := Z.of_nat (List.length cs) <? Z.of_nat (List.length m) in
    sprintf_ m (Some 0) format va
    = Ok (mk_sprintf
            (if fits then cs ++ NUL :: skipn (S (List.length cs)) m
             else firstn (List.length m) cs)
            (Some (Z.of_nat (List.length cs)))
            (SIZE_MAX - Z.of_nat (List.length cs))
            (negb fits),
          n)
    /\ sprintf_ m None format va = Fault NullStore
    /\ (forall count,
           Z.of_nat (List.length cs) < count <= Z.of_nat (List.length m) ->
           rmap (fun r => mem (fst r)) (snprintf_ m (Some 0) count format va)
           = rmap (fun r => mem (fst r)) (sprintf_ m (Some 0) format va)).
Proof.
  intros m format va cs n H Hl fits.
  assert (S0 : sprintf_ m (Some 0) format va
               = Ok (mk_sprintf
                       (if fits then cs ++ NUL :: skipn (S (List.length cs)) m
                        else firstn (List.length m) cs)
                       (Some (Z.of_nat (List.length cs)))
                       (SIZE_MAX - Z.of_nat (List.length cs))
                       (negb fits),
                     n)).
  { unfold sprintf_. cbv zeta. rewrite format_out_feed, H.
    cbn [rmap bind fst snd].
    change (mk_sprintf m (Some 0) SIZE_MAX false)
      with (mk_sprintf ([] ++ m)
              (Some (Z.of_nat (List.length (@nil ascii)))) SIZE_MAX false).
    rewrite feed_out_sprintf_unbounded by assumption.
    cbn [app List.length Nat.add buffer]. unfold store.
    cbn [mem buffer maxlen overflow].
    replace (Z.of_nat (List.length cs) <? 0) with false
      by (symmetry; apply Z.ltb_ge; lia).
    rewrite Nat2Z.id. subst fits.
    destruct (Z.of_nat (List.length cs) <? Z.of_nat (List.length m)) eqn:E.
    - apply Z.ltb_lt in E.
      rewrite firstn_all2 by lia.
      destruct (skipn_cons_nth m (List.length cs)) as [x Hx]; [lia|].
      rewrite Hx, poke_app.
      replace (Z.of_nat (List.length m) <? Z.of_nat (List.length cs))
        with false by (symmetry; apply Z.ltb_ge; lia).
      reflexivity.
    - apply Z.ltb_ge in E.
      rewrite skipn_all2 by lia. rewrite app_nil_r.
      rewrite poke_beyond by (rewrite length_firstn; lia).
      reflexivity. }
  split; [exact S0|]. split.
  - unfold sprintf_. cbv zeta. rewrite format_out_feed, H.
    cbn [rmap bind fst snd]. now rewrite feed_out_sprintf_null.
  - intros count Hc. rewrite S0. unfold snprintf_.
    rewrite (vsnprintf_closed m count format va cs n) by (try assumption; lia).
    cbn [rmap fst mem]. unfold bounded_copy. subst fits.
    replace (count =? 0) with false by (symmetry; apply Z.eqb_neq; lia).
    replace (Z.of_nat (List.length cs) <? count) with true
      by (symmetry; apply Z.ltb_lt; lia).
    now replace (Z.of_nat (List.length cs) <? Z.of_nat (List.length m))
      with true by (symmetry; apply Z.ltb_lt; lia).
Qed.

Lemma sprintf_unbounded_witness :
  sprintf_ (chars "XXXXXXXX") (Some 0) (cstr "%d!") [VInt 123]
  = Ok (mk_sprintf (chars "123!" ++ NUL :: chars "XXX") (Some 4)
          (SIZE_MAX - 4) false, 4)
  /\ sprintf_ (chars "XXXX") (Some 0) (cstr "%d!") [VInt 123]
     = Ok (mk_sprintf (chars "123!") (Some 4) (SIZE_MAX - 4) true, 4).
Proof.
  split.
  - exact (proj1 (sprintf_unbounded (chars "XXXXXXXX") (cstr "%d!")
                    [VInt 123] (chars "123!") 4 eq_refl
                    ltac:(unfold SIZE_MAX; cbn; lia))).
  - exact (proj1 (sprintf_unbounded (chars "XXXX") (cstr "%d!")
                    [VInt 123] (chars "123!") 4 eq_refl
                    ltac:(unfold SIZE_MAX; cbn; lia))).
Defined.

(** ** X13: the tables of the powers of ten are read inside their bounds *)

Lemma in_bounds_bind {A B} (m : result A) (k : A -> result B) :
  in_bounds m -> (forall a, in_bounds (k a)) -> in_bounds (bind m k).
Proof.
  destruct m as [a|e]; cbn [bind]; intros Hm Hk; [apply Hk|exact Hm].
Qed.

Lemma in_bounds_ok {A} (a : A) : in_bounds (Ok a).
Proof. exact I. Qed.

Lemma in_bounds_deref p : in_bounds (deref p).
Proof. destruct p; exact I. Qed.

Lemma in_bounds_va_arg va :
  in_bounds (va_arg_int va) /\ in_bounds (va_arg_unsigned_int va)
  /\ in_bounds (va_arg_long va) /\ in_bounds (va_arg_unsigned_long va)
  /\ in_bounds (va_arg_long_long va)
  /\ in_bounds (va_arg_unsigned_long_long va)
  /\ in_bounds (va_arg_void_p va) /\ in_bounds (va_arg_char_p va).
Proof.
  unfold va_arg_int, va_arg_unsigned_int, va_arg_long, va_arg_unsigned_long,
    va_arg_long_long, va_arg_unsigned_long_long, va_arg_void_p, va_arg_char_p.
  destruct va as [|[v|v|v|v|s] va]; repeat split; exact I.
Qed.

Lemma in_bounds_atoi_from str : forall i, in_bounds (atoi_from i str).
Proof.
  induction str as [|c str IH]; intros i; cbn [atoi_from]; [exact I|].
  destruct (is_digit c); [apply IH|exact I].
Qed.

Lemma in_bounds_eval_flags {T} format : forall d : data_t T,
  in_bounds (eval_flags d format).
Proof.
  induction format as [|c format IH]; intros d; cbn [eval_flags];
    [exact I|].
  repeat match goal with
         | |- in_bounds (if ?b then _ else _) => destruct b; [apply IH|]
         end.
  exact I.
Qed.

Lemma in_bounds_strnlen_s s : forall maxsize len,
  in_bounds (strnlen_s s maxsize len).
Proof.
  induction s as [|c s IH]; intros maxsize len; cbn [strnlen_s];
    [exact I|].
  destruct (_ && _); [apply IH|exact I].
Qed.

Lemma in_bounds_string_output {T} (out : ascii -> T -> T) p :
  forall d : data_t T, in_bounds (string_output out p d).
Proof.
  induction p as [|c p IH]; intros d; cbn [string_output]; [exact I|].
  destruct (Ascii.eqb c NUL); [exact I|].
  destruct (negb (has d FLAGS_PRECISION)); [apply IH|].
  cbv zeta. destruct (negb (precision d =? 0)); [apply IH|exact I].
Qed.

Lemma in_bounds_print_string {T} (out : ascii -> T -> T) (d : data_t T) p :
  in_bounds (print_string out d p).
Proof.
  unfold print_string.
  apply in_bounds_bind; [apply in_bounds_strnlen_s|intros l]. cbv zeta.
  destruct (if negb (has d FLAGS_LEFT) then _ else _) as [l' d1].
  apply in_bounds_bind; [apply in_bounds_string_output|intros; exact I].
Qed.

(** The decimal loop reads the table at the indices below the digit
    count. *)
Lemma in_bounds_ntoa_decimal {T} (out : ascii -> T -> T) table n :
  forall (d : data_t T) value,
    digit_count d = Z.of_nat n -> (n <= List.length table)%nat ->
    in_bounds (ntoa_decimal out table n d value).
Proof.
  induction n as [|n IH]; intros d value Hd Hn; [exact I|].
  cbn [ntoa_decimal].
  replace (0 <? digit_count d) with true by (symmetry; apply Z.ltb_lt; lia).
  cbv zeta. cbn [digit_count set_digit_count].
  unfold table_at.
  replace (digit_count d - 1 <? 0) with false
    by (symmetry; apply Z.ltb_ge; lia).
  replace (Z.to_nat (digit_count d - 1)) with n by lia.
  destruct (nth_error table n) as [l|] eqn:E.
  - cbn [bind]. apply IH; [cbn; lia|lia].
  - apply nth_error_None in E. lia.
Qed.

Lemma in_bounds_ntoa {T} (out : ascii -> T -> T) table (d : data_t T) value :
  (base d = BASE_DECIMAL ->
   0 <= digit_count d <= Z.of_nat (List.length table)) ->
  in_bounds (ntoa out table d value).
Proof.
  intros H. unfold ntoa. apply in_bounds_bind; [|intros; exact I].
  destruct (_ || _); [|exact I].
  destruct (value =? 0); [exact I|].
  destruct (base_eqb (base d) BASE_DECIMAL) eqn:B; [|exact I].
  assert (Bd : base d = BASE_DECIMAL)
    by (destruct (base d); now try discriminate B).
  specialize (H Bd). apply in_bounds_ntoa_decimal; lia.
Qed.

Lemma ntoa_format_base_digits {T} (out : ascii -> T -> T) (d : data_t T) :
  base (ntoa_format out d) = base d
  /\ digit_count (ntoa_format out d) = digit_count d.
Proof.
  destruct (layout_width_fields d) as (_ & _ & _ & B & D & _).
  rewrite ntoa_format_closed. unfold layout_final.
  destruct (negb _); cbn [base digit_count set_width set_precision];
    now rewrite base_emitted, digit_count_emitted.
Qed.

Lemma count_pow10_bound N value :
  (N < 256)%nat -> 0 <= count_pow10 (powers N) value 0 <= Z.of_nat N.
Proof.
  intros HN.
  destruct (count_pow10_spec N 0 value) as (K & _); [lia|now left|].
  cbn [Z.of_nat Nat.add] in K. exact K.
Qed.

Lemma in_bounds_number_long {T} (out : ascii -> T -> T) (d : data_t T)
    value negative :
  in_bounds
    (ntoa_long out (ntoa_format out (pre_format_long d value negative)) value).
Proof.
  apply in_bounds_ntoa.
  destruct (ntoa_format_base_digits out (pre_format_long d value negative))
    as [B D].
  rewrite B, D. intros Bd.
  assert (F : base (pre_format_long d value negative) = base d
              /\ digit_count (pre_format_long d value negative)
                 = get_digits_long value (base d))
    by (unfold pre_format_long; destruct (value =? 0), negative; now split).
  destruct F as [F1 F2]. rewrite F1 in Bd. rewrite F2, Bd.
  exact (count_pow10_bound 10 value ltac:(lia)).
Qed.

Lemma in_bounds_number_long_long {T} (out : ascii -> T -> T) (d : data_t T)
    value negative :
  in_bounds
    (ntoa_long_long out
       (ntoa_format out (pre_format_long_long d value negative)) value).
Proof.
  apply in_bounds_ntoa.
  destruct (ntoa_format_base_digits out
              (pre_format_long_long d value negative)) as [B D].
  rewrite B, D. intros Bd.
  assert (F : base (pre_format_long_long d value negative) = base d
              /\ digit_count (pre_format_long_long d value negative)
                 = get_digits_long_long value (base d))
    by (unfold pre_format_long_long; destruct (value =? 0), negative;
        now split).
  destruct F as [F1 F2]. rewrite F1 in Bd. rewrite F2, Bd.
  exact (count_pow10_bound 20 value ltac:(lia)).
Qed.

Ltac in_bounds_conv :=
  cbv zeta;
  repeat lazymatch goal with
         | |- in_bounds (Ok _) => exact I
         | |- in_bounds (bind _ _) =>
             apply in_bounds_bind; [|intros [? ?] || intros ?]
         | |- in_bounds (if ?b then _ else _) => destruct b
         | |- in_bounds (ntoa_long _ _ _) => apply in_bounds_number_long
         | |- in_bounds (ntoa_long_long _ _ _) =>
             apply in_bounds_number_long_long
         | |- in_bounds _ => apply in_bounds_va_arg
         end.

Lemma in_bounds_convert_integer {T} (out : ascii -> T -> T) (d : data_t T)
    c va :
  in_bounds (convert_integer out d c va).
Proof.
  cbv beta delta [convert_integer].
  repeat match goal with
         | |- in_bounds (let x := ?a in _) =>
             generalize a; intros ?; cbv beta zeta
         end.
  in_bounds_conv.
Qed.

Lemma in_bounds_convert_char {T} (out : ascii -> T -> T) (d : data_t T) va :
  in_bounds (convert_char out d va).
Proof.
  unfold convert_char. cbv zeta.
  destruct (if negb (has d FLAGS_LEFT) then _ else _) as [l d1].
  in_bounds_conv.
Qed.

Lemma in_bounds_convert_pointer {T} (out : ascii -> T -> T) (d : data_t T)
    va :
  in_bounds (convert_pointer out d va).
Proof. unfold convert_pointer. in_bounds_conv. Qed.

Lemma in_bounds_eval_width {T} (d : data_t T) format va :
  in_bounds (eval_width d format va).
Proof.
  unfold eval_width, atoi. cbv zeta.
  apply in_bounds_bind; [apply in_bounds_deref|intros c].
  destruct (is_digit c).
  - apply in_bounds_bind; [apply in_bounds_atoi_from|intros [? ?]; exact I].
  - destruct (Ascii.eqb c "*"); [|exact I].
    apply in_bounds_bind; [apply in_bounds_va_arg|intros [? ?]; exact I].
Qed.

Lemma in_bounds_eval_precision {T} (d : data_t T) format va :
  in_bounds (eval_precision d format va).
Proof.
  unfold eval_precision, atoi. cbv zeta.
  apply in_bounds_bind; [apply in_bounds_deref|intros c].
  destruct (Ascii.eqb c "."); [|exact I].
  apply in_bounds_bind; [apply in_bounds_deref|intros c'].
  destruct (is_digit c').
  - apply in_bounds_bind; [apply in_bounds_atoi_from|intros [? ?]; exact I].
  - destruct (Ascii.eqb c' "*"); [|exact I].
    apply in_bounds_bind; [apply in_bounds_va_arg|intros [? ?]; exact I].
Qed.

Lemma in_bounds_eval_length {T} (d : data_t T) format :
  in_bounds (eval_length d format).
Proof.
  unfold eval_length. cbv zeta.
  apply in_bounds_bind; [apply in_bounds_deref|intros c].
  repeat first
    [ apply in_bounds_ok
    | apply in_bounds_bind; [apply in_bounds_deref|intros ?]
    | match goal with
      | |- in_bounds (if ?b then _ else _) => destruct b
      end ].
Qed.

Lemma in_bounds_eval_specifier {T} (out : ascii -> T -> T) (d : data_t T)
    format va :
  in_bounds (eval_specifier out d format va).
Proof.
  unfold eval_specifier.
  apply in_bounds_bind; [apply in_bounds_deref|intros c].
  destruct (is_integer_conversion c).
  { apply in_bounds_bind;
      [apply in_bounds_convert_integer|intros [? ?]; exact I]. }
  destruct (Ascii.eqb c "c").
  { apply in_bounds_bind;
      [apply in_bounds_convert_char|intros [? ?]; exact I]. }
  destruct (Ascii.eqb c "s").
  { apply in_bounds_bind; [apply in_bounds_va_arg|intros [? ?]].
    apply in_bounds_bind; [apply in_bounds_print_string|intros ?; exact I]. }
  destruct (Ascii.eqb c "p").
  { apply in_bounds_bind;
      [apply in_bounds_convert_pointer|intros [? ?]; exact I]. }
  destruct (Ascii.eqb c "%"); exact I.
Qed.

Lemma in_bounds_directive {T} (out : ascii -> T -> T) (d : data_t T)
    format va :
  in_bounds (directive out d format va).
Proof.
  unfold directive. cbv zeta.
  apply in_bounds_bind; [apply in_bounds_eval_flags|intros [d1 f1]].
  apply in_bounds_bind; [apply in_bounds_eval_width|intros [[d2 f2] va2]].
  apply in_bounds_bind; [apply in_bounds_eval_precision|intros [[d3 f3] va3]].
  apply in_bounds_bind; [apply in_bounds_eval_length|intros [d4 f4]].
  apply in_bounds_eval_specifier.
Qed.

Lemma in_bounds_format_loop {T} (out : ascii -> T -> T) fuel :
  forall (d : data_t T) format va,
    in_bounds (format_loop out fuel d format va).
Proof.
  induction fuel as [|fuel IH]; intros d format va; [exact I|].
  cbn [format_loop].
  apply in_bounds_bind; [apply in_bounds_deref|intros c].
  destruct (Ascii.eqb c NUL); [exact I|].
  destruct (negb (Ascii.eqb c "%")); [apply IH|].
  apply in_bounds_bind; [apply in_bounds_directive|intros [[d' f'] va']].
  apply IH.
Qed.

(** X13: whatever the format and the arguments, [format_out] reads the
    tables of the powers of ten inside their bounds: it returns a count, or
    it has read past the end of the format or of a string argument, or has
    taken an argument that the list does not hold. *)
Theorem format_out_faults :
  forall T (out : ascii -> T -> T) p format va,
    match format_out out p format va with
    | Ok _ => True
    | Fault f => f = ReadPastEnd \/ f = BadVaArg
    end.
Proof.
  intros T out p format va.
  pose proof (format_out_terminates out p format va) as Ht.
  assert (Hb : in_bounds (format_out out p format va)).
  { unfold format_out.
    apply in_bounds_bind; [apply in_bounds_format_loop|intros; exact I]. }
  destruct (format_out out p format va) as [r|[]]; cbn in Hb;
    try exact I; try contradiction; auto.
Qed.

(** ** X14: the flag characters *)

Lemma eval_flags_app {T} fs rest : forall d : data_t T,
  forallb is_flag fs = true ->
  eval_flags d (fs ++ rest)
  = eval_flags (set_flags (flag_bits fs (flags d)) d) rest.
Proof.
  induction fs as [|c fs IH]; intros d H.
  - destruct d; reflexivity.
  - cbn [forallb] in H. apply andb_true_iff in H. destruct H as [Hc Hs].
    cbn [app eval_flags]. unfold flag_bits. cbn [fold_left].
    fold (flag_bits fs (set_bits (flags d) (flag_bit c))).
    unfold is_flag in Hc. unfold flag_bit in Hc |- *.
    repeat match goal with
           | |- context [Ascii.eqb c ?x] =>
               destruct (Ascii.eqb c x);
               [rewrite IH by assumption; reflexivity|]
           end.
    discriminate Hc.
Qed.

Lemma testbit_flag_bits fs i : forall f,
  Z.testbit (flag_bits fs f) i
  = Z.testbit f i || existsb (fun c => Z.testbit (flag_bit c) i) fs.
Proof.
  induction fs as [|c fs IH]; intros f.
  - cbn. now rewrite orb_false_r.
  - unfold flag_bits. cbn [fold_left existsb].
    fold (flag_bits fs (set_bits f (flag_bit c))).
    rewrite IH. unfold set_bits. rewrite Z.lor_spec. now rewrite orb_assoc.
Qed.

Lemma existsb_same {A} (P : A -> bool) l1 l2 :
  (forall x, In x l1 <-> In x l2) -> existsb P l1 = existsb P l2.
Proof.
  intros H.
  destruct (existsb P l1) eqn:E1, (existsb P l2) eqn:E2; try reflexivity.
  - apply existsb_exists in E1. destruct E1 as (x & Hx & Px).
    assert (E : existsb P l2 = true)
      by (apply existsb_exists; exists x; split; [now apply H|exact Px]).
    congruence.
  - apply existsb_exists in E2. destruct E2 as (x & Hx & Px).
    assert (E : existsb P l1 = true)
      by (apply existsb_exists; exists x; split; [now apply H|exact Px]).
    congruence.
Qed.

Lemma flag_bits_same fs1 fs2 f :
  (forall c, In c fs1 <-> In c fs2) -> flag_bits fs1 f = flag_bits fs2 f.
Proof.
  intros H. apply Z.bits_inj'. intros i _.
  rewrite !testbit_flag_bits. f_equal. now apply existsb_same.
Qed.

(** With fuel for every character, the loop does not depend on the
    fuel. *)
Lemma format_loop_fuel_irrelevant {T} (out : ascii -> T -> T) fuel :
  forall fuel' (d : data_t T) format va,
    (List.length format < fuel)%nat -> (List.length format < fuel')%nat ->
    format_loop out fuel d format va = format_loop out fuel' d format va.
Proof.
  induction fuel as [|fuel IH]; intros fuel' d format va H H'; [lia|].
  destruct fuel' as [|fuel']; [lia|].
  cbn [format_loop]. destruct format as [|c format]; [reflexivity|].
  cbn [deref bind next tl]. cbn [List.length] in H, H'.
  destruct (Ascii.eqb c NUL); [reflexivity|].
  destruct (negb (Ascii.eqb c "%")); [apply IH; lia|].
  destruct (directive out d format va) as [[[d' f'] va']|e] eqn:E;
    cbn [bind]; [|reflexivity].
  apply directive_length in E. apply IH; lia.
Qed.

(** X14: the flag characters of a directive may come in any order and any
    number of times: two runs of flag characters with the same members give
    the same directive, and the same output when the directive opens the
    format. *)
Theorem flags_any_order :
  forall T (out : ascii -> T -> T) fs1 fs2 rest va,
    forallb is_flag fs1 = true -> forallb is_flag fs2 = true ->
    (forall c, In c fs1 <-> In c fs2) ->
    (forall d : data_t T,
        directive out d (fs1 ++ rest) va = directive out d (fs2 ++ rest) va)
    /\ (forall p,
           format_out out p ("%"%char :: fs1 ++ rest) va
           = format_out out p ("%"%char :: fs2 ++ rest) va).
Proof.
  intros T out fs1 fs2 rest va H1 H2 Hs.
  assert (D : forall d : data_t T,
             directive out d (fs1 ++ rest) va
             = directive out d (fs2 ++ rest) va).
  { intros d. unfold directive. cbv zeta.
    rewrite !eval_flags_app by assumption.
    now rewrite (flag_bits_same fs1 fs2). }
  split; [exact D|].
  intros p. unfold format_out.
  rewrite !format_loop_percent, D.
  destruct (directive out (initial_data p) (fs2 ++ rest) va)
    as [[[d' f'] va']|e] eqn:E; cbn [bind]; [|reflexivity].
  pose proof E as E'. rewrite <- D in E'.
  apply directive_length in E. apply directive_length in E'.
  rewrite (format_loop_fuel_irrelevant out _
             (List.length ("%"%char :: fs2 ++ rest)))
    by (cbn [List.length]; lia).
  reflexivity.
Qed.

Lemma flags_any_order_witness :
  format_out out_log [] (cstr "%-+6d|") [VInt 42]
  = format_out out_log [] (cstr "%+--+6d|") [VInt 42].
Proof.
  exact (proj2 (flags_any_order _ out_log (chars "-+") (chars "+--+")
                  (cstr "6d|") [VInt 42] eq_refl eq_refl
                  ltac:(intros c; cbn; tauto)) []).
Defined.

(** ** X15: the length modifiers [h] and [hh] *)

Lemma field_short {T} (out : ascii -> T -> T) p f i dc m negative :
  0 <= m < 10 ^ 10 ->
  In f [FLAGS_SHORT; Z.lor FLAGS_SHORT FLAGS_CHAR] ->
  exists d',
    ntoa_long out
      (ntoa_format out
         (pre_format_long (mk_data p f i 0 0 BASE_DECIMAL dc) m negative)) m
    = Ok d'
    /\ ptr d'
       = feed out
           ((if negative then ["-"%char] else [])
            ++ decimal_repr (powers 10) m) p.
Proof.
  intros Hm Hf.
  set (d1 := pre_format_long (mk_data p f i 0 0 BASE_DECIMAL dc) m negative).
  cbn [In] in Hf.
  assert (S1 : sign_chars d1 = if negative then ["-"%char] else [])
    by (subst d1; unfold pre_format_long; destruct Hf as [<-|[<-|[]]];
        destruct (m =? 0), negative; reflexivity).
  assert (P1 : ptr d1 = p)
    by (subst d1; unfold pre_format_long;
        destruct (m =? 0), negative; reflexivity).
  rewrite <- S1, <- P1.
  apply (plain_field out 10 d1 m); try lia;
    subst d1; unfold pre_format_long; destruct Hf as [<-|[<-|[]]];
    destruct (m =? 0), negative; reflexivity.
Qed.

Lemma narrow_unsigned bits v :
  0 < bits <= 32 -> wrap_u bits (wrap_u INT_BITS v) = v mod 2 ^ bits.
Proof.
  intros H. unfold wrap_u. change INT_BITS with 32.
  apply Z.mod_mod_divide.
  exists (2 ^ (32 - bits)). rewrite <- Z.pow_add_r by lia. f_equal. lia.
Qed.

Lemma narrow_signed bits v :
  0 < bits <= 32 -> wrap_s bits (wrap_s INT_BITS v) = wrap_s bits v.
Proof.
  intros H. unfold wrap_s at 1 3. f_equal.
  assert (D : (2 ^ bits | 2 ^ 32)).
  { exists (2 ^ (32 - bits)). rewrite <- Z.pow_add_r by lia. f_equal. lia. }
  rewrite <- (Z.mod_mod_divide (wrap_s INT_BITS v + 2 ^ (bits - 1)) _ _ D).
  rewrite <- (Z.mod_mod_divide (v + 2 ^ (bits - 1)) _ _ D).
  f_equal. rewrite <- Zplus_mod_idemp_l.
  pose proof (wrap_u_wrap_s INT_BITS v eq_refl) as W.
  unfold wrap_u in W. change (2 ^ INT_BITS) with (2 ^ 32) in W.
  rewrite W. now rewrite Zplus_mod_idemp_l.
Qed.

Lemma wrap_s_range bits v :
  0 < bits -> - 2 ^ (bits - 1) <= wrap_s bits v < 2 ^ (bits - 1).
Proof.
  intros H. unfold wrap_s.
  assert (E : 2 ^ bits = 2 * 2 ^ (bits - 1)).
  { replace bits with (Z.succ (bits - 1)) at 1 by lia.
    rewrite Z.pow_succ_r by lia. reflexivity. }
  assert (P : 0 < 2 ^ bits) by (apply Z.pow_pos_nonneg; lia).
  pose proof (Z.mod_pos_bound (v + 2 ^ (bits - 1)) (2 ^ bits) P). lia.
Qed.

(** X15: with the modifier [h] the unsigned conversion prints the low 16
    bits of its argument and the signed conversion prints them as a signed
    number; with [hh] the unsigned conversion prints the low 8 bits. *)
Theorem narrow_conversions :
  forall v,
    prints_back "%hu" (VInt v) (v mod 2 ^ 16)
    /\ prints_back "%hhu" (VInt v) (v mod 2 ^ 8)
    /\ prints_back "%hd" (VInt v) (wrap_s 16 v).
Proof.
  intros v. set (out := out_char tty_putchar).
  assert (R16 : 0 <= v mod 2 ^ 16 < 2 ^ 16) by (apply Z.mod_pos_bound; lia).
  assert (R8 : 0 <= v mod 2 ^ 8 < 2 ^ 8) by (apply Z.mod_pos_bound; lia).
  pose proof (wrap_s_range 16 v eq_refl) as RS. cbn in RS.
  split; [|split].
  - apply (prints_back_intro "%hu" (VInt v) (v mod 2 ^ 16) FLAGS_SHORT "u"
             (decimal_repr (powers 10) (v mod 2 ^ 16))).
    + exact (run_specifier out [] FLAGS_SHORT "u" [VInt v] 3 eq_refl).
    + assert (E : convert_integer out
                    (mk_data [] FLAGS_SHORT 0 0 0 BASE_BINARY 0) "u" [VInt v]
                  = let D := mk_data [] FLAGS_SHORT 0 0 0 BASE_DECIMAL 0 in
                    let m := wrap_u 16 (wrap_u INT_BITS v) in
                    let* d :=
                      ntoa_long out
                        (ntoa_format out (pre_format_long D m false)) m in
                    Ok (d, [])) by reflexivity.
      fold out. rewrite E. cbv zeta. rewrite narrow_unsigned by lia.
      destruct (field_short out [] FLAGS_SHORT 0 0 (v mod 2 ^ 16) false)
        as (d' & H1 & H2); [lia|now left|].
      rewrite H1. exists d'. split; [reflexivity|exact H2].
    + apply (decimal_repr_parses 10); lia.
  - apply (prints_back_intro "%hhu" (VInt v) (v mod 2 ^ 8)
             (Z.lor FLAGS_SHORT FLAGS_CHAR) "u"
             (decimal_repr (powers 10) (v mod 2 ^ 8))).
    + exact (run_specifier out [] (Z.lor FLAGS_SHORT FLAGS_CHAR) "u"
               [VInt v] 4 eq_refl).
    + assert (E : convert_integer out
                    (mk_data [] (Z.lor FLAGS_SHORT FLAGS_CHAR) 0 0 0
                       BASE_BINARY 0) "u" [VInt v]
                  = let D :=
                      mk_data [] (Z.lor FLAGS_SHORT FLAGS_CHAR) 0 0 0
                        BASE_DECIMAL 0 in
                    let m := wrap_u 8 (wrap_u INT_BITS v) in
                    let* d :=
                      ntoa_long out
                        (ntoa_format out (pre_format_long D m false)) m in
                    Ok (d, [])) by reflexivity.
      fold out. rewrite E. cbv zeta. rewrite narrow_unsigned by lia.
      destruct (field_short out [] (Z.lor FLAGS_SHORT FLAGS_CHAR) 0 0
                  (v mod 2 ^ 8) false)
        as (d' & H1 & H2); [lia|right; now left|].
      rewrite H1. exists d'. split; [reflexivity|exact H2].
    + apply (decimal_repr_parses 10); lia.
  - apply (prints_back_intro "%hd" (VInt v) (wrap_s 16 v) FLAGS_SHORT "d"
             (signed_repr (powers 10) (wrap_s 16 v))).
    + exact (run_specifier out [] FLAGS_SHORT "d" [VInt v] 3 eq_refl).
    + assert (E : convert_integer out
                    (mk_data [] FLAGS_SHORT 0 0 0 BASE_BINARY 0) "d" [VInt v]
                  = let D := mk_data [] FLAGS_SHORT 0 0 0 BASE_DECIMAL 0 in
                    let value := wrap_s 16 (wrap_s INT_BITS v) in
                    let m := wrap_u LONG_BITS (ABS INT_BITS value) in
                    let* d :=
                      ntoa_long out
                        (ntoa_format out
                           (pre_format_long D m (value <? 0))) m in
                    Ok (d, [])) by reflexivity.
      fold out. rewrite E. cbv zeta. rewrite narrow_signed by lia.
      change LONG_BITS with INT_BITS.
      rewrite magnitude_abs by (unfold INT_BITS; cbn; lia).
      destruct (field_short out [] FLAGS_SHORT 0 0 (Z.abs (wrap_s 16 v))
                  (wrap_s 16 v <? 0))
        as (d' & H1 & H2); [lia|now left|].
      rewrite H1. exists d'. split; [reflexivity|exact H2].
    + apply (signed_repr_parses 10); lia.
Qed.

(** ** X16: a precision given as an argument *)

Lemma set_precision_same {T} (d : data_t T) :
  precision d = 0 -> set_precision (u8 0) d = d.
Proof. destruct d; cbn; intros ->; reflexivity. Qed.

Lemma directive_dot {T} (out : ascii -> T -> T) (d : data_t T) rest va :
  directive out d ("."%char :: rest) va
  = directive_tail out (set_width 0 (set_flags 0 d)) ("."%char :: rest) va.
Proof. reflexivity. Qed.

Lemma eval_precision_star {T} (d : data_t T) rest va w :
  - 2 ^ 31 <= w < 2 ^ 31 ->
  eval_precision d ("."%char :: "*"%char :: rest) (VInt w :: va)
  = Ok (set_precision (u8 (Z.max w 0))
          (set_flags (set_bits (flags d) FLAGS_PRECISION)
             (set_precision 0 d)),
        rest, va).
Proof.
  intros Hw. unfold eval_precision. cbn [deref bind next tl]. cbv zeta.
  change (Ascii.eqb "." ".") with true. cbv iota. cbn [deref bind next tl].
  change (is_digit "*") with false. change (Ascii.eqb "*" "*") with true.
  cbv iota. cbn [va_arg_int bind].
  rewrite (wrap_s_small INT_BITS w) by (unfold INT_BITS; cbn; lia).
  destruct (0 <? w) eqn:E.
  - apply Z.ltb_lt in E. rewrite Z.max_l by lia.
    rewrite (u8_of_wrap_u (wrap_u INT_BITS w) w); [reflexivity|].
    unfold wrap_u. now rewrite Z.mod_mod by discriminate.
  - apply Z.ltb_ge in E. now rewrite Z.max_r by lia.
Qed.

Lemma eval_precision_numeral {T} (d : data_t T) ds c rest va :
  forallb is_digit ds = true -> ds <> [] -> is_digit c = false ->
  eval_precision d ("."%char :: ds ++ c :: rest) va
  = Ok (set_precision (u8 (numeral_value ds))
          (set_flags (set_bits (flags d) FLAGS_PRECISION)
             (set_precision 0 d)),
        c :: rest, va).
Proof.
  intros Hds Hne Hc. unfold eval_precision. cbn [deref bind next tl].
  cbv zeta. change (Ascii.eqb "." ".") with true. cbv iota.
  destruct ds as [|c0 ds']; [contradiction|].
  pose proof (atoi_closed (c0 :: ds') c rest Hds Hc) as A.
  cbn [forallb] in Hds. apply andb_true_iff in Hds. destruct Hds as [H0 _].
  change ((c0 :: ds') ++ c :: rest) with (c0 :: ds' ++ c :: rest) in *.
  cbn [deref bind]. rewrite H0, A. cbn [bind].
  rewrite (u8_of_wrap_u (wrap_u INT_BITS (numeral_value (c0 :: ds')))
             (numeral_value (c0 :: ds'))); [reflexivity|].
  unfold wrap_u. now rewrite Z.mod_mod by discriminate.
Qed.

Lemma eval_precision_dot {T} (d : data_t T) c rest va :
  is_digit c = false -> Ascii.eqb c "*" = false ->
  eval_precision d ("."%char :: c :: rest) va
  = Ok (set_flags (set_bits (flags d) FLAGS_PRECISION) (set_precision 0 d),
        c :: rest, va).
Proof.
  intros Hc Hs. unfold eval_precision. cbn [deref bind next tl]. cbv zeta.
  change (Ascii.eqb "." ".") with true. cbv iota. cbn [deref bind].
  now rewrite Hc, Hs.
Qed.

Lemma is_numeral_digits ds :
  is_numeral ds = true -> forallb is_digit ds = true /\ ds <> [].
Proof.
  destruct ds as [|c ds]; [discriminate|]. unfold is_numeral.
  intros H. apply andb_true_iff in H. split; [apply H|discriminate].
Qed.

(** X16: a precision given as an argument is the precision of the numeral
    when it is positive, and the precision 0 when it is zero or negative: a
    negative precision does not stand for a precision left out. *)
Theorem star_precision :
  forall T (out : ascii -> T -> T) (d : data_t T) w c rest va,
    - 2 ^ 31 <= w < 2 ^ 31 -> is_digit c = false -> Ascii.eqb c "*" = false ->
    let numeral :=
      if 0 <? w then "."%char :: decimal_repr (powers 10) w
      else ["."%char] in
    directive out d ("."%char :: "*"%char :: c :: rest) (VInt w :: va)
    = directive out d (numeral ++ c :: rest) va
    /\ (forall p,
           format_out out p
             ("%"%char :: "."%char :: "*"%char :: c :: rest) (VInt w :: va)
           = format_out out p ("%"%char :: numeral ++ c :: rest) va).
Proof.
  intros T out d w c rest va Hw Hc Hs numeral.
  assert (D : forall d : data_t T,
             directive out d ("."%char :: "*"%char :: c :: rest)
               (VInt w :: va)
             = directive out d (numeral ++ c :: rest) va).
  { intros d0. subst numeral. destruct (0 <? w) eqn:E.
    - apply Z.ltb_lt in E.
      destruct (decimal_repr_numeral 10 w) as [Hn Hv]; [lia|lia|].
      destruct (is_numeral_digits _ Hn) as [Hd Hne].
      change (("."%char :: decimal_repr (powers 10) w) ++ c :: rest)
        with ("."%char :: decimal_repr (powers 10) w ++ c :: rest).
      rewrite !directive_dot. unfold directive_tail.
      rewrite eval_precision_star, eval_precision_numeral by assumption.
      now rewrite Hv, Z.max_l by lia.
    - apply Z.ltb_ge in E.
      change (["."%char] ++ c :: rest) with ("."%char :: c :: rest).
      rewrite !directive_dot. unfold directive_tail.
      rewrite eval_precision_star, eval_precision_dot by assumption.
      rewrite Z.max_r by lia. now rewrite set_precision_same. }
  split; [apply D|].
  intros p. unfold format_out.
  rewrite !format_loop_percent, D.
  destruct (directive out (initial_data p) (numeral ++ c :: rest) va)
    as [[[d' f'] va']|e] eqn:E; cbn [bind]; [|reflexivity].
  pose proof E as E'. rewrite <- D in E'.
  apply directive_length in E. apply directive_length in E'.
  rewrite (format_loop_fuel_irrelevant out _
             (List.length ("%"%char :: numeral ++ c :: rest)))
    by (cbn [List.length] in *; lia).
  reflexivity.
Qed.

Lemma star_precision_witness :
  format_out out_log [] (cstr "%.*d|") [VInt 3; VInt 7]
  = format_out out_log [] (cstr "%.3d|") [VInt 7]
  /\ format_out out_log [] (cstr "%.*s|") [VInt (-1); VStr (cstr "abc")]
     = format_out out_log [] (cstr "%.s|") [VStr (cstr "abc")]
  /\ format_out out_log [] (cstr "%.s|") [VStr (cstr "abc")]
     = Ok (chars "|", 1).
Proof.
  split; [|split; [|reflexivity]].
  - exact (proj2 (star_precision _ out_log (initial_data []) 3 "d" (cstr "|")
                    [VInt 7] ltac:(lia) eq_refl eq_refl) []).
  - exact (proj2 (star_precision _ out_log (initial_data []) (-1) "s"
                    (cstr "|") [VStr (cstr "abc")] ltac:(lia) eq_refl
                    eq_refl) []).
Defined.

(** ** X17: the count of a format without left-justified fields *)

Lemma holds_bind {A B} (Q : A -> Prop) (R : B -> Prop) (m : result A)
    (k : A -> result B) :
  holds Q m -> (forall a, Q a -> holds R (k a)) -> holds R (bind m k).
Proof.
  destruct m as [a|e]; cbn [bind holds]; intros Hm Hk; [now apply Hk|exact I].
Qed.

Lemma holds_any {A} (r : result A) : holds (fun _ => True) r.
Proof. destruct r; exact I. Qed.

Lemma tallied_same (d d' : data_t (list ascii)) :
  ptr d' = ptr d -> idx d' = idx d -> tallied d -> tallied d'.
Proof. unfold tallied. now intros -> ->. Qed.

Lemma tallied_do_out d c : tallied d -> tallied (do_out out_log d c).
Proof.
  unfold tallied. cbn [do_out idx_incr emit set_idx set_ptr ptr idx].
  intros ->. unfold out_log. rewrite length_app, Nat2Z.inj_add.
  cbn [List.length Z.of_nat]. apply u8_succ.
Qed.

Lemma tallied_emitted cs : forall d,
  tallied d -> tallied (emitted out_log cs d).
Proof.
  induction cs as [|c cs IH]; intros d H; [exact H|].
  change (emitted out_log (c :: cs) d)
    with (emitted out_log cs (do_out out_log d c)).
  apply IH. now apply tallied_do_out.
Qed.

Lemma tallied_ntoa_format d :
  tallied d -> tallied (ntoa_format out_log d).
Proof.
  intros H. rewrite ntoa_format_closed.
  destruct (layout_width_fields d) as (P & _ & I & _).
  assert (E : tallied (emitted out_log (layout_chars d) (layout_width d)))
    by (apply tallied_emitted; now apply (tallied_same d)).
  unfold layout_final. destruct (negb _); [|exact E].
  now apply (tallied_same (emitted out_log (layout_chars d) (layout_width d))).
Qed.

Lemma tallied_ntoa_decimal table f fuel : forall d value,
  tallied d -> flags d = f ->
  holds (fun d' => tallied d' /\ flags d' = f)
    (ntoa_decimal out_log table fuel d value).
Proof.
  induction fuel as [|fuel IH]; intros d value H F; cbn [ntoa_decimal];
    [now split|].
  destruct (0 <? digit_count d); [|now split]. cbv zeta.
  destruct (table_at table _) as [l|e]; cbn [bind]; [|exact I].
  apply IH; [|exact F]. apply tallied_do_out.
  now apply (tallied_same d).
Qed.

Lemma tallied_while n cond body :
  (forall d, tallied d -> tallied (body d) /\ flags (body d) = flags d) ->
  forall d, tallied d ->
    tallied (while n cond body d) /\ flags (while n cond body d) = flags d.
Proof.
  intros Hb. induction n as [|n IH]; intros d H; cbn [while]; [now split|].
  destruct (cond d); [|now split].
  destruct (Hb d H) as [B F]. destruct (IH _ B) as [W G].
  split; [exact W|congruence].
Qed.

Lemma tallied_ntoa_pow2 d value :
  tallied d ->
  tallied (ntoa_pow2 out_log d value)
  /\ flags (ntoa_pow2 out_log d value) = flags d.
Proof.
  intros H. unfold ntoa_pow2. apply tallied_while; [|exact H].
  intros x Hx. cbv zeta. split; [|reflexivity].
  match goal with
  | |- tallied (set_digit_count _ (do_out _ _ ?c)) =>
      apply (tallied_same (do_out out_log x c)); try reflexivity;
      now apply tallied_do_out
  end.
Qed.

(** Without the pad of a left-justified field the converter counts what it
    prints. *)
Lemma tallied_ntoa table d value :
  tallied d -> has d FLAGS_LEFT = false ->
  holds tallied (ntoa out_log table d value).
Proof.
  intros H HL. unfold ntoa.
  apply (holds_bind (fun d' => tallied d' /\ flags d' = flags d)).
  - destruct (_ || _); [|now split].
    destruct (value =? 0); [split; [now apply tallied_do_out|reflexivity]|].
    destruct (base_eqb _ _);
      [now apply (tallied_ntoa_decimal table (flags d))|now apply tallied_ntoa_pow2].
  - intros d' [H' F]. cbn [holds].
    now rewrite (has_flags d' d), HL.
Qed.

Lemma ready_same (d d' : data_t (list ascii)) :
  ptr d' = ptr d -> idx d' = idx d ->
  test (flags d') FLAGS_LEFT = test (flags d) FLAGS_LEFT ->
  ready d -> ready d'.
Proof.
  intros P I F [H L]. split; [now apply (tallied_same d)|].
  unfold has in *. now rewrite F.
Qed.

Lemma tallied_number_long d value negative :
  ready d ->
  holds tallied
    (ntoa_long out_log
       (ntoa_format out_log (pre_format_long d value negative)) value).
Proof.
  intros [H HL]. apply tallied_ntoa.
  - apply tallied_ntoa_format.
    apply (tallied_same d); [| |exact H];
      unfold pre_format_long; destruct (value =? 0), negative; reflexivity.
  - rewrite (has_flags _ (pre_format_long d value negative))
      by apply ntoa_format_fields.
    unfold pre_format_long, has. cbv zeta.
    destruct (value =? 0), negative; cbn [flags set_flags set_digit_count];
      rewrite ?test_set_other, ?test_clear_other by reflexivity; exact HL.
Qed.

Lemma tallied_number_long_long d value negative :
  ready d ->
  holds tallied
    (ntoa_long_long out_log
       (ntoa_format out_log (pre_format_long_long d value negative)) value).
Proof.
  intros [H HL]. apply tallied_ntoa.
  - apply tallied_ntoa_format.
    apply (tallied_same d); [| |exact H];
      unfold pre_format_long_long; destruct (value =? 0), negative;
      reflexivity.
  - rewrite (has_flags _ (pre_format_long_long d value negative))
      by apply ntoa_format_fields.
    unfold pre_format_long_long, has. cbv zeta.
    destruct (value =? 0), negative; cbn [flags set_flags set_digit_count];
      rewrite ?test_set_other, ?test_clear_other by reflexivity; exact HL.
Qed.

(** A setter of the directive keeps the state ready. *)
Ltac ready_step R :=
  repeat match goal with
         | |- context [if ?c then _ else _] => destruct c
         end;
  (exact R
   || (refine (ready_same _ _ _ _ _ R); try reflexivity;
       cbn [flags set_flags set_base set_width set_precision];
       rewrite ?test_set_other, ?test_clear_other by reflexivity;
       reflexivity)).

Ltac tallied_conv R :=
  cbv zeta;
  repeat lazymatch goal with
         | |- holds _ (Ok _) => cbn [holds fst]; assumption
         | |- holds _ (bind (ntoa_long _ _ _) _) =>
             apply (holds_bind tallied);
             [apply tallied_number_long; exact R|intros ? ?]
         | |- holds _ (bind (ntoa_long_long _ _ _) _) =>
             apply (holds_bind tallied);
             [apply tallied_number_long_long; exact R|intros ? ?]
         | |- holds _ (bind _ _) =>
             apply (holds_bind (fun _ => True));
             [apply holds_any|intros [? ?] _]
         | |- holds _ (if ?b then _ else _) => destruct b
         end.

Lemma tallied_convert_integer d c va :
  ready d -> holds (fun r => tallied (fst r)) (convert_integer out_log d c va).
Proof.
  intros R. cbv beta delta [convert_integer].
  do 4 lazymatch goal with
       | |- holds ?Q (let x := ?a in @?f x) =>
           let R' := fresh "R" in
           assert (R' : ready a) by (ready_step R);
           change (holds Q (f a)); clear R; revert R'; generalize a;
           clear d; intros d R; cbv beta
       end.
  tallied_conv R.
Qed.

Lemma tallied_convert_pointer d va :
  ready d -> holds (fun r => tallied (fst r)) (convert_pointer out_log d va).
Proof.
  intros R. cbv beta delta [convert_pointer].
  do 3 lazymatch goal with
       | |- holds ?Q (let x := ?a in @?f x) =>
           let R' := fresh "R" in
           assert (R' : ready a) by (ready_step R);
           change (holds Q (f a)); clear R; revert R'; generalize a;
           clear d; intros d R; cbv beta
       end.
  tallied_conv R.
Qed.

Lemma tallied_pad_from fuel : forall l d,
  tallied d -> tallied (snd (pad_from out_log fuel l d)).
Proof.
  induction fuel as [|fuel IH]; intros l d H; cbn [pad_from]; [exact H|].
  destruct (l <? width d); [|exact H].
  apply IH. now apply tallied_do_out.
Qed.

Lemma tallied_pre_pad (d : data_t (list ascii)) l :
  tallied d ->
  tallied
    (snd (if negb (has d FLAGS_LEFT) then pad_field out_log l d else (l, d))).
Proof.
  intros H. destruct (negb _); [|exact H]. now apply tallied_pad_from.
Qed.

Lemma tallied_convert_char d va :
  tallied d -> holds (fun r => tallied (fst r)) (convert_char out_log d va).
Proof.
  intros H. unfold convert_char. cbv zeta.
  pose proof (tallied_pre_pad d 1 H) as P.
  destruct (if negb (has d FLAGS_LEFT) then _ else _) as [l d1].
  cbn [snd] in P.
  apply (holds_bind (fun _ => True)); [apply holds_any|intros [v va'] _].
  cbn [holds fst].
  destruct (has _ _);
    [apply tallied_pad_from|]; now apply tallied_do_out.
Qed.

Lemma tallied_string_output p : forall d,
  tallied d -> holds tallied (string_output out_log p d).
Proof.
  induction p as [|c p IH]; intros d H; cbn [string_output]; [exact I|].
  destruct (Ascii.eqb c NUL); [exact H|].
  destruct (negb (has d FLAGS_PRECISION));
    [apply IH; now apply tallied_do_out|].
  cbv zeta. destruct (negb (precision d =? 0)).
  - apply IH. apply tallied_do_out. now apply (tallied_same d).
  - now apply (tallied_same d).
Qed.

Lemma tallied_print_string d p :
  tallied d -> holds tallied (print_string out_log d p).
Proof.
  intros H. unfold print_string.
  apply (holds_bind (fun _ => True)); [apply holds_any|intros l0 _].
  cbv zeta.
  match goal with
  | |- context [if has d FLAGS_PRECISION then ?a else ?b] =>
      generalize (if has d FLAGS_PRECISION then a else b)
  end.
  intros l1. pose proof (tallied_pre_pad d l1 H) as P.
  destruct (if negb (has d FLAGS_LEFT) then _ else _) as [l d1].
  cbn [snd] in P.
  apply (holds_bind tallied); [now apply tallied_string_output|].
  intros d2 H2. cbn [holds].
  destruct (has _ _); [now apply tallied_pad_from|exact H2].
Qed.

Lemma plain_tail c f :
  forallb plain_char (c :: f) = true ->
  Ascii.eqb c "-" = false /\ Ascii.eqb c "*" = false
  /\ forallb plain_char f = true.
Proof.
  cbn [forallb]. unfold plain_char. intros H.
  apply andb_true_iff in H as [H F]. apply andb_true_iff in H as [A B].
  apply negb_true_iff in A, B. now repeat split.
Qed.

Lemma plain_next f :
  forallb plain_char f = true -> forallb plain_char (next f) = true.
Proof.
  destruct f as [|c f]; [easy|]. intros H. now apply plain_tail in H.
Qed.

Lemma plain_atoi_from str : forall i,
  forallb plain_char str = true ->
  holds (fun r => forallb plain_char (snd r) = true) (atoi_from i str).
Proof.
  induction str as [|c str IH]; intros i H; cbn [atoi_from]; [exact I|].
  destruct (is_digit c); [|exact H].
  apply IH. now apply plain_tail in H.
Qed.

Lemma ready_eval_flags f : forall d,
  ready d -> forallb plain_char f = true ->
  holds (fun r => ready (fst r) /\ forallb plain_char (snd r) = true)
    (eval_flags d f).
Proof.
  induction f as [|c f IH]; intros d R H; cbn [eval_flags]; [exact I|].
  destruct (plain_tail _ _ H) as (M & _ & F).
  rewrite M.
  repeat match goal with
         | |- holds _ (if ?b then _ else _) =>
             destruct b; [apply IH; [ready_step R|exact F]|]
         end.
  now split.
Qed.

Lemma ready_eval_width d f va :
  ready d -> forallb plain_char f = true ->
  holds (fun r => ready (fst (fst r))
                  /\ forallb plain_char (snd (fst r)) = true)
    (eval_width d f va).
Proof.
  intros R H. unfold eval_width, atoi. cbv zeta.
  destruct f as [|c f]; [exact I|]. cbn [deref bind].
  destruct (plain_tail _ _ H) as (_ & S & F). rewrite S.
  destruct (is_digit c).
  - apply (holds_bind (fun r => forallb plain_char (snd r) = true));
      [now apply plain_atoi_from|].
    intros [n f'] Hf. cbn [holds fst snd] in *. split; [ready_step R|exact Hf].
  - cbn [holds fst snd]. split; [ready_step R|exact H].
Qed.

Lemma ready_eval_precision d f va :
  ready d -> forallb plain_char f = true ->
  holds (fun r => ready (fst (fst r))
                  /\ forallb plain_char (snd (fst r)) = true)
    (eval_precision d f va).
Proof.
  intros R H. unfold eval_precision, atoi. cbv zeta.
  destruct f as [|c f]; [exact I|]. cbn [deref bind].
  destruct (plain_tail _ _ H) as (_ & _ & F).
  destruct (Ascii.eqb c ".");
    [|cbn [holds fst snd]; split; [ready_step R|exact H]].
  cbn [next tl]. destruct f as [|c' f]; [exact I|]. cbn [deref bind].
  destruct (plain_tail _ _ F) as (_ & S & F'). rewrite S.
  destruct (is_digit c').
  - apply (holds_bind (fun r => forallb plain_char (snd r) = true));
      [now apply plain_atoi_from|].
    intros [n f'] Hf. cbn [holds fst snd] in *. split; [ready_step R|exact Hf].
  - cbn [holds fst snd]. split; [ready_step R|exact F].
Qed.

Lemma ready_eval_length (d : data_t (list ascii)) f :
  ready d -> forallb plain_char f = true ->
  holds (fun r => ready (fst r) /\ forallb plain_char (snd r) = true)
    (eval_length d f).
Proof.
  intros R H. unfold eval_length. cbv zeta.
  destruct f as [|c f]; [exact I|]. cbn [deref bind next tl].
  destruct (plain_tail _ _ H) as (_ & _ & F).
  repeat match goal with
         | |- holds _ (if ?b then _ else _) => destruct b
         | |- holds _ (bind (deref ?l) _) =>
             destruct l as [|? ?]; [exact I|]; cbn [deref bind]
         | |- holds _ (Ok _) =>
             cbn [holds fst snd]; split;
             [ready_step R|auto using plain_next]
         end.
Qed.

Lemma tallied_eval_specifier d f va :
  ready d -> forallb plain_char f = true ->
  holds (fun r => tallied (fst (fst r))
                  /\ forallb plain_char (snd (fst r)) = true)
    (eval_specifier out_log d f va).
Proof.
  intros R H. unfold eval_specifier.
  destruct f as [|c f]; [exact I|]. cbn [deref bind next tl].
  destruct (plain_tail _ _ H) as (_ & _ & F).
  destruct (is_integer_conversion c).
  { apply (holds_bind (fun r => tallied (fst r)));
      [now apply tallied_convert_integer|].
    intros [d' va'] H'. now split. }
  destruct (Ascii.eqb c "c").
  { apply (holds_bind (fun r => tallied (fst r)));
      [apply tallied_convert_char; apply R|].
    intros [d' va'] H'. now split. }
  destruct (Ascii.eqb c "s").
  { apply (holds_bind (fun _ => True)); [apply holds_any|intros [p va'] _].
    apply (holds_bind tallied); [apply tallied_print_string; apply R|].
    intros d' H'. now split. }
  destruct (Ascii.eqb c "p").
  { apply (holds_bind (fun r => tallied (fst r)));
      [now apply tallied_convert_pointer|].
    intros [d' va'] H'. now split. }
  destruct (Ascii.eqb c "%"); cbn [holds fst snd];
    (split; [apply tallied_do_out; apply R|exact F]).
Qed.

Lemma tallied_directive d f va :
  tallied d -> forallb plain_char f = true ->
  holds (fun r => tallied (fst (fst r))
                  /\ forallb plain_char (snd (fst r)) = true)
    (directive out_log d f va).
Proof.
  intros H F. unfold directive. cbv zeta.
  assert (R : ready (set_flags 0 d))
    by (split; [now apply (tallied_same d)|reflexivity]).
  apply (holds_bind
           (fun r => ready (fst r) /\ forallb plain_char (snd r) = true));
    [now apply ready_eval_flags|intros [d1 f1] [R1 F1]].
  apply (holds_bind
           (fun r => ready (fst (fst r))
                     /\ forallb plain_char (snd (fst r)) = true));
    [now apply ready_eval_width|intros [[d2 f2] va2] [R2 F2]].
  apply (holds_bind
           (fun r => ready (fst (fst r))
                     /\ forallb plain_char (snd (fst r)) = true));
    [now apply ready_eval_precision|intros [[d3 f3] va3] [R3 F3]].
  apply (holds_bind
           (fun r => ready (fst r) /\ forallb plain_char (snd r) = true));
    [now apply ready_eval_length|intros [d4 f4] [R4 F4]].
  now apply tallied_eval_specifier.
Qed.

Lemma tallied_format_loop fuel : forall d f va,
  tallied d -> forallb plain_char f = true ->
  holds tallied (format_loop out_log fuel d f va).
Proof.
  induction fuel as [|fuel IH]; intros d f va H F; cbn [format_loop];
    [exact I|].
  destruct f as [|c f]; [exact I|]. cbn [deref bind next tl].
  destruct (plain_tail _ _ F) as (_ & _ & F').
  destruct (Ascii.eqb c NUL); [exact H|].
  destruct (negb (Ascii.eqb c "%")).
  - apply IH; [now apply tallied_do_out|exact F'].
  - apply (holds_bind
             (fun r => tallied (fst (fst r))
                       /\ forallb plain_char (snd (fst r)) = true));
      [now apply tallied_directive|intros [[d1 f1] va1] [H1 F1]].
    now apply IH.
Qed.

(** X17: a format that holds neither [-] nor [*] has no left-justified
    field, and then the count that [format_out] returns is the number of the
    characters it has sent to the sink, in the eight bits of [data.idx]:
    whatever the arguments are, and whatever sink is used. *)
Theorem count_of_plain_format {T} (out : ascii -> T -> T) (p : T) format va
    q n :
  forallb plain_char format = true ->
  format_out out p format va = Ok (q, n) ->
  exists cs,
    format_out out_log [] format va = Ok (cs, n)
    /\ q = feed out cs p
    /\ n = u8 (Z.of_nat (List.length cs)).
Proof.
  intros F E. rewrite format_out_feed in E.
  destruct (format_out out_log [] format va) as [[cs m]|e] eqn:L;
    [|discriminate].
  cbn [rmap] in E. injection E as <- <-.
  exists cs. split; [reflexivity|]. split; [reflexivity|].
  unfold format_out in L.
  pose proof (tallied_format_loop (S (List.length format))
                (initial_data []) format va eq_refl F) as K.
  destruct (format_loop _ _ _ _ _) as [d|e]; [|discriminate].
  cbn [bind] in L. injection L as <- <-. exact K.
Qed.

Lemma count_of_plain_format_witness :
  exists cs,
    format_out out_log [] (cstr "%5d|%s") [VInt 42; VStr (cstr "ab")]
    = Ok (cs, 8)
    /\ chars "   42|ab" = feed out_log cs []
    /\ 8 = u8 (Z.of_nat (List.length cs)).
Proof.
  apply (count_of_plain_format out_log [] (cstr "%5d|%s")
           [VInt 42; VStr (cstr "ab")] (chars "   42|ab") 8); reflexivity.
Defined.

(** ** X18, X19: the count so far and the leftovers of a directive *)

(** The formatter only ever increments [data.idx]: it never reads it, so a
    run from a count that is [k] ahead stays [k] ahead and prints the
    same. *)
Section Offsets.

Context {T : Type}.
Variable out : ascii -> T -> T.
Variable k : Z.

Local Abbreviation L := (@shift T k).
Local Abbreviation L2 :=
  (fun x : data_t T * va_list => (shift k (fst x), snd x)).
Local Abbreviation L2f :=
  (fun x : data_t T * list ascii => (shift k (fst x), snd x)).
Local Abbreviation L3 :=
  (fun x : data_t T * list ascii * va_list =>
     (shift k (fst (fst x)), snd (fst x), snd x)).

Lemma shift_emit c d : emit out c (L d) = L (emit out c d).
Proof. reflexivity. Qed.

Lemma shift_do_out d c : do_out out (L d) c = L (do_out out d c).
Proof.
  unfold do_out, idx_incr, shift, emit, set_idx, set_ptr.
  cbn [ptr flags idx width precision base digit_count].
  f_equal. unfold u8, wrap_u.
  rewrite !Zplus_mod_idemp_l. f_equal. lia.
Qed.

Lemma shift_while n (cond : data_t T -> bool) cond' body body' :
  (forall d, cond' (L d) = cond d) ->
  (forall d, body' (L d) = L (body d)) ->
  forall d, while n cond' body' (L d) = L (while n cond body d).
Proof.
  intros Hc Hb. induction n as [|n IH]; intros d; cbn; [reflexivity|].
  rewrite Hc. destruct (cond d); [|reflexivity]. now rewrite Hb, IH.
Qed.

Lemma shift_pad_width c d : pad_width out c (L d) = L (pad_width out c d).
Proof.
  unfold pad_width. apply shift_while; intros d'; [reflexivity|].
  now rewrite shift_do_out.
Qed.

Lemma shift_pad_precision d : pad_precision out (L d) = L (pad_precision out d).
Proof.
  unfold pad_precision. apply shift_while; intros d'; [reflexivity|].
  now rewrite shift_do_out.
Qed.

Lemma shift_pad_zeros d : pad_zeros out (L d) = L (pad_zeros out d).
Proof.
  unfold pad_zeros. apply shift_while; intros d'; [reflexivity|].
  now rewrite shift_do_out.
Qed.

Lemma shift_pad_trailing d : pad_trailing out (L d) = L (pad_trailing out d).
Proof.
  unfold pad_trailing. apply shift_while; intros d'; [reflexivity|].
  now rewrite shift_emit.
Qed.

(** The proofs below walk through a function one [let] at a time: the value
    bound from the shifted state is the shift of the value bound from the
    state itself. *)
Ltac off_flat :=
  unfold has, shift, set_ptr, set_width, set_flags, set_precision, set_base,
    set_digit_count, set_idx;
  cbn [ptr flags idx width precision base digit_count];
  repeat match goal with
         | |- context [if ?c then _ else _] => destruct c
         end;
  reflexivity.

Ltac off_let tac :=
  lazymatch goal with
  | |- (let x := ?a in @?f x) = ?w (let y := ?b in @?g y) =>
      let H := fresh "H" in
      assert (H : a = shift k b) by (tac; off_flat);
      change (f a = w (g b)); rewrite H; clear H;
      generalize b; intros ?; cbv beta
  end.

Ltac off_last tac := tac; off_flat.

Lemma shift_ntoa_format d : ntoa_format out (L d) = L (ntoa_format out d).
Proof.
  cbv beta delta [ntoa_format].
  do 5 off_let idtac.
  off_let ltac:(rewrite ?shift_pad_width).
  off_let ltac:(rewrite ?shift_do_out).
  off_let ltac:(cbv zeta; rewrite ?shift_do_out).
  off_last ltac:(rewrite ?shift_pad_precision, ?shift_pad_zeros).
Qed.

Lemma shift_ntoa_decimal table n : forall d value,
  ntoa_decimal out table n (L d) value
  = rmap L (ntoa_decimal out table n d value).
Proof.
  induction n as [|n IH]; intros d value; cbn [ntoa_decimal]; [reflexivity|].
  change (digit_count (L d)) with (digit_count d).
  destruct (0 <? digit_count d); [|reflexivity].
  cbv zeta.
  change (digit_count (set_digit_count (digit_count d - 1) (L d)))
    with (digit_count (set_digit_count (digit_count d - 1) d)).
  destruct (table_at table _) as [l|e]; cbn [bind]; [|reflexivity].
  change (set_digit_count (digit_count d - 1) (L d))
    with (L (set_digit_count (digit_count d - 1) d)).
  now rewrite shift_do_out, IH.
Qed.

Lemma shift_ntoa_pow2 d value :
  ntoa_pow2 out (L d) value = L (ntoa_pow2 out d value).
Proof.
  unfold ntoa_pow2. apply shift_while; intros d'; [reflexivity|].
  cbv zeta.
  change (set_digit_count ?n (do_out out (L d') ?c))
    with (set_digit_count n (do_out out (L d') c)).
  rewrite shift_do_out. reflexivity.
Qed.

Lemma shift_ntoa table d value :
  ntoa out table (L d) value = rmap L (ntoa out table d value).
Proof.
  unfold ntoa.
  change (has (L d) FLAGS_PRECISION) with (has d FLAGS_PRECISION).
  change (base (L d)) with (base d).
  change (digit_count (L d)) with (digit_count d).
  rewrite shift_do_out, shift_ntoa_decimal, shift_ntoa_pow2.
  destruct (negb (has d FLAGS_PRECISION) || negb (value =? 0)).
  - destruct (value =? 0).
    + cbn [bind rmap]. rewrite shift_pad_trailing. off_flat.
    + destruct (base_eqb (base d) BASE_DECIMAL).
      * destruct (ntoa_decimal out table _ d value) as [d'|e];
          cbn [bind rmap]; [|reflexivity].
        rewrite shift_pad_trailing. off_flat.
      * cbn [bind rmap]. rewrite shift_pad_trailing. off_flat.
  - cbn [bind rmap]. rewrite shift_pad_trailing. off_flat.
Qed.

Lemma shift_pre_format_long d value negative :
  pre_format_long (L d) value negative = L (pre_format_long d value negative).
Proof. unfold pre_format_long. off_flat. Qed.

Lemma shift_pre_format_long_long d value negative :
  pre_format_long_long (L d) value negative
  = L (pre_format_long_long d value negative).
Proof. unfold pre_format_long_long. off_flat. Qed.

Lemma shift_pad_from n : forall l d,
  pad_from out n l (L d)
  = (fst (pad_from out n l d), L (snd (pad_from out n l d))).
Proof.
  induction n as [|n IH]; intros l d; cbn [pad_from]; [reflexivity|].
  change (width (L d)) with (width d).
  destruct (l <? width d); [|reflexivity].
  now rewrite shift_do_out, IH.
Qed.

Lemma shift_pad_field l d :
  pad_field out l (L d)
  = (fst (pad_field out l d), L (snd (pad_field out l d))).
Proof. unfold pad_field. apply shift_pad_from. Qed.

Lemma shift_string_output p : forall d,
  string_output out p (L d) = rmap L (string_output out p d).
Proof.
  induction p as [|c p IH]; intros d; cbn [string_output]; [reflexivity|].
  destruct (Ascii.eqb c NUL); [reflexivity|].
  change (has (L d) FLAGS_PRECISION) with (has d FLAGS_PRECISION).
  destruct (negb (has d FLAGS_PRECISION)).
  - now rewrite shift_do_out, IH.
  - cbv zeta. change (precision (L d)) with (precision d).
    destruct (negb (precision d =? 0)); [|reflexivity].
    change (set_precision ?n (L d)) with (L (set_precision n d)).
    now rewrite shift_do_out, IH.
Qed.

Lemma shift_print_string d p :
  print_string out (L d) p = rmap L (print_string out d p).
Proof.
  unfold print_string.
  change (precision (L d)) with (precision d).
  change (has (L d) FLAGS_PRECISION) with (has d FLAGS_PRECISION).
  change (has (L d) FLAGS_LEFT) with (has d FLAGS_LEFT).
  destruct (strnlen_s p _ 0) as [l|e]; cbn [bind rmap]; [|reflexivity].
  cbv zeta.
  set (l' := if has d FLAGS_PRECISION then _ else l). clearbody l'.
  rewrite shift_pad_field.
  destruct (negb (has d FLAGS_LEFT)).
  - destruct (pad_field out l' d) as [l2 d2]; cbn [fst snd].
    rewrite shift_string_output.
    destruct (string_output out p d2) as [d3|e]; cbn [bind rmap];
      [|reflexivity].
    rewrite shift_pad_field. off_flat.
  - rewrite shift_string_output.
    destruct (string_output out p d) as [d3|e]; cbn [bind rmap];
      [|reflexivity].
    rewrite shift_pad_field. off_flat.
Qed.

Lemma shift_eval_flags format : forall d,
  eval_flags (L d) format = rmap L2f (eval_flags d format).
Proof.
  induction format as [|c format IH]; intros d; cbn [eval_flags];
    [reflexivity|].
  repeat match goal with
         | |- context [if Ascii.eqb c ?x then _ else _] =>
             destruct (Ascii.eqb c x);
             [change (set_flags ?f (L d)) with (L (set_flags f d)); apply IH|]
         end.
  reflexivity.
Qed.

Lemma shift_eval_width d format va :
  eval_width (L d) format va = rmap L3 (eval_width d format va).
Proof.
  unfold eval_width. cbv zeta.
  destruct (deref format) as [c|e]; cbn [bind rmap]; [|reflexivity].
  destruct (is_digit c).
  - destruct (atoi format) as [[n format']|e]; reflexivity.
  - destruct (Ascii.eqb c "*"); [|reflexivity].
    destruct (va_arg_int va) as [[w va']|e]; cbn [bind rmap]; [|reflexivity].
    destruct (w <? 0); reflexivity.
Qed.

Lemma shift_eval_precision d format va :
  eval_precision (L d) format va = rmap L3 (eval_precision d format va).
Proof.
  unfold eval_precision. cbv zeta.
  destruct (deref format) as [c|e]; cbn [bind rmap]; [|reflexivity].
  destruct (Ascii.eqb c "."); [|reflexivity].
  destruct (deref (next format)) as [c'|e]; cbn [bind rmap]; [|reflexivity].
  destruct (is_digit c').
  - destruct (atoi (next format)) as [[n format']|e]; reflexivity.
  - destruct (Ascii.eqb c' "*"); [|reflexivity].
    destruct (va_arg_int va) as [[w va']|e]; reflexivity.
Qed.

Lemma shift_eval_length d format :
  eval_length (L d) format = rmap L2f (eval_length d format).
Proof.
  unfold eval_length. cbv zeta.
  destruct (deref format) as [c|e]; cbn [bind rmap]; [|reflexivity].
  destruct (Ascii.eqb c "l").
  { destruct (deref (next format)) as [c'|e]; cbn [bind rmap]; [|reflexivity].
    destruct (Ascii.eqb c' "l"); reflexivity. }
  destruct (Ascii.eqb c "h").
  { destruct (deref (next format)) as [c'|e]; cbn [bind rmap]; [|reflexivity].
    destruct (Ascii.eqb c' "h"); reflexivity. }
  destruct (Ascii.eqb c "t"); [reflexivity|].
  destruct (Ascii.eqb c "j"); [reflexivity|].
  destruct (Ascii.eqb c "z"); reflexivity.
Qed.

Ltac off_conv :=
  cbv zeta;
  rewrite ?shift_pre_format_long_long, ?shift_pre_format_long,
    ?shift_ntoa_format;
  unfold ntoa_long_long, ntoa_long; rewrite shift_ntoa;
  match goal with
  | |- context [ntoa ?o ?t ?d ?v] => destruct (ntoa o t d v)
  end; reflexivity.

Ltac off_arg :=
  match goal with
  | |- context [bind ?m _] =>
      destruct m as [[? ?]|?]; cbn [bind rmap]; [|reflexivity]
  end.

Lemma shift_convert_integer d c va :
  convert_integer out (L d) c va = rmap L2 (convert_integer out d c va).
Proof.
  cbv beta delta [convert_integer].
  do 4 off_let idtac.
  change (has (L ?x) ?m) with (has x m).
  destruct (Ascii.eqb c "i" || Ascii.eqb c "d").
  - destruct (has _ FLAGS_LONG_LONG); [off_arg; off_conv|].
    destruct (has _ FLAGS_LONG); [off_arg; off_conv|].
    off_arg; off_conv.
  - destruct (has _ FLAGS_LONG_LONG); [off_arg; off_conv|].
    destruct (has _ FLAGS_LONG); [off_arg; off_conv|].
    off_arg; off_conv.
Qed.

Lemma shift_convert_char d va :
  convert_char out (L d) va = rmap L2 (convert_char out d va).
Proof.
  unfold convert_char. cbv zeta.
  change (has (L ?x) ?m) with (has x m).
  rewrite shift_pad_field.
  destruct (negb (has d FLAGS_LEFT)).
  - destruct (pad_field out 1 d) as [l d1]; cbn [fst snd].
    off_arg. rewrite shift_do_out, shift_pad_field. off_flat.
  - off_arg. rewrite shift_do_out, shift_pad_field. off_flat.
Qed.

Lemma shift_convert_pointer d va :
  convert_pointer out (L d) va = rmap L2 (convert_pointer out d va).
Proof.
  cbv beta delta [convert_pointer].
  do 3 off_let idtac. cbv zeta.
  off_arg.
  destruct (SIZEOF_VOID_P =? SIZEOF_LONG_LONG); off_conv.
Qed.

Lemma shift_eval_specifier d format va :
  eval_specifier out (L d) format va
  = rmap L3 (eval_specifier out d format va).
Proof.
  unfold eval_specifier.
  destruct (deref format) as [c|e]; cbn [bind rmap]; [|reflexivity].
  rewrite shift_convert_integer, shift_convert_char, shift_convert_pointer,
    !shift_do_out.
  destruct (is_integer_conversion c).
  { destruct (convert_integer out d c va) as [[d' va']|e]; reflexivity. }
  destruct (Ascii.eqb c "c").
  { destruct (convert_char out d va) as [[d' va']|e]; reflexivity. }
  destruct (Ascii.eqb c "s").
  { destruct (va_arg_char_p va) as [[p va']|e]; cbn [bind rmap];
      [|reflexivity].
    rewrite shift_print_string.
    destruct (print_string out d p) as [d'|e]; reflexivity. }
  destruct (Ascii.eqb c "p").
  { destruct (convert_pointer out d va) as [[d' va']|e]; reflexivity. }
  destruct (Ascii.eqb c "%"); reflexivity.
Qed.

Lemma shift_directive d format va :
  directive out (L d) format va = rmap L3 (directive out d format va).
Proof.
  unfold directive. cbv zeta.
  change (set_flags 0 (L d)) with (L (set_flags 0 d)).
  rewrite shift_eval_flags.
  destruct (eval_flags (set_flags 0 d) format) as [[d1 f1]|e];
    cbn [bind rmap fst snd]; [|reflexivity].
  rewrite shift_eval_width.
  destruct (eval_width d1 f1 va) as [[[d2 f2] va2]|e];
    cbn [bind rmap fst snd]; [|reflexivity].
  rewrite shift_eval_precision.
  destruct (eval_precision d2 f2 va2) as [[[d3 f3] va3]|e];
    cbn [bind rmap fst snd]; [|reflexivity].
  rewrite shift_eval_length.
  destruct (eval_length d3 f3) as [[d4 f4]|e];
    cbn [bind rmap fst snd]; [|reflexivity].
  apply shift_eval_specifier.
Qed.

Lemma shift_format_loop fuel : forall d format va,
  format_loop out fuel (L d) format va
  = rmap L (format_loop out fuel d format va).
Proof.
  induction fuel as [|fuel IH]; intros d format va; cbn [format_loop];
    [reflexivity|].
  destruct (deref format) as [c|e]; cbn [bind rmap]; [|reflexivity].
  destruct (Ascii.eqb c NUL); [reflexivity|].
  destruct (negb (Ascii.eqb c "%")).
  - now rewrite shift_do_out, IH.
  - rewrite shift_directive.
    destruct (directive out d (next format) va) as [[[d' f'] va']|e];
      cbn [bind rmap fst snd]; [|reflexivity].
    apply IH.
Qed.

End Offsets.

Lemma format_loop_literal {T} (out : ascii -> T -> T) va s f :
  forall fuel (d : data_t T),
    forallb literal_char s = true ->
    format_loop out (List.length s + fuel) d (s ++ f) va
    = format_loop out fuel (emitted out s d) f va.
Proof.
  induction s as [|c s IH]; intros fuel d H; [reflexivity|].
  cbn [forallb] in H. apply andb_true_iff in H as [Hc Hs].
  unfold literal_char in Hc. apply andb_true_iff in Hc as [N P].
  apply negb_true_iff in N.
  cbn [List.length Nat.add app format_loop deref bind next tl].
  rewrite N, P. now rewrite IH.
Qed.

Lemma emitted_initial {T} (out : ascii -> T -> T) s p :
  emitted out s (initial_data p)
  = shift (Z.of_nat (List.length s)) (initial_data (feed out s p)).
Proof.
  pose proof (emitted_fields out s (initial_data p)) as (P & F & W & R & B & D).
  pose proof (idx_emitted out s (initial_data p)) as I.
  destruct (emitted out s (initial_data p)) as [p' f' i' w' r' b' d'].
  cbn [ptr flags idx width precision base digit_count initial_data] in *.
  subst. rewrite bump_from_zero. reflexivity.
Qed.

(** X18: text in front of a format is copied to the sink, and the rest of
    the format then behaves as in a call of its own on that sink: the same
    characters, the same faults, and a count that is the count of the rest
    plus the length of the text, in eight bits. *)
Theorem literal_prefix {T} (out : ascii -> T -> T) (p : T) s f va :
  forallb literal_char s = true ->
  format_out out p (s ++ f) va
  = rmap (fun r => (fst r, u8 (snd r + Z.of_nat (List.length s))))
      (format_out out (feed out s p) f va).
Proof.
  intros H. unfold format_out. rewrite length_app.
  replace (S (List.length s + List.length f))
    with (List.length s + S (List.length f))%nat by lia.
  rewrite format_loop_literal by exact H.
  rewrite emitted_initial, shift_format_loop.
  destruct (format_loop out _ (initial_data (feed out s p)) f va) as [d|e];
    reflexivity.
Qed.

Lemma literal_prefix_witness :
  format_out out_log [] (chars "n = " ++ cstr "%d") [VInt 42]
  = rmap (fun r => (fst r, u8 (snd r + 4)))
      (format_out out_log (chars "n = ") (cstr "%d") [VInt 42]).
Proof.
  apply (literal_prefix out_log [] (chars "n = ") (cstr "%d") [VInt 42]).
  reflexivity.
Defined.

(** A directive assigns the flags, the width and the precision before it
    reads them, and a conversion of a number assigns the base and the digit
    count: what the directive before has left in [data] is not seen. *)
Section Leftovers.

Context {T : Type}.
Variable out : ascii -> T -> T.
Variable b : base_t.
Variable dc : Z.

Local Abbreviation L := (@rebase T b dc).
Local Abbreviation L2 :=
  (fun x : data_t T * va_list => (rebase b dc (fst x), snd x)).
Local Abbreviation L2f :=
  (fun x : data_t T * list ascii => (rebase b dc (fst x), snd x)).

Ltac left_flat :=
  unfold has, rebase, set_ptr, set_width, set_flags, set_precision, set_base,
    set_digit_count, set_idx;
  cbn [ptr flags idx width precision base digit_count];
  repeat match goal with
         | |- context [if ?c then _ else _] => destruct c
         end;
  reflexivity.

Ltac left_arg :=
  match goal with
  | |- context [bind ?m _] =>
      destruct m as [[? ?]|?]; cbn [bind rmap]; [|reflexivity]
  end.

Lemma rebase_do_out d c : do_out out (L d) c = L (do_out out d c).
Proof. reflexivity. Qed.

Lemma rebase_pad_from n : forall l d,
  pad_from out n l (L d)
  = (fst (pad_from out n l d), L (snd (pad_from out n l d))).
Proof.
  induction n as [|n IH]; intros l d; cbn [pad_from]; [reflexivity|].
  change (width (L d)) with (width d).
  destruct (l <? width d); [|reflexivity].
  now rewrite rebase_do_out, IH.
Qed.

Lemma rebase_pad_field l d :
  pad_field out l (L d)
  = (fst (pad_field out l d), L (snd (pad_field out l d))).
Proof. unfold pad_field. apply rebase_pad_from. Qed.

Lemma rebase_string_output p : forall d,
  string_output out p (L d) = rmap L (string_output out p d).
Proof.
  induction p as [|c p IH]; intros d; cbn [string_output]; [reflexivity|].
  destruct (Ascii.eqb c NUL); [reflexivity|].
  change (has (L d) FLAGS_PRECISION) with (has d FLAGS_PRECISION).
  destruct (negb (has d FLAGS_PRECISION)).
  - now rewrite rebase_do_out, IH.
  - cbv zeta. change (precision (L d)) with (precision d).
    destruct (negb (precision d =? 0)); [|reflexivity].
    change (set_precision ?n (L d)) with (L (set_precision n d)).
    now rewrite rebase_do_out, IH.
Qed.

Lemma rebase_print_string d p :
  print_string out (L d) p = rmap L (print_string out d p).
Proof.
  unfold print_string.
  change (precision (L d)) with (precision d).
  change (has (L d) FLAGS_PRECISION) with (has d FLAGS_PRECISION).
  change (has (L d) FLAGS_LEFT) with (has d FLAGS_LEFT).
  destruct (strnlen_s p _ 0) as [l|e]; cbn [bind rmap]; [|reflexivity].
  cbv zeta.
  set (l' := if has d FLAGS_PRECISION then _ else l). clearbody l'.
  rewrite rebase_pad_field.
  destruct (negb (has d FLAGS_LEFT)).
  - destruct (pad_field out l' d) as [l2 d2]; cbn [fst snd].
    rewrite rebase_string_output.
    destruct (string_output out p d2) as [d3|e]; cbn [bind rmap];
      [|reflexivity].
    rewrite rebase_pad_field. left_flat.
  - rewrite rebase_string_output.
    destruct (string_output out p d) as [d3|e]; cbn [bind rmap];
      [|reflexivity].
    rewrite rebase_pad_field. left_flat.
Qed.

Lemma rebase_eval_length d format :
  eval_length (L d) format = rmap L2f (eval_length d format).
Proof.
  unfold eval_length. cbv zeta.
  destruct (deref format) as [c|e]; cbn [bind rmap]; [|reflexivity].
  destruct (Ascii.eqb c "l").
  { destruct (deref (next format)) as [c'|e]; cbn [bind rmap]; [|reflexivity].
    destruct (Ascii.eqb c' "l"); reflexivity. }
  destruct (Ascii.eqb c "h").
  { destruct (deref (next format)) as [c'|e]; cbn [bind rmap]; [|reflexivity].
    destruct (Ascii.eqb c' "h"); reflexivity. }
  destruct (Ascii.eqb c "t"); [reflexivity|].
  destruct (Ascii.eqb c "j"); [reflexivity|].
  destruct (Ascii.eqb c "z"); reflexivity.
Qed.

Lemma rebase_convert_char d va :
  convert_char out (L d) va = rmap L2 (convert_char out d va).
Proof.
  unfold convert_char. cbv zeta.
  change (has (L ?x) ?m) with (has x m).
  rewrite rebase_pad_field.
  destruct (negb (has d FLAGS_LEFT)).
  - destruct (pad_field out 1 d) as [l d1]; cbn [fst snd].
    left_arg. rewrite rebase_do_out, rebase_pad_field. left_flat.
  - left_arg. rewrite rebase_do_out, rebase_pad_field. left_flat.
Qed.

Lemma pre_format_long_fresh (d : data_t T) m value negative :
  pre_format_long (set_digit_count m d) value negative
  = pre_format_long d value negative.
Proof. reflexivity. Qed.

Lemma pre_format_long_long_fresh (d : data_t T) m value negative :
  pre_format_long_long (set_digit_count m d) value negative
  = pre_format_long_long d value negative.
Proof. reflexivity. Qed.

Ltac left_let wrap :=
  lazymatch goal with
  | |- (let x := ?a in @?f x) = (let y := ?c in @?g y) =>
      let H := fresh "H" in
      assert (H : a = wrap c) by left_flat;
      change (f a = g c); rewrite H; clear H;
      generalize c; intros ?; cbv beta
  end.

Lemma rebase_convert_integer d c va :
  convert_integer out (L d) c va = convert_integer out d c va.
Proof.
  cbv beta delta [convert_integer].
  do 4 left_let (@set_digit_count T dc).
  change (has (set_digit_count dc ?x) ?m) with (has x m).
  cbv zeta.
  rewrite ?pre_format_long_fresh, ?pre_format_long_long_fresh.
  reflexivity.
Qed.

Lemma rebase_convert_pointer d va :
  convert_pointer out (L d) va = convert_pointer out d va.
Proof.
  cbv beta delta [convert_pointer].
  do 2 left_let (@rebase T b dc). left_let (@set_digit_count T dc).
  cbv zeta.
  rewrite ?pre_format_long_fresh, ?pre_format_long_long_fresh.
  reflexivity.
Qed.

Lemma rebase_eval_specifier d format va :
  rmap outcome (eval_specifier out (L d) format va)
  = rmap outcome (eval_specifier out d format va).
Proof.
  unfold eval_specifier.
  destruct (deref format) as [c|e]; cbn [bind rmap]; [|reflexivity].
  rewrite rebase_convert_integer, rebase_convert_char, rebase_convert_pointer,
    !rebase_do_out.
  destruct (is_integer_conversion c); [reflexivity|].
  destruct (Ascii.eqb c "c").
  { destruct (convert_char out d va) as [[d' va']|e]; reflexivity. }
  destruct (Ascii.eqb c "s").
  { destruct (va_arg_char_p va) as [[p va']|e]; cbn [bind rmap];
      [|reflexivity].
    rewrite rebase_print_string.
    destruct (print_string out d p) as [d'|e]; reflexivity. }
  destruct (Ascii.eqb c "p"); [reflexivity|].
  destruct (Ascii.eqb c "%"); reflexivity.
Qed.

End Leftovers.

Lemma stale_eval_flags {T} w pr b n format : forall d : data_t T,
  eval_flags (stale w pr b n d) format
  = rmap (fun x => (stale w pr b n (fst x), snd x)) (eval_flags d format).
Proof.
  induction format as [|c format IH]; intros d; cbn [eval_flags];
    [reflexivity|].
  repeat match goal with
         | |- context [if Ascii.eqb c ?x then _ else _] =>
             destruct (Ascii.eqb c x);
             [change (set_flags ?f (stale w pr b n d))
                with (stale w pr b n (set_flags f d)); apply IH|]
         end.
  reflexivity.
Qed.

Lemma stale_eval_width {T} w pr b n (d : data_t T) format va :
  eval_width (stale w pr b n d) format va
  = rmap (fun x => (rebase b n (set_precision pr (fst (fst x))),
                    snd (fst x), snd x))
      (eval_width d format va).
Proof.
  unfold eval_width. cbv zeta.
  destruct (deref format) as [c|e]; cbn [bind rmap]; [|reflexivity].
  destruct (is_digit c).
  - destruct (atoi format) as [[m format']|e]; reflexivity.
  - destruct (Ascii.eqb c "*"); [|reflexivity].
    destruct (va_arg_int va) as [[v va']|e]; cbn [bind rmap]; [|reflexivity].
    destruct (v <? 0); reflexivity.
Qed.

Lemma stale_eval_precision {T} pr b n (d : data_t T) format va :
  eval_precision (rebase b n (set_precision pr d)) format va
  = rmap (fun x => (rebase b n (fst (fst x)), snd (fst x), snd x))
      (eval_precision d format va).
Proof.
  unfold eval_precision. cbv zeta.
  destruct (deref format) as [c|e]; cbn [bind rmap]; [|reflexivity].
  destruct (Ascii.eqb c "."); [|reflexivity].
  destruct (deref (next format)) as [c'|e]; cbn [bind rmap]; [|reflexivity].
  destruct (is_digit c').
  - destruct (atoi (next format)) as [[m format']|e]; reflexivity.
  - destruct (Ascii.eqb c' "*"); [|reflexivity].
    destruct (va_arg_int va) as [[v va']|e]; reflexivity.
Qed.

(** A directive gives the same whatever flags, width, precision, base and
    digit count it starts from. *)
Lemma directive_leftovers {T} (out : ascii -> T -> T) fl w pr b n
    (d : data_t T) format va :
  rmap outcome (directive out (set_flags fl (stale w pr b n d)) format va)
  = rmap outcome (directive out d format va).
Proof.
  unfold directive. cbv zeta.
  change (set_flags 0 (set_flags fl (stale w pr b n d)))
    with (stale w pr b n (set_flags 0 d)).
  rewrite stale_eval_flags.
  destruct (eval_flags (set_flags 0 d) format) as [[d1 f1]|e];
    cbn [bind rmap fst snd]; [|reflexivity].
  rewrite stale_eval_width.
  destruct (eval_width d1 f1 va) as [[[d2 f2] va2]|e];
    cbn [bind rmap fst snd]; [|reflexivity].
  rewrite stale_eval_precision.
  destruct (eval_precision d2 f2 va2) as [[[d3 f3] va3]|e];
    cbn [bind rmap fst snd]; [|reflexivity].
  rewrite rebase_eval_length.
  destruct (eval_length d3 f3) as [[d4 f4]|e];
    cbn [bind rmap fst snd]; [|reflexivity].
  apply rebase_eval_specifier.
Qed.

Lemma format_loop_offset {T} (out : ascii -> T -> T) k fuel :
  forall (d d' : data_t T) format va,
    ptr d' = ptr d -> idx d' = u8 (idx d + k) ->
    rmap (fun x => (ptr x, idx x)) (format_loop out fuel d' format va)
    = rmap (fun x => (ptr x, u8 (idx x + k)))
        (format_loop out fuel d format va).
Proof.
  induction fuel as [|fuel IH]; intros d d' format va P I; cbn [format_loop];
    [reflexivity|].
  destruct (deref format) as [c|e]; cbn [bind rmap]; [|reflexivity].
  destruct (Ascii.eqb c NUL); [cbn [rmap]; now rewrite P, I|].
  destruct (negb (Ascii.eqb c "%")).
  - apply IH.
    + cbn [do_out idx_incr emit set_idx set_ptr ptr]. now rewrite P.
    + cbn [do_out idx_incr emit set_idx set_ptr idx]. rewrite I.
      unfold u8, wrap_u. rewrite !Zplus_mod_idemp_l. f_equal. lia.
  - assert (Hd : d' = set_flags (flags d')
                        (stale (width d') (precision d') (base d')
                           (digit_count d') (shift k d))).
    { destruct d as [p0 f0 i0 w0 r0 b0 n0], d' as [p1 f1 i1 w1 r1 b1 n1].
      cbn [ptr idx flags width precision base digit_count] in *.
      subst. reflexivity. }
    pose proof (directive_leftovers out (flags d') (width d') (precision d')
                  (base d') (digit_count d') (shift k d) (next format) va)
      as Q.
    rewrite <- Hd, shift_directive in Q.
    destruct (directive out d (next format) va) as [[[d1 f1] va1]|e];
      destruct (directive out d' (next format) va) as [[[d1' f1'] va1']|e'];
      cbn [rmap outcome fst snd bind] in Q |- *; try discriminate.
    + injection Q as Q1 Q2 Q3 Q4. subst f1' va1'. now apply IH.
    + now injection Q as ->.
Qed.

(** X19: a format that starts with a directive: when the directive has
    been carried out, the rest of the format behaves as in a call of its own
    on the sink, with the arguments that are left; the count is the count of
    that call plus the count of the directive, in eight bits.  Nothing else
    of the directive is carried over: not its flags, width, precision, base
    or digit count.  If the directive faults, so does the call. *)
Theorem directive_then_rest {T} (out : ascii -> T -> T) (p : T) f va :
  format_out out p ("%" :: f) va
  = match directive out (initial_data p) f va with
    | Ok (d1, f1, va1) =>
        rmap (fun r => (fst r, u8 (snd r + idx d1)))
          (format_out out (ptr d1) f1 va1)
    | Fault e => Fault e
    end.
Proof.
  unfold format_out at 1. cbn [List.length].
  set (fuel := S (List.length f)).
  cbn [format_loop deref bind next tl].
  change (Ascii.eqb "%" NUL) with false.
  change (negb (Ascii.eqb "%" "%")) with false. cbv iota.
  pose proof (shift_directive out 0 (initial_data p) f va) as S0.
  change (shift 0 (initial_data p)) with (initial_data p) in S0.
  destruct (directive out (initial_data p) f va) as [[[d1 f1] va1]|e] eqn:E;
    cbn [bind rmap fst snd] in S0 |- *; [|reflexivity].
  injection S0 as S0.
  assert (I : idx d1 = u8 (0 + idx d1)).
  { rewrite S0 at 1. cbn [shift set_idx idx]. f_equal. lia. }
  apply directive_length in E.
  rewrite (format_loop_fuel_irrelevant out fuel (S (List.length f1))
             d1 f1 va1) by (subst fuel; lia).
  unfold format_out.
  pose proof (format_loop_offset out (idx d1) (S (List.length f1))
                (initial_data (ptr d1)) d1 f1 va1 eq_refl I) as Q.
  destruct (format_loop out _ d1 f1 va1) as [x|e];
    destruct (format_loop out _ (initial_data (ptr d1)) f1 va1) as [y|e'];
    cbn [rmap bind fst snd] in Q |- *; try discriminate.
  - injection Q as Q1 Q2. now rewrite Q1, Q2.
  - now injection Q as ->.
Qed.

(** ** X20: the count has eight bits *)

Lemma format_out_count {T} (out : ascii -> T -> T) (p : T) format va :
  holds (fun r => 0 <= snd r < 256) (format_out out p format va).
Proof.
  unfold format_out.
  pose proof (shift_format_loop out 0 (S (List.length format))
                (initial_data p) format va) as S0.
  change (shift 0 (initial_data p)) with (initial_data p) in S0.
  destruct (format_loop out _ (initial_data p) format va) as [d|e];
    cbn [bind rmap holds snd] in S0 |- *; [|exact I].
  injection S0 as S0. rewrite S0. cbn [shift set_idx idx].
  unfold u8, wrap_u. apply Z.mod_pos_bound. reflexivity.
Qed.

(** X20: the count that the entry points return is [data.idx], a
    [uint8_t]: whatever the format and the arguments, it lies between 0 and
    255, also when more than 255 characters have been printed. *)
Theorem count_has_eight_bits :
  (forall T (out : ascii -> T -> T) p format va,
      holds (fun r => 0 <= snd r < 256) (format_out out p format va))
  /\ (forall D (_putchar : ascii -> D -> D) dev format va,
         holds (fun r => 0 <= snd r < 256) (printf_ _putchar dev format va))
  /\ (forall m buf format va,
         holds (fun r => 0 <= snd r < 256) (sprintf_ m buf format va))
  /\ (forall m buf count format va,
         holds (fun r => 0 <= snd r < 256)
           (snprintf_ m buf count format va))
  /\ format_out out_log [] (repeat "a"%char 300 ++ [NUL]) []
     = Ok (repeat "a"%char 300, 44).
Proof.
  split; [intros; apply format_out_count|].
  split; [intros; apply format_out_count|].
  split; [|split].
  - intros m buf format va. unfold sprintf_. cbv zeta.
    pose proof (format_out_count out_sprintf (mk_sprintf m buf SIZE_MAX false)
                  format va) as H.
    destruct (format_out out_sprintf _ format va) as [[s n]|e];
      cbn [bind holds snd] in H |- *; [|exact I].
    destruct (buffer s); [exact H|exact I].
  - intros m buf count format va. unfold snprintf_, vsnprintf_. cbv zeta.
    pose proof (format_out_count out_sprintf (mk_sprintf m buf count false)
                  format va) as H.
    destruct (format_out out_sprintf _ format va) as [[s n]|e];
      cbn [bind holds snd] in H |- *; [|exact I].
    destruct buf; [|exact H].
    destruct (0 <? count); [|exact H].
    destruct (buffer s); [exact H|exact I].
  - vm_compute. reflexivity.
Qed.

(** ** C7: conversion characters without a case of their own *)










Lemma inside_trans tail rest f f' :
  inside tail rest f -> (forall r, inside tail r f -> inside tail r f') ->
  inside tail rest f'.
Proof. intros H K. now apply K. Qed.















